(** * 9292 OV: departure normalisation, caching and trigger de-duplication

    A shallow embedding of [lib/9292Api.js] (class [OVApi]) and [app.js]
    (class [OVApp]), and the properties proved of it.

    - [JS], [JSDate]: the JavaScript built-ins the program calls
      ([String.prototype.includes], [split], [parseInt], [Array.prototype.sort]
      and [slice], [Math.round], [Date]).
    - [OVApi], [OVApp]: the program, one definition per source function, with
      the source's names.  State ([this.departuresCache],
      [this.triggeredDepartures], ...) is passed explicitly; what the outside
      world supplies (clock readings, how a request settles) is an argument.
      The listeners that [_registerFlowCards] registers bear the names of
      their cards.
    - [Spec]: the notions the statements are phrased in.
    - [Sample]: concrete inputs.

    Conventions.
    - Strings are sequences of ASCII characters ([string]); the case
      conversions act on the letters A-Z / a-z only.
    - The numbers the program computes with are integral (milliseconds,
      minutes); they are [Z], and [number] adds JavaScript's NaN.
    - [Date.now()] is an explicit argument; one reading is used per
      synchronous run of code.
    - The host runs in UTC, as the comment in [_parseDateTime] states, so
      local-time getters and the local-time constructor are the UTC ones.
    - Calls into the host (the flow card's [trigger], the logger, the
      settings store) complete normally. *)

From Stdlib Require Import ZArith List String Ascii Bool Lia Sorted.
From Stdlib Require Import Numbers.DecimalString Numbers.DecimalZ Numbers.DecimalPos.
From stdpp Require Import base gmap sets list strings.

Local Open Scope Z_scope.

(** ** JavaScript values and built-ins *)

Module JS.

(** A JavaScript number restricted to the integral values this program
    produces, plus NaN. *)
Inductive number : Type :=
| Num (z : Z)
| NaN.

(** Truthiness of a number: [0] and NaN are falsy. *)
Definition truthy (n : number) : bool :=
  match n with
  | Num z => negb (z =? 0)
  | NaN => false
  end.

(** [a || b] on numbers. *)
Definition or_else (a b : number) : number := if truthy a then a else b.

(** [a < b], [a <= b], [a > b] on numbers: every comparison with NaN is false. *)
Definition lt (a b : number) : bool :=
  match a, b with
  | Num x, Num y => x <? y
  | _, _ => false
  end.

Definition le (a b : number) : bool :=
  match a, b with
  | Num x, Num y => x <=? y
  | _, _ => false
  end.

Definition gt (a b : number) : bool := lt b a.

Definition ge (a b : number) : bool := le b a.

(** [a === b] on numbers: NaN equals nothing. *)
Definition strict_eq (a b : number) : bool :=
  match a, b with
  | Num x, Num y => x =? y
  | _, _ => false
  end.

(** [a - b]. *)
Definition sub (a b : number) : number :=
  match a, b with
  | Num x, Num y => Num (x - y)
  | _, _ => NaN
  end.

(** [Math.round(n / d)] for integral [n] and a positive integral [d]: the
    nearest integer, a tie going towards plus infinity, i.e.
    floor(n/d + 1/2). *)
Definition round_div (n d : Z) : Z := (2 * n + d) / (2 * d).

Definition Math_round_div (n : number) (d : Z) : number :=
  match n with
  | Num z => Num (round_div z d)
  | NaN => NaN
  end.

(** [Math.max(0, n)] for a non-NaN argument. *)
Definition Math_max0 (n : Z) : Z := Z.max 0 n.

(** *** Characters *)

Definition is_digit (c : ascii) : bool :=
  let n := nat_of_ascii c in (48 <=? n)%nat && (n <=? 57)%nat.

Definition digit_value (c : ascii) : Z := Z.of_nat (nat_of_ascii c) - 48.

Definition is_upper (c : ascii) : bool :=
  let n := nat_of_ascii c in (65 <=? n)%nat && (n <=? 90)%nat.

Definition is_lower (c : ascii) : bool :=
  let n := nat_of_ascii c in (97 <=? n)%nat && (n <=? 122)%nat.

Definition lower_char (c : ascii) : ascii :=
  if is_upper c then ascii_of_nat (nat_of_ascii c + 32) else c.

Definition upper_char (c : ascii) : ascii :=
  if is_lower c then ascii_of_nat (nat_of_ascii c - 32) else c.

(** White space that [parseInt] skips (space, tab, LF, VT, FF, CR). *)
Definition is_space (c : ascii) : bool :=
  let n := nat_of_ascii c in
  (n =? 32)%nat || ((9 <=? n)%nat && (n <=? 13)%nat).

(** *** Strings *)

(** [s.toLowerCase()], [s.toUpperCase()]. *)
Fixpoint toLowerCase (s : string) : string :=
  match s with
  | EmptyString => EmptyString
  | String c s' => String (lower_char c) (toLowerCase s')
  end.

Fixpoint toUpperCase (s : string) : string :=
  match s with
  | EmptyString => EmptyString
  | String c s' => String (upper_char c) (toUpperCase s')
  end.

(** [s.startsWith(p)], used to define [includes]. *)
Fixpoint startsWith (p s : string) : bool :=
  match p, s with
  | EmptyString, _ => true
  | String _ _, EmptyString => false
  | String a p', String b s' => Ascii.eqb a b && startsWith p' s'
  end.

(** [s.includes(sub)]: [sub] occurs in [s] at some position. *)
Fixpoint includes (s sub : string) : bool :=
  startsWith sub s ||
  match s with
  | EmptyString => false
  | String _ s' => includes s' sub
  end.

(** A string is falsy exactly when it is empty. *)
Definition nonempty (s : string) : bool :=
  match s with
  | EmptyString => false
  | String _ _ => true
  end.

(** [v || d] where [v] is a string or [undefined] and [d] a string. *)
Definition str_or (v : option string) (d : string) : string :=
  match v with
  | Some s => if nonempty s then s else d
  | None => d
  end.

(** [a || b] where both are a string or [undefined]. *)
Definition opt_or (a b : option string) : option string :=
  match a with
  | Some s => if nonempty s then a else b
  | None => b
  end.

(** A string or [undefined] interpolated in a template literal. *)
Definition interpolate (v : option string) : string :=
  match v with
  | Some s => s
  | None => "undefined"
  end.

(** [s.split(sep)] for a one-character separator.  The result is never
    empty: a string without the separator gives the one-element list. *)
Fixpoint split (sep : ascii) (s : string) : list string :=
  match s with
  | EmptyString => [EmptyString]
  | String c s' =>
      if Ascii.eqb c sep then EmptyString :: split sep s'
      else match split sep s' with
           | h :: t => String c h :: t
           | [] => [String c EmptyString]
           end
  end.

(** [parts[parts.length - 1]] for a non-empty array of strings. *)
Definition last_part (parts : list string) : string := List.last parts EmptyString.

(** [String(n)] / template interpolation of an integral number below 1e21 in
    absolute value: its decimal digits, with a leading minus sign when
    negative.  NaN prints as its name. *)
Definition Z_toString (z : Z) : string := NilZero.string_of_int (Z.to_int z).

Definition Number_toString (n : number) : string :=
  match n with
  | Num z => Z_toString z
  | NaN => "NaN"
  end.

(** [parseInt(s, 10)]: skip leading white space, read an optional sign, then
    the longest run of decimal digits; NaN when that run is empty. *)
Fixpoint skip_space (s : string) : string :=
  match s with
  | String c s' => if is_space c then skip_space s' else s
  | EmptyString => s
  end.

Fixpoint read_digits (acc : option Z) (s : string) : option Z :=
  match s with
  | String c s' =>
      if is_digit c
      then read_digits (Some (10 * default 0 acc + digit_value c)) s'
      else acc
  | EmptyString => acc
  end.

Definition parseInt (s : string) : number :=
  let s := skip_space s in
  let '(sign, body) :=
    match s with
    | String c s' =>
        if Ascii.eqb c "-" then (-1, s')
        else if Ascii.eqb c "+" then (1, s')
        else (1, s)
    | EmptyString => (1, s)
    end in
  match read_digits None body with
  | Some v => Num (sign * v)
  | None => NaN
  end.

(** [a.slice(0, end)] for an integral [end]: a negative [end] counts from
    the end of the array. *)
Definition slice0 {A} (l : list A) (e : Z) : list A :=
  if e <? 0 then take (Z.to_nat (Z.of_nat (length l) + e)) l
  else take (Z.to_nat e) l.

(** [a.sort((x, y) => key(x) - key(y))] for integral keys: the sort is
    stable, so its result is the one of a stable insertion sort. *)
Fixpoint insert_by {A} (key : A -> Z) (x : A) (l : list A) : list A :=
  match l with
  | [] => [x]
  | y :: l' => if key x <=? key y then x :: l else y :: insert_by key x l'
  end.

Definition sort_by {A} (key : A -> Z) (l : list A) : list A :=
  foldr (insert_by key) [] l.

(** [ToNumber(v)] for a number or [undefined]. *)
Definition ToNumber (v : option Z) : number :=
  match v with
  | Some z => Num z
  | None => NaN
  end.

(** A [Map] with string keys, as the list of its entries in insertion
    order: [has], [set] (a new key goes to the end, a present key keeps its
    place) and [values()]. *)
Fixpoint Map_has {V} (m : list (string * V)) (key : string) : bool :=
  match m with
  | [] => false
  | (k, _) :: m' => String.eqb k key || Map_has m' key
  end.

Fixpoint Map_set {V} (m : list (string * V)) (key : string) (v : V) : list (string * V) :=
  match m with
  | [] => [(key, v)]
  | (k, w) :: m' => if String.eqb k key then (k, v) :: m' else (k, w) :: Map_set m' key v
  end.

Definition Map_values {V} (m : list (string * V)) : list V := map snd m.

End JS.

(** ** The built-in [Date], on a host whose local time zone is UTC *)

Module JSDate.
Import JS.

Definition msPerDay : Z := 86400000.

(** Day number (days since 1970-01-01) of a proleptic Gregorian date, with
    [m] in 1..12. *)
Definition days_from_civil (y m d : Z) : Z :=
  let y' := if m <=? 2 then y - 1 else y in
  let era := y' / 400 in
  let yoe := y' - era * 400 in
  let mp := if m <=? 2 then m + 9 else m - 3 in
  let doy := (153 * mp + 2) / 5 + d - 1 in
  let doe := yoe * 365 + yoe / 4 - yoe / 100 + doy in
  era * 146097 + doe - 719468.

(** The inverse: year, month (1..12) and day of the month of a day number. *)
Definition civil_from_days (z : Z) : Z * Z * Z :=
  let z := z + 719468 in
  let era := z / 146097 in
  let doe := z - era * 146097 in
  let yoe := (doe - doe / 1460 + doe / 36524 - doe / 146096) / 365 in
  let doy := doe - (365 * yoe + yoe / 4 - yoe / 100) in
  let mp := (5 * doy + 2) / 153 in
  let d := doy - (153 * mp + 2) / 5 + 1 in
  let m := if mp <? 10 then mp + 3 else mp - 9 in
  let y := yoe + era * 400 in
  (if m <=? 2 then y + 1 else y, m, d).

Definition is_leap (y : Z) : bool :=
  (y mod 4 =? 0) && (negb (y mod 100 =? 0) || (y mod 400 =? 0)).

Definition days_in_month (y m : Z) : Z :=
  if m =? 2 then (if is_leap y then 29 else 28)
  else if (m =? 4) || (m =? 6) || (m =? 9) || (m =? 11) then 30
  else 31.

(** ECMAScript's abstract operations [MakeDay] (month index from 0, months
    beyond the year carried into it), [MakeTime], [MakeDate], [TimeClip],
    [Day] and [WeekDay]. *)
Definition MakeDay (year month date : Z) : Z :=
  let ym := year + month / 12 in
  let mn := month mod 12 in
  days_from_civil ym (mn + 1) 1 + date - 1.

Definition MakeTime (hour min sec ms : Z) : Z :=
  hour * 3600000 + min * 60000 + sec * 1000 + ms.

Definition MakeDate (day time : Z) : Z := day * msPerDay + time.

Definition TimeClip (t : number) : number :=
  match t with
  | Num z => if Z.abs z <=? 8640000000000000 then Num z else NaN
  | NaN => NaN
  end.

Definition Day (t : Z) : Z := t / msPerDay.

Definition WeekDay (t : Z) : Z := (Day t + 4) mod 7.

(** A [Date] object is its time value: milliseconds since the epoch, or NaN
    for an invalid date. *)
Record Date : Type := mkDate { getTime : number }.

(** [new Date(value)] for a number. *)
Definition Date_of_number (v : number) : Date := mkDate (TimeClip v).

(** [new Date(year, monthIndex, day)]: a year from 0 to 99 stands for
    1900 + year. *)
Definition Date_of_components (year : number) (monthIndex day : Z) : Date :=
  match year with
  | Num y =>
      let yr := if (0 <=? y) && (y <=? 99) then 1900 + y else y in
      Date_of_number (Num (MakeDate (MakeDay yr monthIndex day) (MakeTime 0 0 0 0)))
  | NaN => mkDate NaN
  end.

(** The getters; each is NaN on an invalid date. *)
Definition on_time (f : Z -> Z) (d : Date) : number :=
  match getTime d with
  | Num t => Num (f t)
  | NaN => NaN
  end.

Definition getFullYear : Date -> number :=
  on_time (fun t => let '(y, _, _) := civil_from_days (Day t) in y).

(** Month index, from 0. *)
Definition getMonth : Date -> number :=
  on_time (fun t => let '(_, m, _) := civil_from_days (Day t) in m - 1).

Definition getDate : Date -> number :=
  on_time (fun t => let '(_, _, d) := civil_from_days (Day t) in d).

(** Day of the week, 0 for Sunday. *)
Definition getDay : Date -> number := on_time WeekDay.

Definition getHours : Date -> number := on_time (fun t => (t / 3600000) mod 24).

Definition getMinutes : Date -> number := on_time (fun t => (t / 60000) mod 60).

(** *** Parsing date-time strings *)

(** The numeric fields of a date-time without offset. *)
Record fields : Type := mkFields {
  f_year : Z; f_month : Z; f_day : Z;
  f_hour : Z; f_minute : Z; f_second : Z
}.

Definition two_digits (a b : ascii) : Z := 10 * digit_value a + digit_value b.

(** The fields of a string of the exact shape [YYYY-MM-DDTHH:mm:ss]. *)
Definition naive_iso_fields (s : string) : option fields :=
  match list_ascii_of_string s with
  | [y1; y2; y3; y4; s1; m1; m2; s2; d1; d2; t; h1; h2; c1; n1; n2; c2; e1; e2] =>
      if forallb is_digit [y1; y2; y3; y4; m1; m2; d1; d2; h1; h2; n1; n2; e1; e2]
         && Ascii.eqb s1 "-" && Ascii.eqb s2 "-" && Ascii.eqb t "T"
         && Ascii.eqb c1 ":" && Ascii.eqb c2 ":"
      then Some (mkFields (100 * two_digits y1 y2 + two_digits y3 y4)
                          (two_digits m1 m2) (two_digits d1 d2)
                          (two_digits h1 h2) (two_digits n1 n2) (two_digits e1 e2))
      else None
  | _ => None
  end.

(** The fields denote a calendar date and a time of day. *)
Definition valid_fields (f : fields) : bool :=
  (1 <=? f_month f) && (f_month f <=? 12) &&
  (1 <=? f_day f) && (f_day f <=? days_in_month (f_year f) (f_month f)) &&
  (0 <=? f_hour f) && (f_hour f <=? 23) &&
  (0 <=? f_minute f) && (f_minute f <=? 59) &&
  (0 <=? f_second f) && (f_second f <=? 59).

(** The instant whose UTC wall clock shows the fields. *)
Definition utc_ms (f : fields) : Z :=
  MakeDate (MakeDay (f_year f) (f_month f - 1) (f_day f))
           (MakeTime (f_hour f) (f_minute f) (f_second f) 0).

Section Parse.

(** What the host's [Date] makes of every string that is not a valid
    date-time of the shape above (other ISO forms, forms with an offset,
    implementation-defined formats, garbage): left open. *)
Variable host_parse : string -> Date.

(** [new Date(s)] for a string.  A date-time without offset is read as local
    time, which is UTC on this host. *)
Definition Date_of_string (s : string) : Date :=
  match naive_iso_fields s with
  | Some f => if valid_fields f then Date_of_number (Num (utc_ms f)) else host_parse s
  | None => host_parse s
  end.

End Parse.

(** *** Formatting *)

Definition digit_char (n : Z) : ascii := ascii_of_nat (Z.to_nat (48 + n)).

Definition pad2 (n : Z) : string :=
  String (digit_char (n / 10)) (String (digit_char (n mod 10)) EmptyString).

(** [date.toLocaleTimeString('nl-NL', {hour: '2-digit', minute: '2-digit',
    hour12: false})]. *)
Definition toLocaleTimeString_HHMM (d : Date) : string :=
  match getHours d, getMinutes d with
  | Num h, Num m => pad2 h +:+ ":" +:+ pad2 m
  | _, _ => "Invalid Date"
  end.

End JSDate.


(** ** [lib/9292Api.js]: class [OVApi] *)

Module OVApi.
Import JS JSDate.

Definition STOP_AREAS_CACHE_TTL : Z := 24 * 60 * 60 * 1000.
Definition DEPARTURES_CACHE_TTL : Z := 30 * 1000.

(** How a call completes: normally with a value, or by throwing. *)
Inductive completion (A : Type) : Type :=
| Normal (a : A)
| Throw (message : string).
Arguments Normal {A} a.
Arguments Throw {A} message.

(** *** Upstream payloads

    A JSON object is the list of its properties in enumeration order, so
    [Object.values] is [map snd].  The payload has the shape the upstream
    API documents; a string property that is absent is [None]. *)

Record RawPass : Type := mkRawPass {
  TargetDepartureTime : option string;
  ExpectedDepartureTime : option string;
  TripStopStatus : option string;
  LinePublicNumber : option string;
  DestinationName50 : option string;
  DestinationName : option string;
  TransportType : option string;
  OperatorCode : option string
}.

Record RawStop : Type := mkRawStop {
  Passes : option (list (string * RawPass))
}.

Record RawStopArea : Type := mkRawStopArea {
  TimingPointName : option string;
  TimingPointTown : option string;
  StopAreaCode : option string
}.

(** How [_fetch] settles: rejected (network error, timeout, invalid JSON),
    or resolved with the parsed body; [None] is the JSON value [null]. *)
Inductive fetched (A : Type) : Type :=
| Rejected (message : string)
| Resolved (data : option A).
Arguments Rejected {A} message.
Arguments Resolved {A} data.

Definition DeparturesPayload : Type := list (string * list (string * RawStop)).
Definition StopAreasPayload : Type := list (string * RawStopArea).

(** [obj[key]] on an object given by its property list. *)
Fixpoint get_property {A} (obj : list (string * A)) (key : string) : option A :=
  match obj with
  | [] => None
  | (k, v) :: obj' => if String.eqb k key then Some v else get_property obj' key
  end.

Definition Object_values {A} (obj : list (string * A)) : list A := map snd obj.

(** *** The canonical departure *)

Inductive Status : Type := planned | passed | cancelled | unknown.

Inductive Transport : Type := bus | tram | metro | train | ferry.

Record Departure : Type := mkDeparture {
  line : string;
  destination : string;
  status : Status;
  planned_time : string;
  expected_time : string;
  delay_minutes : number;
  transport_type : Transport;
  operator : string;
  timestamp : Z;
  uid : string
}.

Record CacheEntry : Type := mkCacheEntry {
  time : Z;
  data : list Departure
}.

(** The state of an [OVApi] object; [settings_*] is the host's persistent
    store behind [this.homey.settings]. *)
Record Api : Type := mkApi {
  stopAreasCache : option (list RawStopArea);
  stopAreasCacheTime : Z;
  settings_stopAreasCache : option (list RawStopArea);
  settings_stopAreasCacheTime : option Z;
  departuresCache : gmap string CacheEntry
}.

(** The object the constructor builds, over a store with nothing saved. *)
Definition new_OVApi : Api := mkApi None 0 None None ∅.

(** *** Pure helpers *)

Definition _mapStatus (status : string) : Status :=
  let s := toUpperCase status in
  if String.eqb s "PLANNED" || String.eqb s "DRIVING" || String.eqb s "ARRIVED" then planned
  else if String.eqb s "PASSED" then passed
  else if String.eqb s "CANCEL" then cancelled
  else unknown.

Definition _mapTransportType (type : string) : Transport :=
  let s := toLowerCase type in
  if String.eqb s "bus" then bus
  else if String.eqb s "tram" then tram
  else if String.eqb s "metro" then metro
  else if String.eqb s "trein" || String.eqb s "train" then train
  else if String.eqb s "ferry" || String.eqb s "veer" then ferry
  else bus.

Definition _formatTime (date : Date) : string := toLocaleTimeString_HHMM date.

(** [getMinutesUntil(departure)], with [now] for [Date.now()]. *)
Definition getMinutesUntil (now : Z) (departure : Departure) : Z :=
  let departureTime := timestamp departure in
  Math_max0 (round_div (departureTime - now) 60000).

(** [_getAmsterdamOffset(date)], in minutes. *)
Definition _getAmsterdamOffset (date : Date) : Z :=
  let year := getFullYear date in
  let month := getMonth date in
  let day := getDate date in
  let marchLast := Date_of_components year 2 31 in
  let dstStart := sub (Num 31) (getDay marchLast) in
  let octLast := Date_of_components year 9 31 in
  let dstEnd := sub (Num 31) (getDay octLast) in
  let isDST :=
    (gt month (Num 2) && lt month (Num 9)) ||
    (strict_eq month (Num 2) && ge day dstStart) ||
    (strict_eq month (Num 9) && lt day dstEnd) in
  if isDST then 120 else 60.

(** The regular expression [\d{2}:\d{2}:\d{2}-], matched at the start of
    [s] and then anywhere in [s] ([RegExp.prototype.test]). *)
Definition hms_minus_here (s : string) : bool :=
  match s with
  | String a (String b (String c (String d (String e (String f (String g (String h (String i _)))))))) =>
      is_digit a && is_digit b && Ascii.eqb c ":" &&
      is_digit d && is_digit e && Ascii.eqb f ":" &&
      is_digit g && is_digit h && Ascii.eqb i "-"
  | _ => false
  end.

Fixpoint test_hms_minus (s : string) : bool :=
  hms_minus_here s ||
  match s with
  | EmptyString => false
  | String _ s' => test_hms_minus s'
  end.

Section WithHost.

Variable host_parse : string -> Date.

(** [_parseDateTime(datetime)]; [None] is the result [null].  Nothing in the
    [try] block throws on a string, so the [catch] branch is not reached. *)
Definition _parseDateTime (datetime : option string) : option Date :=
  match datetime with
  | None => None
  | Some datetime =>
      if negb (nonempty datetime) then None
      else
        let date := Date_of_string host_parse datetime in
        if negb (includes datetime "Z") && negb (includes datetime "+")
           && negb (test_hms_minus datetime)
        then
          let amsterdamOffset := _getAmsterdamOffset date in
          Some (Date_of_number (sub (getTime date) (Num (amsterdamOffset * 60 * 1000))))
        else Some date
  end.

(** [d?.getTime() || dflt] for a date or [null]. *)
Definition time_or (d : option Date) (dflt : Z) : Z :=
  match d with
  | Some d => match or_else (getTime d) (Num dflt) with Num t => t | NaN => dflt end
  | None => dflt
  end.

(** The [uid] template literal. *)
Definition make_uid (stopAreaCode : string) (departure : RawPass) (planned : option Date) : string :=
  stopAreaCode +:+ "_" +:+ interpolate (LinePublicNumber departure) +:+ "_"
  +:+ interpolate (opt_or (DestinationName50 departure) (DestinationName departure))
  +:+ "_" +:+ Z_toString (time_or planned 0).

(** The body of the inner loop of [getDepartures]: the departure pushed for
    one raw record, or [None] when the record is skipped. *)
Definition map_departure (stopAreaCode : string) (departure : RawPass) : option Departure :=
  let planned := _parseDateTime (TargetDepartureTime departure) in
  let expected := _parseDateTime (ExpectedDepartureTime departure) in
  let delayMinutes :=
    match planned, expected with
    | Some p, Some e => Math_round_div (sub (getTime e) (getTime p)) 60000
    | _, _ => Num 0
    end in
  let status := _mapStatus (str_or (TripStopStatus departure) "") in
  let timestamp := time_or expected (time_or planned 0) in
  if match status with passed => true | _ => false end || (timestamp =? 0) then None
  else Some {|
    line := str_or (LinePublicNumber departure) "";
    destination := str_or (opt_or (DestinationName50 departure) (DestinationName departure)) "";
    status := status;
    planned_time := match planned with Some p => _formatTime p | None => "" end;
    expected_time := match expected with Some e => _formatTime e | None => "" end;
    delay_minutes := delayMinutes;
    transport_type := _mapTransportType (str_or (TransportType departure) "");
    operator := str_or (OperatorCode departure) "";
    timestamp := timestamp;
    uid := make_uid stopAreaCode departure planned
  |}.

(** The two nested loops: every pass of every stop of the area, in
    enumeration order. *)
Definition collect_departures (stopAreaCode : string) (stopData : list (string * RawStop)) : list Departure :=
  flat_map
    (fun stop => omap (map_departure stopAreaCode) (Object_values (default [] (Passes stop))))
    (Object_values stopData).

(** The [try] block of [getDepartures] once [_fetch] has settled: the
    departures to return and the cache afterwards, or a throw. *)
Definition getDepartures_try (api : Api) (now : Z) (response : fetched DeparturesPayload)
    (stopAreaCode : string) (limit : Z) : completion (list Departure * Api) :=
  match response with
  | Rejected message => Throw message
  | Resolved None => Throw "Cannot read properties of null"
  | Resolved (Some data) =>
      let stopData := default [] (get_property data stopAreaCode) in
      let departures := collect_departures stopAreaCode stopData in
      let departures := sort_by timestamp departures in
      let api' := mkApi (stopAreasCache api) (stopAreasCacheTime api)
                        (settings_stopAreasCache api) (settings_stopAreasCacheTime api)
                        (<[stopAreaCode := mkCacheEntry now departures]> (departuresCache api)) in
      Normal (slice0 departures limit, api')
  end.

(** The cache check of [getDepartures]: the entry, when there is one and it
    is younger than the TTL. *)
Definition fresh_entry (api : Api) (now : Z) (cacheKey : string) : option CacheEntry :=
  match departuresCache api !! cacheKey with
  | Some cached => if now - time cached <? DEPARTURES_CACHE_TTL then Some cached else None
  | None => None
  end.

(** [getDepartures(stopAreaCode, limit = 10)].  [response] is how the
    request settles if one is made; whatever the [try] block throws is
    caught, and the empty array returned. *)
Definition getDepartures (api : Api) (now : Z) (response : fetched DeparturesPayload)
    (stopAreaCode : string) (limit : option Z) : completion (list Departure) * Api :=
  let limit := default 10 limit in
  if negb (nonempty stopAreaCode) then (Normal [], api)
  else
    let cacheKey := stopAreaCode in
    match fresh_entry api now cacheKey with
    | Some cached => (Normal (slice0 (data cached) limit), api)
    | None =>
        match getDepartures_try api now response stopAreaCode limit with
        | Normal (departures, api') => (Normal departures, api')
        | Throw _ => (Normal [], api)
        end
    end.

End WithHost.

(** The two cache checks of [getAllStopAreas]. *)
Definition memory_hit (api : Api) (now : Z) : option (list RawStopArea) :=
  match stopAreasCache api with
  | Some cache => if now - stopAreasCacheTime api <? STOP_AREAS_CACHE_TTL then Some cache else None
  | None => None
  end.

Definition settings_hit (api : Api) (now : Z) : option (list RawStopArea * Z) :=
  match settings_stopAreasCache api, settings_stopAreasCacheTime api with
  | Some cached, Some cachedTime =>
      if negb (cachedTime =? 0) && (now - cachedTime <? STOP_AREAS_CACHE_TTL)
      then Some (cached, cachedTime) else None
  | _, _ => None
  end.

(** [getAllStopAreas()]; [response] is how the request settles if one is
    made. *)
Definition getAllStopAreas (api : Api) (now : Z) (response : fetched StopAreasPayload)
    : list RawStopArea * Api :=
  match memory_hit api now with
  | Some cache => (cache, api)
  | None =>
      match settings_hit api now with
      | Some (cached, cachedTime) =>
          (cached, mkApi (Some cached) cachedTime (settings_stopAreasCache api)
                         (settings_stopAreasCacheTime api) (departuresCache api))
      | None =>
          match response with
          | Resolved data =>
              let stopAreas := Object_values (default [] data) in
              (stopAreas, mkApi (Some stopAreas) now (Some stopAreas) (Some now) (departuresCache api))
          | Rejected _ => (default [] (stopAreasCache api), api)
          end
      end
  end.

(** One result of [searchLocations]. *)
Record Location : Type := mkLocation {
  id : string;
  name : string;
  description : string
}.

(** The filter predicate and the projection of [searchLocations]. *)
Definition stop_matches (queryLower : string) (stop : RawStopArea) : bool :=
  let name := toLowerCase (str_or (TimingPointName stop) "") in
  let town := toLowerCase (str_or (TimingPointTown stop) "") in
  let code := toLowerCase (str_or (StopAreaCode stop) "") in
  includes name queryLower || includes town queryLower || includes code queryLower.

Definition to_location (stop : RawStopArea) : Location :=
  {| id := str_or (StopAreaCode stop) "";
     name := str_or (TimingPointName stop) "";
     description := str_or (TimingPointTown stop) "" |}.

(** [searchLocations(query)]; an absent query is [None]. *)
Definition searchLocations (api : Api) (now : Z) (response : fetched StopAreasPayload)
    (query : option string) : list Location * Api :=
  match query with
  | None => ([], api)
  | Some query =>
      if negb (nonempty query) || (Z.of_nat (String.length query) <? 2) then ([], api)
      else
        let queryLower := toLowerCase query in
        let '(allStops, api') := getAllStopAreas api now response in
        (map to_location (slice0 (List.filter (stop_matches queryLower) allStops) 15), api')
  end.

(** One result of [getDestinations]: its [name] and [description]. *)
Record Destination : Type := mkDestination {
  dest_name : string;
  dest_description : string
}.

(** The body of the loop of [getDestinations], on the [Map] built so far. *)
Definition add_destination (destinations : list (string * Destination)) (dep : Departure)
    : list (string * Destination) :=
  if nonempty (destination dep) && negb (Map_has destinations (destination dep))
  then Map_set destinations (destination dep)
         {| dest_name := destination dep; dest_description := "Line " +:+ line dep |}
  else destinations.

(** [getDestinations(stopAreaCode)]. *)
Definition getDestinations (host_parse : string -> Date) (api : Api) (now : Z)
    (response : fetched DeparturesPayload) (stopAreaCode : string)
    : completion (list Destination) * Api :=
  match getDepartures host_parse api now response stopAreaCode (Some 50) with
  | (Throw message, api') => (Throw message, api')
  | (Normal departures, api') =>
      (Normal (Map_values (fold_left add_destination departures [])), api')
  end.

(** The string a normalized transport type stands for. *)
Definition Transport_name (t : Transport) : string :=
  match t with
  | bus => "bus"
  | tram => "tram"
  | metro => "metro"
  | train => "train"
  | ferry => "ferry"
  end.

End OVApi.

(** ** [app.js]: class [OVApp] *)

Module OVApp.
Import JS JSDate OVApi.

Definition POLL_INTERVAL : Z := 30 * 1000.

(** [this.triggeredDepartures]: one set of keys per trigger kind. *)
Record TriggeredDepartures : Type := mkTriggered {
  soon : gset string;
  delayed : gset string
}.

Record App : Type := mkApp {
  api : Api;
  triggeredDepartures : TriggeredDepartures
}.

(** The state [onInit] sets up. *)
Definition onInit : App := mkApp new_OVApi (mkTriggered ∅ ∅).

(** The argument values of one configured trigger instance.
    [station_id] is [args.station?.id] and [destination_name] is
    [args.destination?.name]; an argument that was not configured is [None]. *)
Record TriggerArgs : Type := mkArgs {
  station_id : option string;
  destination_name : option string;
  minutes : option Z;
  min_delay : option Z;
  trigger_mode : string
}.

(** What the outside world supplies while one instance is evaluated: the
    clock reading inside [getDepartures], how the request settles if one is
    made, and the clock reading of the evaluation loop. *)
Record Env : Type := mkEnv {
  clock_fetch : Z;
  response : fetched DeparturesPayload;
  clock_eval : Z
}.

(** The payloads handed to [trigger(tokens, state)]. *)
Record Tokens : Type := mkTokens {
  tk_line : string;
  tk_destination : string;
  tk_minutes_until : option Z;
  tk_delay_minutes : option number;
  tk_planned_time : string;
  tk_expected_time : string
}.

Record TriggerState : Type := mkTriggerState {
  stationId : string;
  state_destination : string
}.

Inductive Kind : Type := Soon | Delayed.

(** One call of [trigger(tokens, state)] on the card of the given kind.
    [cause] is the departure the call was made for; it is a ghost field, not
    passed to the card. *)
Record Event : Type := mkEvent {
  kind : Kind;
  cause : Departure;
  tokens : Tokens;
  state : TriggerState
}.

(** [n || 5] for a configured number or [undefined]. *)
Definition number_or_5 (n : option Z) : Z :=
  match n with
  | Some z => if truthy (Num z) then z else 5
  | None => 5
  end.

(** The destination test both loops start with: [true] when the departure is
    skipped. *)
Definition destination_mismatch (destinationLower : string) (dep : Departure) : bool :=
  nonempty destinationLower && negb (includes (toLowerCase (destination dep)) destinationLower).

(** The [for] loop of [_checkDepartureSoonTrigger]: the departure it fires
    for, if any.  The set is only written right before the [break], so the
    loop reads the set it started with. *)
Fixpoint soon_loop (args : TriggerArgs) (now : Z) (destinationLower : string) (threshold : Z)
    (triggered : gset string) (departures : list Departure) : option Departure :=
  match departures with
  | [] => None
  | dep :: rest =>
      if destination_mismatch destinationLower dep
      then soon_loop args now destinationLower threshold triggered rest
      else
        let minutesUntil := getMinutesUntil now dep in
        if minutesUntil <=? threshold then
          let triggerKey := "soon_" +:+ uid dep in
          if String.eqb (trigger_mode args) "once" && bool_decide (triggerKey ∈ triggered)
          then soon_loop args now destinationLower threshold triggered rest
          else Some dep
        else soon_loop args now destinationLower threshold triggered rest
  end.

(** The [for] loop of [_checkDepartureDelayedTrigger]. *)
Fixpoint delayed_loop (args : TriggerArgs) (destinationLower : string) (minDelay : Z)
    (triggered : gset string) (departures : list Departure) : option Departure :=
  match departures with
  | [] => None
  | dep :: rest =>
      if destination_mismatch destinationLower dep
      then delayed_loop args destinationLower minDelay triggered rest
      else
        if gt (delay_minutes dep) (Num minDelay) then
          let triggerKey := "delayed_" +:+ uid dep in
          if String.eqb (trigger_mode args) "once" && bool_decide (triggerKey ∈ triggered)
          then delayed_loop args destinationLower minDelay triggered rest
          else Some dep
        else delayed_loop args destinationLower minDelay triggered rest
  end.

Section WithHost.

Variable host_parse : string -> Date.

(** [_checkDepartureSoonTrigger(args)]: the [trigger] calls it makes (none
    or one) and the state afterwards.  A throw of [getDepartures] would
    leave through this function. *)
Definition _checkDepartureSoonTrigger (app : App) (env : Env) (args : TriggerArgs)
    : completion (list Event) * App :=
  match station_id args with
  | None => (Normal [], app)
  | Some station =>
      if negb (nonempty station) then (Normal [], app)
      else
        match getDepartures host_parse (api app) (clock_fetch env) (response env) station None with
        | (Throw message, api') => (Throw message, mkApp api' (triggeredDepartures app))
        | (Normal departures, api') =>
            let destinationLower := toLowerCase (str_or (destination_name args) "") in
            let threshold := number_or_5 (minutes args) in
            let triggered := triggeredDepartures app in
            match soon_loop args (clock_eval env) destinationLower threshold (soon triggered) departures with
            | None => (Normal [], mkApp api' triggered)
            | Some dep =>
                let triggerKey := "soon_" +:+ uid dep in
                let tokens := {|
                  tk_line := line dep;
                  tk_destination := destination dep;
                  tk_minutes_until := Some (getMinutesUntil (clock_eval env) dep);
                  tk_delay_minutes := None;
                  tk_planned_time := planned_time dep;
                  tk_expected_time := expected_time dep |} in
                let state := {| stationId := station; state_destination := destination dep |} in
                (Normal [mkEvent Soon dep tokens state],
                 mkApp api' (mkTriggered ({[triggerKey]} ∪ soon triggered) (delayed triggered)))
            end
        end
  end.

(** [_checkDepartureDelayedTrigger(args)]. *)
Definition _checkDepartureDelayedTrigger (app : App) (env : Env) (args : TriggerArgs)
    : completion (list Event) * App :=
  match station_id args with
  | None => (Normal [], app)
  | Some station =>
      if negb (nonempty station) then (Normal [], app)
      else
        match getDepartures host_parse (api app) (clock_fetch env) (response env) station None with
        | (Throw message, api') => (Throw message, mkApp api' (triggeredDepartures app))
        | (Normal departures, api') =>
            let destinationLower := toLowerCase (str_or (destination_name args) "") in
            let minDelay := number_or_5 (min_delay args) in
            let triggered := triggeredDepartures app in
            match delayed_loop args destinationLower minDelay (delayed triggered) departures with
            | None => (Normal [], mkApp api' triggered)
            | Some dep =>
                let triggerKey := "delayed_" +:+ uid dep in
                let tokens := {|
                  tk_line := line dep;
                  tk_destination := destination dep;
                  tk_minutes_until := None;
                  tk_delay_minutes := Some (delay_minutes dep);
                  tk_planned_time := planned_time dep;
                  tk_expected_time := expected_time dep |} in
                let state := {| stationId := station; state_destination := destination dep |} in
                (Normal [mkEvent Delayed dep tokens state],
                 mkApp api' (mkTriggered (soon triggered) ({[triggerKey]} ∪ delayed triggered)))
            end
        end
  end.

(** The test of [_cleanupTriggeredDepartures] on one key: [true] when the
    key is deleted. *)
Definition expired (oneHourAgo : Z) (key : string) : bool :=
  let parts := split "_" key in
  let timestamp := parseInt (last_part parts) in
  truthy timestamp && lt timestamp (Num oneHourAgo).

(** [_cleanupTriggeredDepartures()]. *)
Definition _cleanupTriggeredDepartures (now : Z) (triggered : TriggeredDepartures)
    : TriggeredDepartures :=
  let oneHourAgo := now - 60 * 60 * 1000 in
  {| soon := filter (fun key => expired oneHourAgo key = false) (soon triggered);
     delayed := filter (fun key => expired oneHourAgo key = false) (delayed triggered) |}.

(** A [for ... of] loop that awaits one check per configured instance: the
    [trigger] calls made, and the throw that ended the loop, if any. *)
Fixpoint for_each (check : App -> Env -> TriggerArgs -> completion (list Event) * App)
    (app : App) (instances : list (TriggerArgs * Env)) : list Event * option string * App :=
  match instances with
  | [] => ([], None, app)
  | (args, env) :: rest =>
      match check app env args with
      | (Throw message, app') => ([], Some message, app')
      | (Normal events, app') =>
          let '(events', thrown, app'') := for_each check app' rest in
          (events ++ events', thrown, app'')
      end
  end.

(** [_checkTriggers()], one poll tick: the configured instances of both
    cards with what the world supplies to each, and the clock reading of the
    cleanup.  Its [catch] swallows a throw, so the tick always completes;
    the result is the [trigger] calls made and the state afterwards. *)
Definition _checkTriggers (app : App) (soonArgs delayedArgs : list (TriggerArgs * Env))
    (now : Z) : list Event * App :=
  match for_each _checkDepartureSoonTrigger app soonArgs with
  | (events1, Some _, app1) => (events1, app1)
  | (events1, None, app1) =>
      match for_each _checkDepartureDelayedTrigger app1 delayedArgs with
      | (events2, Some _, app2) => (events1 ++ events2, app2)
      | (events2, None, app2) =>
          (events1 ++ events2,
           mkApp (api app2) (_cleanupTriggeredDepartures now (triggeredDepartures app2)))
      end
  end.

(** One poll tick as the world sees it. *)
Record Tick : Type := mkTick {
  soonArgs : list (TriggerArgs * Env);
  delayedArgs : list (TriggerArgs * Env);
  clock_cleanup : Z
}.

(** The polling of [_startPolling]: the events of each tick, in order. *)
Fixpoint run (app : App) (ticks : list Tick) : list (list Event) * App :=
  match ticks with
  | [] => ([], app)
  | tick :: rest =>
      let '(events, app') := _checkTriggers app (soonArgs tick) (delayedArgs tick) (clock_cleanup tick) in
      let '(later, app'') := run app' rest in
      (events :: later, app'')
  end.

End WithHost.

(** The run listener both trigger cards register: whether a flow configured
    with [args] runs for a [trigger] call made with [state]. *)
Definition trigger_runListener (args : TriggerArgs) (state : TriggerState) : bool :=
  if negb (match station_id args with
           | Some id => String.eqb id (stationId state)
           | None => false
           end) then false
  else
    match destination_name args with
    | Some name =>
        if nonempty name && nonempty (state_destination state) then
          if negb (includes (toLowerCase (state_destination state)) (toLowerCase name))
          then false else true
        else true
    | None => true
    end.

(** The argument values of a condition or action card.  [arg_station] is
    [args.station], [None] when it is [undefined], and holds [args.station.id];
    [arg_destination_name] is [args.destination?.name]. *)
Record CardArgs : Type := mkCardArgs {
  arg_station : option (option string);
  arg_destination_name : option string;
  arg_minutes : option Z;
  arg_match_type : option string;
  arg_match_value : option string
}.

(** [args.station.id]: reading [id] off [undefined] throws.  An [id] that is
    [undefined] is passed on as the empty string, which [getDepartures]
    treats alike (both are falsy). *)
Definition station_id_of (args : CardArgs) : completion string :=
  match arg_station args with
  | None => Throw "Cannot read properties of undefined (reading 'id')"
  | Some id => Normal (default "" id)
  end.

(** The loops of the "departure within minutes" and "is delayed" cards. *)
Fixpoint within_loop (now : Z) (destinationLower : string) (minutes : option Z)
    (departures : list Departure) : bool :=
  match departures with
  | [] => false
  | dep :: rest =>
      if destination_mismatch destinationLower dep
      then within_loop now destinationLower minutes rest
      else
        let minutesUntil := getMinutesUntil now dep in
        if le (Num minutesUntil) (ToNumber minutes) then true
        else within_loop now destinationLower minutes rest
  end.

Fixpoint is_delayed_loop (destinationLower : string) (minutes : option Z)
    (departures : list Departure) : bool :=
  match departures with
  | [] => false
  | dep :: rest =>
      if destination_mismatch destinationLower dep
      then is_delayed_loop destinationLower minutes rest
      else
        if gt (delay_minutes dep) (ToNumber minutes) then true
        else is_delayed_loop destinationLower minutes rest
  end.

(** What the action card "get departure info" returns. *)
Record DepartureInfo : Type := mkDepartureInfo {
  info_line : string;
  info_destination : string;
  info_minutes_until : Z;
  info_delay_minutes : number;
  info_planned_time : string;
  info_expected_time : string;
  info_transport_type : string
}.

Definition no_departure_info : DepartureInfo :=
  mkDepartureInfo "" "" 0 (Num 0) "" "" "".

Section Listeners.

Variable host_parse : string -> Date.

(** A card's call [await this.api.getDepartures(args.station.id)], followed
    by [body] on the departures. *)
Definition with_departures {A} (app : App) (env : Env) (args : CardArgs)
    (body : list Departure -> A) : completion A * App :=
  match station_id_of args with
  | Throw message => (Throw message, app)
  | Normal station =>
      match getDepartures host_parse (api app) (clock_fetch env) (response env) station None with
      | (Throw message, api') => (Throw message, mkApp api' (triggeredDepartures app))
      | (Normal departures, api') => (Normal (body departures), mkApp api' (triggeredDepartures app))
      end
  end.

(** The run listener of the condition card "next departure is". *)
Definition nextDepartureIsCondition (app : App) (env : Env) (args : CardArgs)
    : completion bool * App :=
  with_departures app env args (fun departures =>
    match departures with
    | [] => false
    | next :: _ =>
        let matchValue := toLowerCase (str_or (arg_match_value args) "") in
        match arg_match_type args with
        | Some type =>
            if String.eqb type "line" then String.eqb (toLowerCase (line next)) matchValue
            else if String.eqb type "destination"
            then includes (toLowerCase (destination next)) matchValue
            else false
        | None => false
        end
    end).

(** The run listener of the condition card "departure within minutes". *)
Definition departureWithinCondition (app : App) (env : Env) (args : CardArgs)
    : completion bool * App :=
  with_departures app env args (fun departures =>
    let destinationLower := toLowerCase (str_or (arg_destination_name args) "") in
    within_loop (clock_eval env) destinationLower (arg_minutes args) departures).

(** The run listener of the condition card "is delayed". *)
Definition isDelayedCondition (app : App) (env : Env) (args : CardArgs)
    : completion bool * App :=
  with_departures app env args (fun departures =>
    let destinationLower := toLowerCase (str_or (arg_destination_name args) "") in
    is_delayed_loop destinationLower (arg_minutes args) departures).

(** The run listener of the action card "get departure info". *)
Definition getDepartureInfoAction (app : App) (env : Env) (args : CardArgs)
    : completion DepartureInfo * App :=
  with_departures app env args (fun departures =>
    let destinationLower := toLowerCase (str_or (arg_destination_name args) "") in
    let departure := head departures in
    let departure :=
      if nonempty destinationLower
      then List.find (fun dep => includes (toLowerCase (destination dep)) destinationLower)
                     departures
      else departure in
    match departure with
    | None => no_departure_info
    | Some departure => {|
        info_line := line departure;
        info_destination := destination departure;
        info_minutes_until := getMinutesUntil (clock_eval env) departure;
        info_delay_minutes := delay_minutes departure;
        info_planned_time := planned_time departure;
        info_expected_time := expected_time departure;
        info_transport_type := Transport_name (transport_type departure) |}
    end).

(** The listener [_registerDestinationAutocomplete] registers; [station] is
    [args.station?.id]. *)
Definition _registerDestinationAutocomplete (app : App) (env : Env)
    (query : option string) (station : option string)
    : completion (list Destination) * App :=
  match station with
  | None => (Normal [], app)
  | Some id =>
      if negb (nonempty id) then (Normal [], app)
      else
        match getDestinations host_parse (api app) (clock_fetch env) (response env) id with
        | (Throw message, api') => (Throw message, mkApp api' (triggeredDepartures app))
        | (Normal destinations, api') =>
            let app' := mkApp api' (triggeredDepartures app) in
            match query with
            | Some query =>
                if nonempty query && (0 <? Z.of_nat (String.length query)) then
                  let queryLower := toLowerCase query in
                  (Normal (List.filter
                             (fun d => includes (toLowerCase (dest_name d)) queryLower)
                             destinations), app')
                else (Normal destinations, app')
            | None => (Normal destinations, app')
            end
        end
  end.

End Listeners.

End OVApp.

(** ** Notions the statements below are phrased in *)

Module Spec.
Import JS JSDate OVApi OVApp.

(** [c] occurs in [s]. *)
Fixpoint has_char (c : ascii) (s : string) : bool :=
  match s with
  | EmptyString => false
  | String a s' => Ascii.eqb a c || has_char c s'
  end.

(** *** The daylight-saving rule, in the words of the specification

    The last Sunday of a month is the latest of its days that falls on a
    Sunday.  Daylight-saving time applies from the last Sunday of March
    (inclusive) through the day before the last Sunday of October, dates
    being compared by month and day. *)
Definition is_sunday (y m d : Z) : bool := (days_from_civil y m d + 4) mod 7 =? 0.

Definition last_sunday (y m : Z) : Z :=
  default 0 (last (List.filter (is_sunday y m) (seqZ 1 (days_in_month y m)))).

Definition date_le (a b : Z * Z) : bool :=
  (fst a <? fst b) || ((fst a =? fst b) && (snd a <=? snd b)).

Definition in_dst (f : fields) : bool :=
  date_le (3, last_sunday (f_year f) 3) (f_month f, f_day f) &&
  date_le (f_month f, f_day f) (10, last_sunday (f_year f) 10 - 1).

(** The offset of Amsterdam civil time from UTC, in minutes. *)
Definition amsterdam_offset (f : fields) : Z := if in_dst f then 120 else 60.

(** *** Departures *)

(** The planned instant that the [uid] of a raw record embeds. *)
Definition planned_instant (host_parse : string -> Date) (raw : RawPass) : Z :=
  time_or (_parseDateTime host_parse (TargetDepartureTime raw)) 0.

(** Non-decreasing by [key] along the list. *)
Definition ascending {A} (key : A -> Z) (l : list A) : Prop :=
  forall (i j : nat) (a b : A),
    l !! i = Some a -> l !! j = Some b -> (i <= j)%nat -> key a <= key b.

(** The order of a sort by [key]. *)
Definition key_le {A} (key : A -> Z) (a b : A) : Prop := key a <= key b.

(** What every departure of the canonical list satisfies. *)
Definition canonical (d : Departure) : Prop := status d <> passed /\ timestamp d <> 0.

(** The states an [OVApi] object can be in: it starts with an empty
    departures cache and changes through its methods only. *)
Inductive reachable (host_parse : string -> Date) : Api -> Prop :=
| reach_start api :
    departuresCache api = ∅ -> reachable host_parse api
| reach_getDepartures api now response stopAreaCode limit :
    reachable host_parse api ->
    reachable host_parse (getDepartures host_parse api now response stopAreaCode limit).2
| reach_getAllStopAreas api now response :
    reachable host_parse api ->
    reachable host_parse (getAllStopAreas api now response).2
| reach_searchLocations api now response query :
    reachable host_parse api ->
    reachable host_parse (searchLocations api now response query).2.

(** Every cached list is sorted and canonical. *)
Definition cache_ok (api : Api) : Prop :=
  forall key entry, departuresCache api !! key = Some entry ->
    ascending timestamp (data entry) /\ Forall canonical (data entry).

(** *** Stop search *)

(** [q] occurs in [s], letter case disregarded. *)
Definition contains_ci (s q : string) : Prop :=
  exists pre post, toLowerCase s = pre +:+ toLowerCase q +:+ post.

Definition stop_contains (q : string) (stop : RawStopArea) : Prop :=
  contains_ci (str_or (TimingPointName stop) "") q \/
  contains_ci (str_or (TimingPointTown stop) "") q \/
  contains_ci (str_or (StopAreaCode stop) "") q.

(** *** Triggers *)

Definition key_prefix (k : Kind) : string :=
  match k with Soon => "soon_" | Delayed => "delayed_" end.

(** The key a firing is recorded under. *)
Definition event_key (ev : Event) : string := key_prefix (kind ev) +:+ uid (cause ev).

Definition triggered_set (k : Kind) (app : App) : gset string :=
  match k with
  | Soon => soon (triggeredDepartures app)
  | Delayed => delayed (triggeredDepartures app)
  end.

(** The check of the card of kind [k]. *)
Definition check (k : Kind) (host_parse : string -> Date)
    : App -> Env -> TriggerArgs -> completion (list Event) * App :=
  match k with
  | Soon => _checkDepartureSoonTrigger host_parse
  | Delayed => _checkDepartureDelayedTrigger host_parse
  end.

Definition instances_of (k : Kind) (tick : Tick) : list (TriggerArgs * Env) :=
  match k with Soon => soonArgs tick | Delayed => delayedArgs tick end.

Definition Kind_eqb (a b : Kind) : bool :=
  match a, b with
  | Soon, Soon | Delayed, Delayed => true
  | _, _ => false
  end.

(** The events of kind [k] recorded under [key]. *)
Definition firings (k : Kind) (key : string) (events : list Event) : list Event :=
  List.filter (fun ev => Kind_eqb (kind ev) k && String.eqb (event_key ev) key) events.

(** A departure passes the destination filter and the threshold test of
    the "departure soon" card, respectively of the "departure delayed" card. *)
Definition soon_qualifies (now : Z) (destinationLower : string) (threshold : Z)
    (dep : Departure) : bool :=
  negb (destination_mismatch destinationLower dep) && (getMinutesUntil now dep <=? threshold).

Definition delayed_qualifies (destinationLower : string) (minDelay : Z)
    (dep : Departure) : bool :=
  negb (destination_mismatch destinationLower dep) && gt (delay_minutes dep) (Num minDelay).

(** The once-mode test: the instance is in once-mode and the key is in the
    set. *)
Definition suppressed (args : TriggerArgs) (triggered : gset string) (key : string) : bool :=
  String.eqb (trigger_mode args) "once" && bool_decide (key ∈ triggered).

(** The state of the key's bookkeeping across a step: a key that is in the
    set stays there and stops further firings; at most one firing happens,
    and it puts the key in the set. *)
Definition once_step (k : Kind) (key : string) (app : App) (events : list Event)
    (app' : App) : Prop :=
  (key ∈ triggered_set k app -> firings k key events = [] /\ key ∈ triggered_set k app') /\
  (length (firings k key events) <= 1)%nat /\
  (firings k key events <> [] -> key ∈ triggered_set k app').

(** *** Displayed times *)

(** The text [HH:MM] of a minute of the day. *)
Definition clock_text (minute_of_day : Z) : string :=
  pad2 (minute_of_day / 60) +:+ ":" +:+ pad2 (minute_of_day mod 60).

(** The minute of the day a date-time without offset is displayed as: its
    own wall clock moved back by the Amsterdam offset. *)
Definition shown_minute (f : fields) : Z :=
  (60 * f_hour f + f_minute f - amsterdam_offset f) mod 1440.

(** *** Caches *)

(** The [OVApi] object a restarted app builds: nothing in memory, over the
    settings store the previous object left. *)
Definition restarted (api : Api) : Api :=
  mkApi None 0 (settings_stopAreasCache api) (settings_stopAreasCacheTime api) ∅.

(** The departures kept from a payload for a stop area, in payload order. *)
Definition kept (host_parse : string -> Date) (payload : DeparturesPayload) (code : string)
    : list Departure :=
  collect_departures host_parse code (default [] (get_property payload code)).

(** *** Firings *)

(** The tokens a firing for [dep] carries, per card. *)
Definition tokens_of (k : Kind) (now : Z) (dep : Departure) : Tokens :=
  {| tk_line := line dep;
     tk_destination := destination dep;
     tk_minutes_until := match k with Soon => Some (getMinutesUntil now dep) | Delayed => None end;
     tk_delay_minutes := match k with Soon => None | Delayed => Some (delay_minutes dep) end;
     tk_planned_time := planned_time dep;
     tk_expected_time := expected_time dep |}.

(** The threshold test of a card on a departure. *)
Definition within_threshold (k : Kind) (now : Z) (args : TriggerArgs) (dep : Departure) : bool :=
  match k with
  | Soon => getMinutesUntil now dep <=? number_or_5 (minutes args)
  | Delayed => gt (delay_minutes dep) (Num (number_or_5 (min_delay args)))
  end.

(** What the loop of a card looks for: a departure that passes the
    destination filter and the threshold test and is not suppressed by
    once-mode. *)
Definition candidate (k : Kind) (now : Z) (args : TriggerArgs) (triggered : gset string)
    (dep : Departure) : bool :=
  negb (destination_mismatch (toLowerCase (str_or (destination_name args) "")) dep)
  && within_threshold k now args dep
  && negb (suppressed args triggered (key_prefix k +:+ uid dep)).

(** The keys of the events of kind [k]. *)
Definition fired_keys (k : Kind) (events : list Event) : list string :=
  map event_key (List.filter (fun ev => Kind_eqb (kind ev) k) events).

(** The instances of a card checked in turn, each once and in order, every
    check starting from the state the one before left: the [trigger] calls
    of each instance. *)
Inductive checked_in_turn (k : Kind) (host_parse : string -> Date)
    : App -> list (TriggerArgs * Env) -> list (list Event) -> App -> Prop :=
| checked_none app :
    checked_in_turn k host_parse app [] [] app
| checked_next app args env events app1 rest later app2 :
    check k host_parse app env args = (Normal events, app1) ->
    checked_in_turn k host_parse app1 rest later app2 ->
    checked_in_turn k host_parse app ((args, env) :: rest) (events :: later) app2.

(** *** Condition and action cards *)

(** A departure passes the destination filter of a card configured with
    [destination_name]: there is none, or the destination contains it,
    letter case disregarded. *)
Definition passes_filter (destination_name : option string) (dep : Departure) : bool :=
  negb (destination_mismatch (toLowerCase (str_or destination_name "")) dep).

(** What "get departure info" reports of a departure. *)
Definition info_of (now : Z) (dep : Departure) : DepartureInfo :=
  {| info_line := line dep;
     info_destination := destination dep;
     info_minutes_until := getMinutesUntil now dep;
     info_delay_minutes := delay_minutes dep;
     info_planned_time := planned_time dep;
     info_expected_time := expected_time dep;
     info_transport_type := Transport_name (transport_type dep) |}.


End Spec.

(** ** Concrete inputs *)

Module Sample.
Import JS JSDate OVApi OVApp.

(** A host whose [Date] rejects every string other than [YYYY-MM-DDTHH:mm:ss]. *)
Definition no_host_parse (s : string) : Date := mkDate NaN.

(** A payload with one stop and one pass at stop area 8400. *)
Definition payload_of (pass : RawPass) : DeparturesPayload :=
  [("8400", [("84001", mkRawStop (Some [("QBUZZ_1", pass)]))])].

(** A bus planned for 11:00 local time (09:00 UTC) and expected at 13:05
    (11:05 UTC): more than two hours late. *)
Definition late_pass : RawPass := {|
  TargetDepartureTime := Some "2025-06-14T11:00:00";
  ExpectedDepartureTime := Some "2025-06-14T13:05:00";
  TripStopStatus := Some "DRIVING";
  LinePublicNumber := Some "12";
  DestinationName50 := Some "Utrecht CS";
  DestinationName := None;
  TransportType := Some "BUS";
  OperatorCode := Some "QBUZZ"
|}.

Definition late_departure : Departure := {|
  line := "12";
  destination := "Utrecht CS";
  status := planned;
  planned_time := "09:00";
  expected_time := "11:05";
  delay_minutes := Num 125;
  transport_type := bus;
  operator := "QBUZZ";
  timestamp := 1749899100000;
  uid := "8400_12_Utrecht CS_1749891600000"
|}.

(** The same bus with a planned time that does not parse, expected at 13:31
    local time (11:31 UTC). *)
Definition unplanned_pass : RawPass := {|
  TargetDepartureTime := Some "unknown";
  ExpectedDepartureTime := Some "2025-06-14T13:31:00";
  TripStopStatus := Some "DRIVING";
  LinePublicNumber := Some "12";
  DestinationName50 := Some "Utrecht CS";
  DestinationName := None;
  TransportType := Some "BUS";
  OperatorCode := Some "QBUZZ"
|}.

Definition unplanned_departure : Departure := {|
  line := "12";
  destination := "Utrecht CS";
  status := planned;
  planned_time := "Invalid Date";
  expected_time := "11:31";
  delay_minutes := NaN;
  transport_type := bus;
  operator := "QBUZZ";
  timestamp := 1749900660000;
  uid := "8400_12_Utrecht CS_0"
|}.

(** A bus planned for 13:28 local time and expected at 13:31 (11:31 UTC):
    three minutes late. *)
Definition near_pass : RawPass := {|
  TargetDepartureTime := Some "2025-06-14T13:28:00";
  ExpectedDepartureTime := Some "2025-06-14T13:31:00";
  TripStopStatus := Some "DRIVING";
  LinePublicNumber := Some "12";
  DestinationName50 := Some "Utrecht CS";
  DestinationName := None;
  TransportType := Some "BUS";
  OperatorCode := Some "QBUZZ"
|}.

(** Instances at stop area 8400 without destination filter: in once-mode
    with default thresholds, in always-mode with default thresholds, and
    with both thresholds configured as 0. *)
Definition once_args : TriggerArgs := mkArgs (Some "8400") None None None "once".
Definition always_args : TriggerArgs := mkArgs (Some "8400") None None None "always".
Definition zero_args : TriggerArgs := mkArgs (Some "8400") None (Some 0) (Some 0) "always".

(** The world at clock reading [now], with [pass] on the board. *)
Definition env_at (now : Z) (pass : RawPass) : Env :=
  mkEnv now (Resolved (Some (payload_of pass))) now.

(** A poll tick at [now] with one instance of each card, both configured
    with [args], and [pass] on the board. *)
Definition tick_with (args : TriggerArgs) (now : Z) (pass : RawPass) : Tick :=
  mkTick [(args, env_at now pass)] [(args, env_at now pass)] now.

(** Two consecutive once-mode ticks with the late bus, at 11:01:00 and
    11:01:30 UTC; three consecutive ticks with the bus that is three minutes
    late, at 11:28:00, 11:28:30 and 11:29:00 UTC. *)
Definition late_polls : list Tick :=
  [tick_with once_args 1749898860000 late_pass; tick_with once_args 1749898890000 late_pass].

Definition near_polls (args : TriggerArgs) : list Tick :=
  [tick_with args 1749900480000 near_pass; tick_with args 1749900510000 near_pass;
   tick_with args 1749900540000 near_pass].

(** The event the "departure soon" card fires for the late bus at 11:01:00. *)
Definition late_soon_event : Event := {|
  kind := Soon;
  cause := late_departure;
  tokens := {| tk_line := "12"; tk_destination := "Utrecht CS";
               tk_minutes_until := Some 4; tk_delay_minutes := None;
               tk_planned_time := "09:00"; tk_expected_time := "11:05" |};
  state := {| stationId := "8400"; state_destination := "Utrecht CS" |}
|}.

(** A stop directory in which fifteen Amstelveen stops precede Amsterdam
    Centraal. *)
Definition amsterdam_centraal : RawStopArea :=
  mkRawStopArea (Some "Amsterdam Centraal") (Some "Amsterdam") (Some "asd").

Definition amstelveen (i : Z) : RawStopArea :=
  mkRawStopArea (Some "Amstelveen, Busstation") (Some "Amstelveen") (Some ("avn" +:+ Z_toString i)).

Definition crowded_directory : StopAreasPayload :=
  map (fun i => ("avn" +:+ Z_toString i, amstelveen i)) (seqZ 1 15)
  ++ [("asd", amsterdam_centraal)].

(** A board at stop area 8400 with four passes at two stops, in this payload
    order: line 12 to Utrecht CS planned 13:28 and expected 13:31 local
    time; the previous line 12, which has passed; line 3 to Amersfoort on
    time at 13:29; a later line 12 planned 13:40 and expected 13:50. *)
Definition pass_of (target expected status number towards : string) : RawPass :=
  mkRawPass (Some target) (Some expected) (Some status) (Some number)
            (Some towards) None (Some "BUS") (Some "QBUZZ").

Definition busy_payload : DeparturesPayload :=
  [("8400",
    [("84001", mkRawStop (Some
        [("QBUZZ_1", pass_of "2025-06-14T13:28:00" "2025-06-14T13:31:00" "DRIVING" "12" "Utrecht CS");
         ("QBUZZ_2", pass_of "2025-06-14T13:00:00" "2025-06-14T13:01:00" "PASSED" "12" "Utrecht CS")]));
     ("84002", mkRawStop (Some
        [("QBUZZ_3", pass_of "2025-06-14T13:29:00" "2025-06-14T13:29:00" "PLANNED" "3" "Amersfoort");
         ("QBUZZ_4", pass_of "2025-06-14T13:40:00" "2025-06-14T13:50:00" "PLANNED" "12" "Utrecht CS")]))])].

Definition to_amersfoort : Departure :=
  mkDeparture "3" "Amersfoort" planned "11:29" "11:29" (Num 0) bus "QBUZZ"
              1749900540000 "8400_3_Amersfoort_1749900540000".

Definition to_utrecht : Departure :=
  mkDeparture "12" "Utrecht CS" planned "11:28" "11:31" (Num 3) bus "QBUZZ"
              1749900660000 "8400_12_Utrecht CS_1749900480000".

Definition to_utrecht_later : Departure :=
  mkDeparture "12" "Utrecht CS" planned "11:40" "11:50" (Num 10) bus "QBUZZ"
              1749901800000 "8400_12_Utrecht CS_1749901200000".

(** The board as [getDepartures] returns it. *)
Definition busy_board : list Departure := [to_amersfoort; to_utrecht; to_utrecht_later].

(** The world at 11:28:00 UTC with the busy board. *)
Definition busy_env : Env := mkEnv 1749900480000 (Resolved (Some busy_payload)) 1749900480000.

(** The client after it has fetched the busy board at 11:28:00 UTC. *)
Definition busy_api : Api :=
  (getDepartures no_host_parse new_OVApi 1749900480000 (Resolved (Some busy_payload))
     "8400" None).2.

(** Card arguments at stop area 8400. *)
Definition card_args (filter : option string) (threshold : option Z)
    (match_type match_value : option string) : CardArgs :=
  mkCardArgs (Some (Some "8400")) filter threshold match_type match_value.

(** The previous line 12, which has passed, and a pass without a planned
    time whose expected time does not parse. *)
Definition passed_pass : RawPass :=
  pass_of "2025-06-14T13:00:00" "2025-06-14T13:01:00" "PASSED" "12" "Utrecht CS".

Definition untimed_pass : RawPass :=
  mkRawPass None (Some "unknown") (Some "DRIVING") (Some "5") (Some "Zeist") None
            (Some "BUS") (Some "QBUZZ").

(** A board at stop area 8400 with the bus that is three minutes late
    between those two. *)
Definition mixed_payload : DeparturesPayload :=
  [("8400",
    [("84001", mkRawStop (Some
        [("QBUZZ_2", passed_pass); ("QBUZZ_1", near_pass); ("QBUZZ_5", untimed_pass)]))])].

End Sample.

(** * Properties *)

Import JS JSDate OVApi OVApp Spec Sample.

(** ** Strings *)

Section Strings.

Lemma append_cons (c : ascii) (a b : string) : String c a +:+ b = String c (a +:+ b).
Proof. reflexivity. Qed.

Lemma append_assoc (a b c : string) : (a +:+ b) +:+ c = a +:+ (b +:+ c).
Proof.
  induction a as [|x a IH]; [done|].
  rewrite !append_cons. by rewrite IH.
Qed.

Lemma toLowerCase_length s : String.length (toLowerCase s) = String.length s.
Proof. induction s; simpl; congruence. Qed.

Lemma startsWith_app p t : startsWith p (p +:+ t) = true.
Proof.
  induction p as [|c p IH]; [done|].
  rewrite append_cons. simpl. by rewrite Ascii.eqb_refl.
Qed.

Lemma startsWith_spec p s : startsWith p s = true <-> exists t, s = p +:+ t.
Proof.
  split.
  - revert s. induction p as [|c p IH]; intros s H.
    + by exists s.
    + destruct s as [|b s]; [done|]. simpl in H.
      apply andb_true_iff in H as [Hc Hp]. apply Ascii.eqb_eq in Hc as ->.
      destruct (IH _ Hp) as [t ->]. by exists t.
  - intros [t ->]. apply startsWith_app.
Qed.

Lemma includes_unfold s sub :
  includes s sub =
  startsWith sub s || match s with EmptyString => false | String _ s' => includes s' sub end.
Proof. by destruct s. Qed.

(** [includes] is the substring test. *)
Lemma includes_spec s sub :
  includes s sub = true <-> exists pre post, s = pre +:+ sub +:+ post.
Proof.
  split.
  - induction s as [|c s IH]; rewrite includes_unfold; intros H.
    + rewrite orb_false_r in H. apply startsWith_spec in H as [t Ht]. by exists EmptyString, t.
    + apply orb_true_iff in H as [H|H].
      * apply startsWith_spec in H as [t Ht]. by exists EmptyString, t.
      * destruct (IH H) as (pre & post & ->). by exists (String c pre), post.
  - intros (pre & post & ->). induction pre as [|c pre IH].
    + rewrite includes_unfold. change ("" +:+ sub +:+ post) with (sub +:+ post).
      by rewrite startsWith_app.
    + rewrite append_cons, includes_unfold, IH. apply orb_true_r.
Qed.

Lemma split_no_sep sep s : has_char sep s = false -> split sep s = [s].
Proof.
  induction s as [|c s IH]; simpl; [done|]. intros H.
  apply orb_false_iff in H as [Hc Hs]. by rewrite Hc, (IH Hs).
Qed.

Lemma split_nonempty sep s : split sep s <> [].
Proof.
  induction s as [|c s IH]; simpl; [done|].
  destruct (Ascii.eqb c sep); [done|]. by destruct (split sep s).
Qed.

Lemma last_cons_nonempty {A} (x : A) l d : l <> [] -> List.last (x :: l) d = List.last l d.
Proof. by destruct l. Qed.

Lemma split_cons_last sep c s :
  List.last (split sep (String c s)) EmptyString =
  if Ascii.eqb c sep then List.last (split sep s) EmptyString
  else match split sep s with
       | [h] => String c h
       | _ => List.last (split sep s) EmptyString
       end.
Proof.
  pose proof (split_nonempty sep s) as Hne. simpl.
  destruct (Ascii.eqb c sep); [by apply last_cons_nonempty|].
  destruct (split sep s) as [|h [|h' t]]; done.
Qed.

Lemma split_app_sep_length sep a b :
  (2 <= length (split sep (a +:+ String sep b)))%nat.
Proof.
  induction a as [|c a IH].
  - change ("" +:+ String sep b) with (String sep b). simpl. rewrite Ascii.eqb_refl.
    pose proof (split_nonempty sep b). destruct (split sep b); [done|simpl; lia].
  - rewrite append_cons. simpl. destruct (Ascii.eqb c sep); [simpl; lia|].
    destruct (split sep (a +:+ String sep b)); simpl in *; lia.
Qed.

(** The last part of [a_b] is [b], when [b] holds no separator. *)
Lemma last_part_split_app sep a b :
  has_char sep b = false ->
  last_part (split sep (a +:+ String sep b)) = b.
Proof.
  intros Hb. unfold last_part. induction a as [|c a IH].
  - change ("" +:+ String sep b) with (String sep b).
    rewrite split_cons_last, Ascii.eqb_refl. by rewrite split_no_sep.
  - rewrite append_cons, split_cons_last.
    destruct (Ascii.eqb c sep); [done|].
    pose proof (split_app_sep_length sep a b) as Hlen.
    destruct (split sep (a +:+ String sep b)) as [|h [|h' t]]; [done|simpl in Hlen; lia|done].
Qed.

End Strings.

(** ** Decimal numerals *)

Section Numerals.

Lemma digit_not_char c (a : ascii) :
  is_digit c = true -> is_digit a = false -> Ascii.eqb c a = false.
Proof. intros Hc Ha. destruct (Ascii.eqb_spec c a) as [->|]; congruence. Qed.

Lemma char_not_digit c (a : ascii) :
  is_digit c = true -> is_digit a = false -> Ascii.eqb a c = false.
Proof. intros Hc Ha. destruct (Ascii.eqb_spec a c) as [->|]; congruence. Qed.

Lemma digit_not_space c : is_digit c = true -> is_space c = false.
Proof.
  unfold is_digit, is_space. intros H. apply andb_true_iff in H as [H1 H2].
  apply Nat.leb_le in H1, H2.
  apply orb_false_iff; split; [apply Nat.eqb_neq; lia|].
  apply andb_false_iff; right. apply Nat.leb_gt. lia.
Qed.

Lemma digit_value_bounds c : is_digit c = true -> 0 <= digit_value c <= 9.
Proof.
  unfold is_digit, digit_value. intros H. apply andb_true_iff in H as [H1 H2].
  apply Nat.leb_le in H1, H2. lia.
Qed.

Lemma two_digits_bounds a b :
  is_digit a = true -> is_digit b = true -> 0 <= two_digits a b <= 99.
Proof.
  intros Ha Hb. pose proof (digit_value_bounds a Ha). pose proof (digit_value_bounds b Hb).
  unfold two_digits. lia.
Qed.

Lemma read_digits_pos d a :
  read_digits (Some (Z.pos a)) (NilEmpty.string_of_uint d) = Some (Z.pos (Pos.of_uint_acc d a)).
Proof.
  revert a. induction d; intros a; simpl; [done|..];
    rewrite <- IHd; f_equal; f_equal;
    match goal with
    | |- context [digit_value ?c] =>
        let v := eval vm_compute in (digit_value c) in change (digit_value c) with v
    end; lia.
Qed.

Lemma read_digits_zero d :
  read_digits (Some 0) (NilEmpty.string_of_uint d) = Some (Z.of_N (Pos.of_uint d)).
Proof. induction d; simpl; [done|exact IHd|..]; apply read_digits_pos. Qed.

Lemma read_digits_start d :
  d <> Decimal.Nil ->
  read_digits None (NilEmpty.string_of_uint d) = Some (Z.of_N (Pos.of_uint d)).
Proof. intros Hd. rewrite <- read_digits_zero. by destruct d. Qed.

Lemma string_of_uint_head d :
  d <> Decimal.Nil ->
  exists c s, NilEmpty.string_of_uint d = String c s /\ is_digit c = true.
Proof. destruct d; [done|..]; intros _; eexists _, _; split; done. Qed.

Lemma parseInt_digits d :
  d <> Decimal.Nil ->
  parseInt (NilEmpty.string_of_uint d) = Num (Z.of_N (Pos.of_uint d)).
Proof.
  intros Hd. unfold parseInt.
  destruct (string_of_uint_head d Hd) as (c & s & E & Hc).
  assert (skip_space (NilEmpty.string_of_uint d) = NilEmpty.string_of_uint d) as ->.
  { rewrite E. simpl. by rewrite digit_not_space. }
  rewrite E, !(digit_not_char c) by done. rewrite <- E.
  rewrite read_digits_start by done. f_equal. lia.
Qed.

Lemma NilZero_string_of_uint_pos p :
  NilZero.string_of_uint (Pos.to_uint p) = NilEmpty.string_of_uint (Pos.to_uint p).
Proof.
  pose proof (Unsigned.to_uint_nonnil p).
  unfold NilZero.string_of_uint. by destruct (Pos.to_uint p).
Qed.

(** [parseInt] reads back what interpolation printed. *)
Lemma parseInt_Z_toString z : parseInt (Z_toString z) = Num z.
Proof.
  unfold Z_toString. destruct z as [|p|p]; simpl; [done|..];
    pose proof (Unsigned.to_uint_nonnil p) as Hp; rewrite NilZero_string_of_uint_pos.
  - rewrite parseInt_digits, Unsigned.of_to by done. done.
  - unfold parseInt. simpl. rewrite read_digits_start, Unsigned.of_to by done. done.
Qed.

Lemma string_of_uint_no_char (a : ascii) d :
  is_digit a = false -> has_char a (NilEmpty.string_of_uint d) = false.
Proof.
  intros Ha. induction d; cbn [NilEmpty.string_of_uint has_char]; [done|..];
    rewrite IHd, orb_false_r; apply digit_not_char; done.
Qed.

Lemma Z_toString_no_underscore z : has_char "_" (Z_toString z) = false.
Proof.
  unfold Z_toString. destruct z as [|p|p]; simpl; [done|..];
    rewrite NilZero_string_of_uint_pos; apply string_of_uint_no_char; done.
Qed.

End Numerals.

(** ** The calendar behind [Date] *)

Section Calendar.

Lemma days_in_month_le_31 y m : days_in_month y m <= 31.
Proof. unfold days_in_month. repeat case_match; lia. Qed.

Lemma is_leap_true y :
  is_leap y = true <-> y mod 4 = 0 /\ (y mod 100 <> 0 \/ y mod 400 = 0).
Proof.
  unfold is_leap. rewrite andb_true_iff, orb_true_iff, negb_true_iff.
  rewrite !Z.eqb_eq, Z.eqb_neq. done.
Qed.

(** Within a 400-year era, the year of the era is recovered from the day of
    the era. *)
Lemma year_of_era_roundtrip yoe doy :
  0 <= yoe <= 399 -> 0 <= doy ->
  doy < 365 + (yoe + 1) / 4 - yoe / 4 - (yoe + 1) / 100 + yoe / 100 + (yoe + 1) / 400 ->
  let doe := yoe * 365 + yoe / 4 - yoe / 100 + doy in
  0 <= doe <= 146096 /\
  (doe - doe / 1460 + doe / 36524 - doe / 146096) / 365 = yoe.
Proof.
  intros Hy Hd Hlen doe. subst doe. Z.div_mod_to_equations; lia.
Qed.

(** Within a year that starts in March, the month is recovered from the day
    of the year. *)
Lemma month_roundtrip mp d :
  0 <= mp <= 11 -> 1 <= d ->
  d <= (153 * (mp + 1) + 2) / 5 - (153 * mp + 2) / 5 ->
  let doy := (153 * mp + 2) / 5 + d - 1 in
  (5 * doy + 2) / 153 = mp.
Proof.
  intros Hm Hd Hlen doy. subst doy. Z.div_mod_to_equations; lia.
Qed.

(** A calendar day lies inside its March-based month and year. *)
Lemma civil_day_in_range y m d :
  1 <= m <= 12 -> 1 <= d <= days_in_month y m ->
  let y' := if m <=? 2 then y - 1 else y in
  let yoe := y' - y' / 400 * 400 in
  let mp := if m <=? 2 then m + 9 else m - 3 in
  0 <= yoe <= 399 /\ 0 <= mp <= 11 /\
  d <= (153 * (mp + 1) + 2) / 5 - (153 * mp + 2) / 5 /\
  (153 * mp + 2) / 5 + d - 1
    < 365 + (yoe + 1) / 4 - yoe / 4 - (yoe + 1) / 100 + yoe / 100 + (yoe + 1) / 400.
Proof.
  intros Hm Hd. cbv zeta. unfold days_in_month in Hd.
  assert (Hleap : is_leap y = false \/ (y mod 4 = 0 /\ (y mod 100 <> 0 \/ y mod 400 = 0))).
  { destruct (is_leap y) eqn:E; [right; by apply is_leap_true|by left]. }
  assert (Hfeb : m = 2 -> d <= 28 \/ (y mod 4 = 0 /\ (y mod 100 <> 0 \/ y mod 400 = 0))).
  { intros ->. destruct Hleap as [E|E]; [left|by right]. rewrite E in Hd. simpl in Hd. lia. }
  clear Hleap.
  assert (Hc : m = 1 \/ m = 2 \/ m = 3 \/ m = 4 \/ m = 5 \/ m = 6 \/ m = 7 \/ m = 8
               \/ m = 9 \/ m = 10 \/ m = 11 \/ m = 12) by lia.
  destruct Hc as [->|[->|[->|[->|[->|[->|[->|[->|[->|[->|[->| ->]]]]]]]]]]];
    first [specialize (Hfeb eq_refl) | clear Hfeb];
    cbn in Hd |- *; try (destruct (is_leap y); cbn in Hd);
    Z.div_mod_to_equations; lia.
Qed.

(** Year, month and day are recovered from the day number. *)
Lemma civil_roundtrip y m d :
  1 <= m <= 12 -> 1 <= d <= days_in_month y m ->
  civil_from_days (days_from_civil y m d) = (y, m, d).
Proof.
  intros Hm Hd.
  destruct (civil_day_in_range y m d Hm Hd) as (Hyoe & Hmp & Hmlen & Hylen).
  unfold days_from_civil, civil_from_days. cbv zeta.
  set (y' := if m <=? 2 then y - 1 else y) in *.
  set (era := y' / 400) in *.
  set (yoe := y' - era * 400) in *.
  set (mp := if m <=? 2 then m + 9 else m - 3) in *.
  set (doy := (153 * mp + 2) / 5 + d - 1) in *.
  destruct (year_of_era_roundtrip yoe doy Hyoe
              ltac:(subst doy; Z.div_mod_to_equations; lia) Hylen) as [Hdoe Hyear].
  set (doe := yoe * 365 + yoe / 4 - yoe / 100 + doy) in *.
  replace (era * 146097 + doe - 719468 + 719468) with (era * 146097 + doe) by lia.
  rewrite Z.div_add_l, (Z.div_small doe 146097), Z.add_0_r by lia.
  replace (era * 146097 + doe - era * 146097) with doe by lia.
  rewrite Hyear.
  replace (doe - (365 * yoe + yoe / 4 - yoe / 100)) with doy by (subst doe; lia).
  pose proof (month_roundtrip mp d Hmp ltac:(lia) Hmlen) as Hmonth.
  cbv zeta in Hmonth. fold doy in Hmonth. rewrite Hmonth.
  replace (doy - (153 * mp + 2) / 5 + 1) with d by (subst doy; lia).
  subst mp y' yoe.
  destruct (m <=? 2) eqn:E; [apply Z.leb_le in E|apply Z.leb_gt in E].
  - destruct (m + 9 <? 10) eqn:E1; [apply Z.ltb_lt in E1; lia|].
    replace (m + 9 - 9) with m by lia. rewrite (proj2 (Z.leb_le m 2) E).
    f_equal. f_equal. lia.
  - destruct (m - 3 <? 10) eqn:E1; [|apply Z.ltb_ge in E1; lia].
    replace (m - 3 + 3) with m by lia. rewrite (proj2 (Z.leb_gt m 2) E).
    f_equal. f_equal. lia.
Qed.

Lemma days_from_civil_day y m d :
  days_from_civil y m d = days_from_civil y m 31 - (31 - d).
Proof. unfold days_from_civil. cbv zeta. lia. Qed.

Lemma days_from_civil_bounds y m d :
  0 <= y <= 9999 -> 1 <= m <= 12 -> 1 <= d <= 31 ->
  -719528 <= days_from_civil y m d <= 2932896.
Proof.
  intros Hy Hm Hd. unfold days_from_civil. cbv zeta.
  destruct (m <=? 2) eqn:E; Z.div_mod_to_equations; lia.
Qed.

Lemma is_sunday_from_31 y m d :
  is_sunday y m d = (((days_from_civil y m 31 + 4) mod 7 + d + 4) mod 7 =? 0).
Proof.
  unfold is_sunday. rewrite (days_from_civil_day y m d).
  f_equal. Z.div_mod_to_equations. lia.
Qed.

(** In a month of 31 days the last Sunday is 31 minus the weekday of the
    31st, which is how [_getAmsterdamOffset] computes it. *)
Lemma last_sunday_31 y m :
  days_in_month y m = 31 ->
  last_sunday y m = 31 - (days_from_civil y m 31 + 4) mod 7.
Proof.
  intros E. unfold last_sunday. rewrite E.
  rewrite (List.filter_ext _ _ (is_sunday_from_31 y m)).
  pose proof (Z.mod_pos_bound (days_from_civil y m 31 + 4) 7 ltac:(lia)) as Hw.
  set (w := (days_from_civil y m 31 + 4) mod 7) in *.
  assert (Hc : w = 0 \/ w = 1 \/ w = 2 \/ w = 3 \/ w = 4 \/ w = 5 \/ w = 6) by lia.
  destruct Hc as [->|[->|[->|[->|[->|[->| ->]]]]]]; vm_compute; reflexivity.
Qed.

(** [last_sunday] is a Sunday, and no later day of the month is one. *)
Lemma last_sunday_is_last y m :
  days_in_month y m = 31 ->
  25 <= last_sunday y m <= 31 /\
  is_sunday y m (last_sunday y m) = true /\
  (forall d, last_sunday y m < d <= 31 -> is_sunday y m d = false).
Proof.
  intros E. rewrite (last_sunday_31 y m E).
  pose proof (Z.mod_pos_bound (days_from_civil y m 31 + 4) 7 ltac:(lia)) as Hw.
  split; [lia|]. split.
  - rewrite is_sunday_from_31. apply Z.eqb_eq. Z.div_mod_to_equations; lia.
  - intros d Hd. rewrite is_sunday_from_31. apply Z.eqb_neq. Z.div_mod_to_equations; lia.
Qed.

Lemma Day_MakeDate day t : 0 <= t < msPerDay -> Day (MakeDate day t) = day.
Proof.
  intros Ht. unfold Day, MakeDate, msPerDay in *.
  rewrite Z.div_add_l by lia. rewrite Z.div_small by lia. lia.
Qed.

Lemma MakeDay_civil y m d : 1 <= m <= 12 -> MakeDay y (m - 1) d = days_from_civil y m d.
Proof.
  intros Hm. unfold MakeDay.
  rewrite (Z.div_small (m - 1) 12), (Z.mod_small (m - 1) 12) by lia.
  rewrite Z.add_0_r, (days_from_civil_day y (m - 1 + 1) 1), (days_from_civil_day y m d).
  replace (m - 1 + 1) with m by lia. lia.
Qed.

Lemma MakeTime_bounds h m s :
  0 <= h <= 23 -> 0 <= m <= 59 -> 0 <= s <= 59 -> 0 <= MakeTime h m s 0 < msPerDay.
Proof. unfold MakeTime, msPerDay. lia. Qed.

Lemma TimeClip_small z : Z.abs z <= 8640000000000000 -> TimeClip (Num z) = Num z.
Proof. intros H. unfold TimeClip. by rewrite (proj2 (Z.leb_le _ _) H). Qed.

Lemma valid_fields_inv f :
  valid_fields f = true ->
  1 <= f_month f <= 12 /\ 1 <= f_day f <= days_in_month (f_year f) (f_month f) /\
  0 <= f_hour f <= 23 /\ 0 <= f_minute f <= 59 /\ 0 <= f_second f <= 59.
Proof.
  unfold valid_fields. intros H.
  repeat (apply andb_true_iff in H as [H ?]). lia.
Qed.

Lemma Day_utc_ms f :
  valid_fields f = true -> Day (utc_ms f) = days_from_civil (f_year f) (f_month f) (f_day f).
Proof.
  intros Hv. apply valid_fields_inv in Hv as (Hm & Hd & Hh & Hn & Hs).
  unfold utc_ms. rewrite Day_MakeDate by (by apply MakeTime_bounds).
  by apply MakeDay_civil.
Qed.

Lemma utc_ms_bounds f :
  valid_fields f = true -> 0 <= f_year f <= 9999 ->
  -62167219200000 <= utc_ms f <= 253402300799000.
Proof.
  intros Hv Hy. pose proof (valid_fields_inv f Hv) as (Hm & Hd & Hh & Hn & Hs).
  pose proof (days_in_month_le_31 (f_year f) (f_month f)).
  unfold utc_ms. rewrite MakeDay_civil by done.
  pose proof (days_from_civil_bounds (f_year f) (f_month f) (f_day f) Hy Hm ltac:(lia)).
  pose proof (MakeTime_bounds _ _ _ Hh Hn Hs).
  unfold MakeDate, MakeTime, msPerDay in *. lia.
Qed.

(** The getters read the fields back. *)
Lemma getters_utc_ms f :
  valid_fields f = true ->
  getFullYear (mkDate (Num (utc_ms f))) = Num (f_year f) /\
  getMonth (mkDate (Num (utc_ms f))) = Num (f_month f - 1) /\
  getDate (mkDate (Num (utc_ms f))) = Num (f_day f).
Proof.
  intros Hv. pose proof (valid_fields_inv f Hv) as (Hm & Hd & _).
  unfold getFullYear, getMonth, getDate, on_time. cbn [getTime].
  rewrite (Day_utc_ms f Hv), civil_roundtrip by done. done.
Qed.

Lemma MakeDay_last_of_month y :
  MakeDay y 2 31 = days_from_civil y 3 31 /\ MakeDay y 9 31 = days_from_civil y 10 31.
Proof.
  unfold MakeDay. change (2 / 12) with 0. change (9 / 12) with 0.
  change (2 mod 12 + 1) with 3. change (9 mod 12 + 1) with 10.
  rewrite Z.add_0_r, (days_from_civil_day y 3 1), (days_from_civil_day y 10 1). lia.
Qed.

Lemma getDay_last_of_month y :
  100 <= y <= 9999 ->
  getDay (Date_of_components (Num y) 2 31) = Num ((days_from_civil y 3 31 + 4) mod 7) /\
  getDay (Date_of_components (Num y) 9 31) = Num ((days_from_civil y 10 31 + 4) mod 7).
Proof.
  intros Hy. unfold Date_of_components.
  assert ((0 <=? y) && (y <=? 99) = false) as ->.
  { apply andb_false_iff. right. apply Z.leb_gt. lia. }
  destruct (MakeDay_last_of_month y) as [-> ->].
  pose proof (days_from_civil_bounds y 3 31 ltac:(lia) ltac:(lia) ltac:(lia)).
  pose proof (days_from_civil_bounds y 10 31 ltac:(lia) ltac:(lia) ltac:(lia)).
  unfold Date_of_number.
  rewrite !TimeClip_small by (unfold MakeDate, MakeTime, msPerDay; lia).
  unfold getDay, on_time, WeekDay. cbn [getTime].
  rewrite !Day_MakeDate by (unfold MakeTime, msPerDay; lia). done.
Qed.

End Calendar.

(** ** The time normalizer: [_parseDateTime] and [_getAmsterdamOffset] *)

Section TimeNormalizer.

Variable host : string -> Date.

(** A string of the shape [YYYY-MM-DDTHH:mm:ss] carries none of the zone
    markers [_parseDateTime] looks for, and its year has four digits. *)
Lemma naive_iso_fields_inv s f :
  naive_iso_fields s = Some f ->
  includes s "Z" = false /\ includes s "+" = false /\ test_hms_minus s = false /\
  nonempty s = true /\ 0 <= f_year f <= 9999.
Proof.
  unfold naive_iso_fields. intros H.
  rewrite <- (string_of_list_ascii_of_string s).
  destruct (list_ascii_of_string s) as
    [|y1 [|y2 [|y3 [|y4 [|s1 [|m1 [|m2 [|s2 [|d1 [|d2 [|t [|h1 [|h2 [|c1 [|n1 [|n2 [|c2 [|e1 [|e2 [|? ?]]]]]]]]]]]]]]]]]]]];
    try discriminate H.
  destruct (_ && _) eqn:E in H; [|done]. injection H as <-.
  do 5 (apply andb_true_iff in E as [E ?]).
  cbn [forallb] in E. do 14 (apply andb_true_iff in E as [? E]).
  repeat match goal with H : Ascii.eqb _ _ = true |- _ => apply Ascii.eqb_eq in H; subst end.
  cbn [string_of_list_ascii includes startsWith test_hms_minus hms_minus_here nonempty f_year].
  repeat match goal with
  | H : is_digit ?c = true |- context [is_digit ?c] => rewrite H
  | H : is_digit ?c = true |- context [Ascii.eqb ?c ?a] =>
      rewrite (digit_not_char c a H eq_refl)
  | H : is_digit ?c = true |- context [Ascii.eqb ?a ?c] =>
      rewrite (char_not_digit c a H eq_refl)
  end.
  repeat split; try reflexivity.
  all: pose proof (two_digits_bounds y1 y2 ltac:(done) ltac:(done));
       pose proof (two_digits_bounds y3 y4 ltac:(done) ltac:(done)); lia.
Qed.

(** From year 100 on, the offset the code computes is the one of the rule. *)
Lemma _getAmsterdamOffset_utc_ms f :
  valid_fields f = true -> 100 <= f_year f <= 9999 ->
  _getAmsterdamOffset (mkDate (Num (utc_ms f))) = amsterdam_offset f.
Proof.
  intros Hv Hy. pose proof (valid_fields_inv f Hv) as (Hm & Hd & _).
  destruct (getters_utc_ms f Hv) as (Ey & Em & Ed).
  destruct (getDay_last_of_month (f_year f) Hy) as (E3 & E10).
  unfold _getAmsterdamOffset. rewrite Ey, Em, Ed, E3, E10.
  unfold amsterdam_offset, in_dst.
  rewrite !last_sunday_31 by done.
  pose proof (Z.mod_pos_bound (days_from_civil (f_year f) 3 31 + 4) 7 ltac:(lia)).
  pose proof (Z.mod_pos_bound (days_from_civil (f_year f) 10 31 + 4) 7 ltac:(lia)).
  set (w3 := (days_from_civil (f_year f) 3 31 + 4) mod 7) in *.
  set (w10 := (days_from_civil (f_year f) 10 31 + 4) mod 7) in *.
  unfold date_le, gt, lt, ge, le, strict_eq, sub. simpl fst. simpl snd.
  match goal with
  | |- (if ?a then _ else _) = (if ?b then _ else _) => replace a with b; [done|]
  end.
  apply eq_true_iff_eq.
  rewrite !orb_true_iff, !andb_true_iff, !orb_true_iff, !andb_true_iff.
  rewrite !Z.ltb_lt, !Z.leb_le, !Z.eqb_eq. lia.
Qed.

Lemma amsterdam_offset_cases f : amsterdam_offset f = 120 \/ amsterdam_offset f = 60.
Proof. unfold amsterdam_offset. destruct (in_dst f); auto. Qed.

Lemma _parseDateTime_naive s f :
  naive_iso_fields s = Some f -> valid_fields f = true -> 100 <= f_year f ->
  _parseDateTime host (Some s) = Some (mkDate (Num (utc_ms f - amsterdam_offset f * 60000))).
Proof.
  intros Hs Hv Hy.
  destruct (naive_iso_fields_inv s f Hs) as (HZ & Hplus & Hre & Hne & Hy').
  pose proof (utc_ms_bounds f Hv Hy') as Hb.
  assert (Date_of_string host s = mkDate (Num (utc_ms f))) as Hdate.
  { unfold Date_of_string, Date_of_number. rewrite Hs, Hv, TimeClip_small by lia. done. }
  unfold _parseDateTime. rewrite Hne, HZ, Hplus, Hre, Hdate. cbn [negb andb].
  rewrite _getAmsterdamOffset_utc_ms by (done || lia).
  cbn [getTime sub]. unfold Date_of_number.
  destruct (amsterdam_offset_cases f) as [-> | ->]; rewrite TimeClip_small by lia;
    do 3 f_equal; lia.
Qed.

(** C2.  A timestamp [YYYY-MM-DDTHH:mm:ss] (no offset) of a calendar date
    from year 100 on normalizes to the instant whose UTC wall clock shows
    its fields, minus 120 minutes when the date, compared by month and day,
    lies from the last Sunday of March through the day before the last
    Sunday of October, and minus 60 minutes otherwise.  In particular
    "2025-06-14T13:31:00" normalizes to 2025-06-14T11:31:00Z. *)
Theorem parseDateTime_amsterdam_wall_clock :
  (forall s f,
     naive_iso_fields s = Some f -> valid_fields f = true -> 100 <= f_year f ->
     _parseDateTime host (Some s)
     = Some (mkDate (Num (utc_ms f - (if in_dst f then 120 else 60) * 60000)))) /\
  _parseDateTime host (Some "2025-06-14T13:31:00")
  = Some (mkDate (Num (utc_ms (mkFields 2025 6 14 11 31 0)))).
Proof.
  split.
  - intros s f Hs Hv Hy. by rewrite (_parseDateTime_naive s f Hs Hv Hy).
  - rewrite (_parseDateTime_naive _ (mkFields 2025 6 14 13 31 0)); [|done|done|simpl; lia].
    vm_compute. reflexivity.
Qed.

End TimeNormalizer.

(** A winter timestamp: 13:31 on 14 December 2025 is 12:31 UTC. *)
Lemma parseDateTime_winter_witness :
  _parseDateTime no_host_parse (Some "2025-12-14T13:31:00")
  = Some (mkDate (Num (utc_ms (mkFields 2025 12 14 13 31 0)
                       - (if in_dst (mkFields 2025 12 14 13 31 0) then 120 else 60) * 60000))).
Proof.
  apply (proj1 (parseDateTime_amsterdam_wall_clock no_host_parse)).
  - reflexivity.
  - reflexivity.
  - simpl. lia.
Defined.

(** Below year 100 the [Date] constructor reads the year as 19xx, so
    [_getAmsterdamOffset] applies the Sundays of that year: 26 March of the
    year 50 precedes its last Sunday (the 27th), yet two hours are
    subtracted.  Hence the bound on the year above. *)
Example two_digit_year_uses_19xx :
  last_sunday 50 3 = 27 /\ last_sunday 1950 3 = 26 /\
  _parseDateTime no_host_parse (Some "0050-03-26T12:00:00")
  = Some (mkDate (Num (utc_ms (mkFields 50 3 26 12 0 0) - 120 * 60000))).
Proof. vm_compute. repeat split; reflexivity. Qed.

(** ** Sorting and slicing *)

Section Sorting.

Context {A : Type} (key : A -> Z).

Lemma insert_by_perm x l : insert_by key x l ≡ₚ x :: l.
Proof.
  induction l as [|y l IH]; simpl; [done|].
  case_match; [done|]. rewrite IH. apply Permutation_swap.
Qed.

Lemma sort_by_perm l : sort_by key l ≡ₚ l.
Proof.
  induction l as [|x l IH]; simpl; [done|].
  rewrite insert_by_perm. by rewrite IH.
Qed.

Lemma insert_by_sorted x l :
  StronglySorted (key_le key) l -> StronglySorted (key_le key) (insert_by key x l).
Proof.
  induction 1 as [|y l Hs IH Hall]; simpl.
  - repeat constructor.
  - destruct (key x <=? key y) eqn:E.
    + apply Z.leb_le in E. constructor; [by constructor|].
      constructor; [done|]. eapply Forall_impl; [exact Hall|].
      intros z Hz. unfold key_le in *. lia.
    + apply Z.leb_gt in E. constructor; [done|].
      rewrite insert_by_perm. constructor; [unfold key_le; lia | done].
Qed.

Lemma sort_by_sorted l : StronglySorted (key_le key) (sort_by key l).
Proof.
  induction l as [|x l IH]; simpl; [constructor|]. by apply insert_by_sorted.
Qed.

Lemma StronglySorted_take n l : StronglySorted (key_le key) l -> StronglySorted (key_le key) (take n l).
Proof.
  intros H. revert n. induction H as [|y l Hs IH Hall]; intros [|n]; simpl; try constructor.
  - apply IH.
  - eapply Forall_forall. intros z Hz. rewrite Forall_forall in Hall. apply Hall.
    eapply elem_of_take in Hz as (i & Hi & _). by eapply list_elem_of_lookup_2.
Qed.

Lemma StronglySorted_ascending l : StronglySorted (key_le key) l <-> ascending key l.
Proof.
  split.
  - induction 1 as [|y l Hs IH Hall]; intros i j a b Hi Hj Hij.
    + by rewrite lookup_nil in Hi.
    + destruct i as [|i], j as [|j]; simpl in *; simplify_eq.
      * lia.
      * rewrite Forall_forall in Hall. apply Hall. by eapply list_elem_of_lookup_2.
      * lia.
      * eapply IH; eauto. lia.
  - induction l as [|y l IH]; intros H; constructor.
    + apply IH. intros i j a b Hi Hj Hij. apply (H (S i) (S j)); [done|done|lia].
    + apply Forall_forall. intros z Hz. apply list_elem_of_lookup_1 in Hz as [j Hj].
      apply (H 0%nat (S j) y z); [done|done|lia].
Qed.

Lemma slice0_sorted l e : StronglySorted (key_le key) l -> StronglySorted (key_le key) (slice0 l e).
Proof. intros H. unfold slice0. case_match; by apply StronglySorted_take. Qed.

Lemma ascending_nil : ascending key [].
Proof. intros i j a b Hi. by rewrite lookup_nil in Hi. Qed.

End Sorting.

Lemma slice0_length {A} (l : list A) e : 0 <= e -> Z.of_nat (length (slice0 l e)) <= e.
Proof.
  intros He. unfold slice0. rewrite (proj2 (Z.ltb_ge e 0)) by lia.
  rewrite length_take. lia.
Qed.

Lemma slice0_subseteq {A} (l : list A) e : slice0 l e ⊆ l.
Proof. unfold slice0. case_match; intros x Hx; by eapply (subseteq_take _ l). Qed.

(** ** The transport client: [getDepartures] and [getMinutesUntil] *)

Section TransportClient.

Variable host : string -> Date.

Lemma map_departure_canonical code raw dep :
  map_departure host code raw = Some dep -> canonical dep.
Proof.
  unfold map_departure. destruct (_ || _) eqn:E; [done|]. intros [= <-].
  apply orb_false_iff in E as [E1 E2]. apply Z.eqb_neq in E2.
  split; simpl; [|done]. intros Hp. by rewrite Hp in E1.
Qed.

Lemma map_departure_None code raw :
  map_departure host code raw = None <->
  _mapStatus (str_or (TripStopStatus raw) "") = passed \/
  time_or (_parseDateTime host (ExpectedDepartureTime raw))
          (time_or (_parseDateTime host (TargetDepartureTime raw)) 0) = 0.
Proof.
  unfold map_departure. destruct (_ || _) eqn:E.
  - split; [|done]. intros _. apply orb_true_iff in E as [E|E].
    + left. by destruct (_mapStatus _).
    + right. by apply Z.eqb_eq.
  - split; [done|]. apply orb_false_iff in E as [E1 E2]. apply Z.eqb_neq in E2.
    intros [H|H]; [by rewrite H in E1 | done].
Qed.

Lemma map_departure_uid code raw dep :
  map_departure host code raw = Some dep ->
  uid dep = make_uid code raw (_parseDateTime host (TargetDepartureTime raw)).
Proof. unfold map_departure. case_match; [done|]. by intros [= <-]. Qed.

Lemma collect_departures_canonical code stopData :
  Forall canonical (collect_departures host code stopData).
Proof.
  unfold collect_departures. apply Forall_forall. intros dep Hdep.
  apply list_elem_of_In, in_flat_map in Hdep as (stop & _ & Hdep).
  apply list_elem_of_In, list_elem_of_omap in Hdep as (raw & _ & Hraw).
  by eapply map_departure_canonical.
Qed.

(** A completed request returns the first [limit] of the collected
    departures in ascending order, and caches all of them. *)
Lemma getDepartures_try_Normal api now response code limit r api' :
  getDepartures_try host api now response code limit = Normal (r, api') ->
  exists payload all,
    response = Resolved (Some payload) /\
    all ≡ₚ collect_departures host code (default [] (get_property payload code)) /\
    StronglySorted (key_le timestamp) all /\
    r = slice0 all limit /\
    departuresCache api' = <[code := mkCacheEntry now all]> (departuresCache api).
Proof.
  unfold getDepartures_try. destruct response as [msg|[payload|]]; try done.
  intros [= <- <-]. eexists payload, _. split; [done|].
  split; [apply sort_by_perm|]. split; [apply sort_by_sorted|]. done.
Qed.

Lemma getDepartures_try_ok api now response code limit r api' :
  getDepartures_try host api now response code limit = Normal (r, api') ->
  ascending timestamp r /\ Forall canonical r /\ (cache_ok api -> cache_ok api').
Proof.
  intros H. apply getDepartures_try_Normal in H as (payload & all & _ & Hp & Hs & -> & Hc).
  assert (Hall : Forall canonical all).
  { rewrite Hp. apply collect_departures_canonical. }
  split; [|split].
  - apply StronglySorted_ascending. by apply slice0_sorted.
  - eapply Forall_forall. intros d Hd. rewrite Forall_forall in Hall. apply Hall.
    by eapply slice0_subseteq.
  - intros Hok key entry. rewrite Hc, lookup_insert. case_decide.
    + intros [= <-]. simpl. split; [by apply StronglySorted_ascending|done].
    + apply Hok.
Qed.

(** [getDepartures] always completes normally; over a sound cache its
    result is ascending and canonical, and the cache stays sound. *)
Lemma getDepartures_ok api now response code limit :
  cache_ok api ->
  exists r api', getDepartures host api now response code limit = (Normal r, api') /\
    ascending timestamp r /\ Forall canonical r /\ cache_ok api'.
Proof.
  intros Hok. unfold getDepartures.
  destruct (negb (nonempty code)).
  { eexists _, _. split; [done|]. split; [apply ascending_nil|]. split; [constructor|done]. }
  destruct (fresh_entry api now code) as [cached|] eqn:Hf.
  - unfold fresh_entry in Hf. destruct (departuresCache api !! code) as [e|] eqn:He; [|done].
    destruct (_ <? _); [|done]. injection Hf as ->.
    destruct (Hok _ _ He) as [Hs Hc].
    eexists _, _. split; [done|]. split; [|split; [|done]].
    + apply StronglySorted_ascending, slice0_sorted. by apply StronglySorted_ascending.
    + eapply Forall_forall. intros d Hd. rewrite Forall_forall in Hc. apply Hc.
      by eapply slice0_subseteq.
  - destruct (getDepartures_try host api now response code (default 10 limit))
      as [[r api']|msg] eqn:Ht.
    + apply getDepartures_try_ok in Ht as (Hs & Hc & Hpres).
      eexists _, _. split; [done|]. auto.
    + eexists _, _. split; [done|]. split; [apply ascending_nil|]. split; [constructor|done].
Qed.

Lemma getDepartures_never_throws api now response code limit :
  exists r api', getDepartures host api now response code limit = (Normal r, api').
Proof.
  unfold getDepartures. repeat case_match; simplify_eq; by eexists _, _.
Qed.

Lemma getAllStopAreas_cache api now response :
  departuresCache (getAllStopAreas api now response).2 = departuresCache api.
Proof. unfold getAllStopAreas. repeat case_match; done. Qed.

Lemma searchLocations_cache api now response query :
  departuresCache (searchLocations api now response query).2 = departuresCache api.
Proof.
  unfold searchLocations. destruct query as [q|]; [|done].
  destruct (_ || _); [done|].
  pose proof (getAllStopAreas_cache api now response).
  by destruct (getAllStopAreas api now response).
Qed.

Lemma reachable_cache_ok api : reachable host api -> cache_ok api.
Proof.
  induction 1 as [api Hempty|api now response code limit _ IH
                 |api now response _ IH|api now response query _ IH].
  - intros key entry. by rewrite Hempty, lookup_empty.
  - by destruct (getDepartures_ok api now response code limit IH)
      as (r & api' & -> & _ & _ & Hok).
  - intros key entry. rewrite getAllStopAreas_cache. apply IH.
  - intros key entry. rewrite searchLocations_cache. apply IH.
Qed.

(** C5.  Whatever [getDepartures] returns, from a fresh request or from
    the cache, is sorted non-decreasing by [timestamp] and has at most
    [limit] elements, for a [limit] that is not negative; an absent [limit]
    is 10. *)
Theorem getDepartures_sorted_and_limited api now response code limit r :
  reachable host api ->
  0 <= default 10 limit ->
  (getDepartures host api now response code limit).1 = Normal r ->
  ascending timestamp r /\
  Z.of_nat (length r) <= default 10 limit /\
  getDepartures host api now response code None
  = getDepartures host api now response code (Some 10).
Proof.
  intros Hreach Hlimit Hr.
  destruct (getDepartures_ok api now response code limit (reachable_cache_ok api Hreach))
    as (r' & api' & E & Hs & _ & _).
  rewrite E in Hr. injection Hr as <-. split; [done|]. split; [|done].
  unfold getDepartures in E. destruct (negb (nonempty code)).
  { injection E as <- _. simpl. lia. }
  destruct (fresh_entry api now code).
  { injection E as <- _. by apply slice0_length. }
  destruct (getDepartures_try host api now response code (default 10 limit))
    as [[r0 api0]|msg] eqn:Ht.
  - injection E as <- _.
    apply getDepartures_try_Normal in Ht as (? & all & _ & _ & _ & -> & _).
    by apply slice0_length.
  - injection E as <- _. simpl. lia.
Qed.

(** C6.  Every departure [getDepartures] returns has a status other than
    [passed] and a timestamp other than 0; a raw record is dropped exactly
    when its status maps to [passed] or its timestamp resolves to 0. *)
Theorem getDepartures_excludes_passed_and_unresolved api now response code limit r :
  reachable host api ->
  (getDepartures host api now response code limit).1 = Normal r ->
  Forall (fun d => status d <> passed /\ timestamp d <> 0) r /\
  (forall raw,
     map_departure host code raw = None <->
     _mapStatus (str_or (TripStopStatus raw) "") = passed \/
     time_or (_parseDateTime host (ExpectedDepartureTime raw))
             (time_or (_parseDateTime host (TargetDepartureTime raw)) 0) = 0).
Proof.
  intros Hreach Hr.
  destruct (getDepartures_ok api now response code limit (reachable_cache_ok api Hreach))
    as (r' & api' & E & _ & Hc & _).
  rewrite E in Hr. injection Hr as <-. split; [exact Hc|].
  intros raw. apply map_departure_None.
Qed.

(** C7.  [getDepartures] never throws.  When it makes a request (no fresh
    cache entry) and the request fails, by rejection (network error,
    timeout, invalid JSON) or by a body that is [null], it returns the empty
    list and leaves the state alone; a check of either trigger card then
    completes normally without firing. *)
Theorem getDepartures_fails_soft api now code limit :
  fresh_entry api now code = None ->
  (forall response,
     exists r api', getDepartures host api now response code limit = (Normal r, api')) /\
  (forall message,
     getDepartures host api now (Rejected message) code limit = (Normal [], api)) /\
  getDepartures host api now (Resolved None) code limit = (Normal [], api) /\
  (forall k triggered clock message args,
     station_id args = Some code ->
     check k host (mkApp api triggered) (mkEnv now (Rejected message) clock) args
     = (Normal [], mkApp api triggered)).
Proof.
  intros Hf.
  assert (Hrej : forall message,
            getDepartures host api now (Rejected message) code limit = (Normal [], api)).
  { intros message. unfold getDepartures. rewrite Hf. by destruct (negb (nonempty code)). }
  split; [intros response; apply getDepartures_never_throws|].
  split; [exact Hrej|]. split.
  { unfold getDepartures. rewrite Hf. by destruct (negb (nonempty code)). }
  intros k triggered clock message args Hst.
  assert (Hrej' : getDepartures host api now (Rejected message) code None = (Normal [], api)).
  { unfold getDepartures. rewrite Hf. by destruct (negb (nonempty code)). }
  destruct k; simpl;
    unfold _checkDepartureSoonTrigger, _checkDepartureDelayedTrigger;
    rewrite Hst; cbn [OVApp.api clock_fetch OVApp.response triggeredDepartures];
    destruct (negb (nonempty code)); [done| |done|]; by rewrite Hrej'.
Qed.

(** C9.  [getMinutesUntil] is the rounded number of minutes from [now] to
    the departure's timestamp, or 0 when that is negative: it is never
    negative, and 0 for a timestamp that is not in the future.  The rounding
    is to the nearest integer, a tie going up. *)
Theorem getMinutesUntil_never_negative (now : Z) (departure : Departure) :
  getMinutesUntil now departure
  = Z.max 0 (round_div (timestamp departure - now) 60000) /\
  60000 * round_div (timestamp departure - now) 60000 - 30000
    <= timestamp departure - now
    < 60000 * round_div (timestamp departure - now) 60000 + 30000 /\
  0 <= getMinutesUntil now departure /\
  (timestamp departure <= now -> getMinutesUntil now departure = 0).
Proof.
  unfold getMinutesUntil, Math_max0, round_div.
  split; [done|]. split; [Z.div_mod_to_equations; lia|]. split; [lia|].
  intros Hpast. Z.div_mod_to_equations; lia.
Qed.

End TransportClient.

(** The busy board holds, in payload order, the bus to Utrecht expected at
    13:31, the line to Amersfoort at 13:29 and the later bus to Utrecht:
    with a limit of two, [getDepartures] returns the line to Amersfoort
    before the bus to Utrecht and cuts the later bus off. *)
Lemma getDepartures_sorted_witness :
  kept no_host_parse busy_payload "8400" = [to_utrecht; to_amersfoort; to_utrecht_later] /\
  (getDepartures no_host_parse new_OVApi 1749900480000
     (Resolved (Some busy_payload)) "8400" (Some 2)).1 = Normal [to_amersfoort; to_utrecht] /\
  ascending timestamp [to_amersfoort; to_utrecht] /\
  Z.of_nat (length [to_amersfoort; to_utrecht]) <= default 10 (Some 2) /\
  getDepartures no_host_parse new_OVApi 1749900480000
    (Resolved (Some busy_payload)) "8400" None
  = getDepartures no_host_parse new_OVApi 1749900480000
      (Resolved (Some busy_payload)) "8400" (Some 10).
Proof.
  split; [vm_compute; reflexivity|]. split; [vm_compute; reflexivity|].
  apply (getDepartures_sorted_and_limited no_host_parse new_OVApi 1749900480000
           (Resolved (Some busy_payload)) "8400" (Some 2) [to_amersfoort; to_utrecht]).
  - apply reach_start. reflexivity.
  - simpl. lia.
  - vm_compute. reflexivity.
Defined.

(** A board with a pass that has passed, the bus that is three minutes late
    and a pass whose timestamp resolves to 0: [getDepartures] returns the
    bus only, and the other two records are dropped. *)
Lemma getDepartures_canonical_witness :
  (getDepartures no_host_parse new_OVApi 1749900480000
     (Resolved (Some mixed_payload)) "8400" None).1 = Normal [to_utrecht] /\
  Forall (fun d => status d <> passed /\ timestamp d <> 0) [to_utrecht] /\
  map_departure no_host_parse "8400" passed_pass = None /\
  map_departure no_host_parse "8400" untimed_pass = None /\
  map_departure no_host_parse "8400" near_pass = Some to_utrecht.
Proof.
  split; [vm_compute; reflexivity|].
  cut (Forall (fun d => status d <> passed /\ timestamp d <> 0) [to_utrecht] /\
       (forall raw,
          map_departure no_host_parse "8400" raw = None <->
          _mapStatus (str_or (TripStopStatus raw) "") = passed \/
          time_or (_parseDateTime no_host_parse (ExpectedDepartureTime raw))
                  (time_or (_parseDateTime no_host_parse (TargetDepartureTime raw)) 0) = 0)).
  { intros [Hkept Hdropped]. split; [exact Hkept|]. split; [|split].
    - apply (Hdropped passed_pass). left. vm_compute. reflexivity.
    - apply (Hdropped untimed_pass). right. vm_compute. reflexivity.
    - vm_compute. reflexivity. }
  apply (getDepartures_excludes_passed_and_unresolved no_host_parse new_OVApi 1749900480000
           (Resolved (Some mixed_payload)) "8400" None [to_utrecht]).
  - apply reach_start. reflexivity.
  - vm_compute. reflexivity.
Defined.

(** A rejected request on a new client. *)
Lemma getDepartures_fails_soft_witness :
  getDepartures no_host_parse new_OVApi 1749898860000 (Rejected "Request timeout") "8400" None
  = (Normal [], new_OVApi).
Proof.
  apply (getDepartures_fails_soft no_host_parse new_OVApi 1749898860000 "8400" None).
  reflexivity.
Defined.

(** ** Stop search: [searchLocations] *)

Section StopSearch.

Lemma stop_matches_spec q stop :
  stop_matches (toLowerCase q) stop = true <-> stop_contains q stop.
Proof.
  unfold stop_matches, stop_contains, contains_ci.
  rewrite !orb_true_iff, !includes_spec. tauto.
Qed.

Lemma searchLocations_short api now response query :
  Z.of_nat (String.length query) < 2 ->
  searchLocations api now response (Some query) = ([], api).
Proof.
  intros H. unfold searchLocations.
  by rewrite (proj2 (Z.ltb_lt _ _) H), orb_true_r.
Qed.

Lemma searchLocations_long api now response query :
  2 <= Z.of_nat (String.length query) ->
  (searchLocations api now response (Some query)).1 =
  map to_location (take 15 (List.filter (stop_matches (toLowerCase query))
                                        (getAllStopAreas api now response).1)).
Proof.
  intros H. unfold searchLocations.
  assert (nonempty query = true) as -> by (destruct query; [simpl in H; lia|done]).
  rewrite (proj2 (Z.ltb_ge _ _) H). simpl.
  by destruct (getAllStopAreas api now response).
Qed.

Lemma filter_app_cons_lookup {A} (p : A -> bool) before x after :
  p x = true ->
  List.filter p (before ++ x :: after) !! length (List.filter p before) = Some x.
Proof.
  intros Hx. rewrite List.filter_app. simpl. rewrite Hx.
  by rewrite list_lookup_middle.
Qed.

(** C8, amended.  A query that is absent or shorter than two characters
    gives the empty list.  Every other query gives at most 15 results, each
    the projection of a stop area of the directory whose name, town or code
    contains the query, letter case disregarded.  Searching "amst" (in any
    letter case) returns a stop named "Amsterdam Centraal" provided fewer
    than 15 matching stop areas precede it in the directory; it is then the
    result at the position that counts them. *)
Theorem searchLocations_spec api now response :
  searchLocations api now response None = ([], api) /\
  (forall query, Z.of_nat (String.length query) < 2 ->
     searchLocations api now response (Some query) = ([], api)) /\
  (forall query, Z.of_nat (length (searchLocations api now response query).1) <= 15) /\
  (forall query result,
     result ∈ (searchLocations api now response (Some query)).1 ->
     exists stop, stop ∈ (getAllStopAreas api now response).1 /\
                  result = to_location stop /\ stop_contains query stop) /\
  (forall query before stop after,
     toLowerCase query = "amst" ->
     (getAllStopAreas api now response).1 = before ++ stop :: after ->
     TimingPointName stop = Some "Amsterdam Centraal" ->
     (length (List.filter (stop_matches "amst") before) < 15)%nat ->
     (searchLocations api now response (Some query)).1
       !! length (List.filter (stop_matches "amst") before) = Some (to_location stop)).
Proof.
  split; [done|]. split; [apply searchLocations_short|]. split; [|split].
  - intros [query|]; [|simpl; lia].
    destruct (Z_lt_le_dec (Z.of_nat (String.length query)) 2) as [H|H].
    + rewrite searchLocations_short by done. simpl. lia.
    + rewrite searchLocations_long by done. rewrite length_map, length_take. lia.
  - intros query result Hr.
    destruct (Z_lt_le_dec (Z.of_nat (String.length query)) 2) as [H|H].
    { rewrite searchLocations_short in Hr by done. by apply elem_of_nil in Hr. }
    rewrite searchLocations_long in Hr by done.
    apply list_elem_of_fmap in Hr as (stop & -> & Hstop).
    apply (subseteq_take 15) in Hstop.
    apply list_elem_of_In, List.filter_In in Hstop as [Hin Hm].
    exists stop. split; [by apply list_elem_of_In|]. split; [done|].
    by apply stop_matches_spec.
  - intros query before stop after Hq Hdir Hname Hcount.
    assert (H : 2 <= Z.of_nat (String.length query)).
    { rewrite <- (toLowerCase_length query), Hq. simpl. lia. }
    rewrite searchLocations_long by done. rewrite Hq, Hdir.
    rewrite list_lookup_fmap, lookup_take_lt by done.
    rewrite filter_app_cons_lookup; [done|].
    unfold stop_matches. rewrite Hname. reflexivity.
Qed.

End StopSearch.

(** C8 as stated fails: with fifteen matching stops ahead of it in the
    directory, Amsterdam Centraal is not among the results for "amst". *)
Lemma amsterdam_centraal_beyond_first_15 :
  amsterdam_centraal ∈ Object_values crowded_directory /\
  TimingPointName amsterdam_centraal = Some "Amsterdam Centraal" /\
  to_location amsterdam_centraal ∉
    (searchLocations new_OVApi 0 (Resolved (Some crowded_directory)) (Some "amst")).1.
Proof.
  split; [|split; [reflexivity|]].
  - unfold Object_values, crowded_directory. rewrite map_app. apply elem_of_app. right.
    by apply list_elem_of_singleton.
  - intros H. apply list_elem_of_In in H. vm_compute in H.
    repeat (destruct H as [H|H]; [discriminate H|]). done.
Qed.

(** Amsterdam Centraal is found, as the second result, behind one
    Amstelveen stop. *)
Lemma searchLocations_witness :
  (searchLocations new_OVApi 0
     (Resolved (Some [("avn1", amstelveen 1); ("asd", amsterdam_centraal)])) (Some "Amst")).1
    !! length (List.filter (stop_matches "amst") [amstelveen 1])
  = Some (to_location amsterdam_centraal).
Proof.
  apply (proj2 (proj2 (proj2 (proj2
           (searchLocations_spec new_OVApi 0
              (Resolved (Some [("avn1", amstelveen 1); ("asd", amsterdam_centraal)])))))))
    with (after := []).
  - reflexivity.
  - reflexivity.
  - reflexivity.
  - vm_compute. lia.
Defined.

(** ** The trigger engine *)

Section TriggerEngine.

Variable host : string -> Date.

(** Both loops stop at the first departure that qualifies and is not
    suppressed. *)
Lemma soon_loop_find args now dl th S deps :
  soon_loop args now dl th S deps =
  List.find (fun dep => soon_qualifies now dl th dep
                        && negb (suppressed args S ("soon_" +:+ uid dep))) deps.
Proof.
  induction deps as [|dep rest IH]; [done|].
  cbn [soon_loop List.find]. unfold soon_qualifies, suppressed at 1.
  destruct (destination_mismatch dl dep); [exact IH|]. cbn [negb andb].
  destruct (getMinutesUntil now dep <=? th); [|exact IH].
  destruct (_ && _); [exact IH|done].
Qed.

Lemma delayed_loop_find args dl md S deps :
  delayed_loop args dl md S deps =
  List.find (fun dep => delayed_qualifies dl md dep
                        && negb (suppressed args S ("delayed_" +:+ uid dep))) deps.
Proof.
  induction deps as [|dep rest IH]; [done|].
  cbn [delayed_loop List.find]. unfold delayed_qualifies, suppressed at 1.
  destruct (destination_mismatch dl dep); [exact IH|]. cbn [negb andb].
  destruct (gt (delay_minutes dep) (Num md)); [|exact IH].
  destruct (_ && _); [exact IH|done].
Qed.

Lemma find_unsuppressed {A} (p q : A -> bool) l x :
  List.find (fun a => p a && negb (q a)) l = Some x ->
  p x = true /\ q x = false /\ x ∈ l.
Proof.
  intros H. apply List.find_some in H as [Hin H].
  apply andb_true_iff in H as [Hp Hq]. apply negb_true_iff in Hq.
  split; [done|]. split; [done|]. by apply list_elem_of_In.
Qed.

Lemma not_once_not_suppressed args S key :
  trigger_mode args <> "once" -> suppressed args S key = false.
Proof.
  intros H. unfold suppressed. by destruct (String.eqb_spec (trigger_mode args) "once").
Qed.

(** What a check does: nothing, or one firing for a departure of the list
    [getDepartures] returned, which qualifies and is not suppressed, and
    whose key joins the set of the card. *)
Lemma check_inv k app env args :
  exists events app',
    check k host app env args = (Normal events, app') /\
    ((events = [] /\ triggeredDepartures app' = triggeredDepartures app) \/
     (exists ev deps api',
        events = [ev] /\ kind ev = k /\
        getDepartures host (api app) (clock_fetch env) (response env)
          (default "" (station_id args)) None = (Normal deps, api') /\
        cause ev ∈ deps /\
        suppressed args (triggered_set k app) (event_key ev) = false /\
        triggered_set k app' = {[event_key ev]} ∪ triggered_set k app /\
        (forall k', k' <> k -> triggered_set k' app' = triggered_set k' app))).
Proof.
  destruct k; simpl.
  - unfold _checkDepartureSoonTrigger.
    destruct (station_id args) as [station|]; [|eexists _, _; split; [done|by left]].
    destruct (negb (nonempty station)); [eexists _, _; split; [done|by left]|].
    cbn [default].
    destruct (getDepartures host (api app) (clock_fetch env) (response env) station None)
      as [[deps|msg] api'] eqn:Hg.
    2:{ destruct (getDepartures_never_throws host (api app) (clock_fetch env)
                    (response env) station None) as (? & ? & E). congruence. }
    rewrite soon_loop_find.
    destruct (List.find _ deps) as [dep|] eqn:Hf; [|eexists _, _; split; [done|by left]].
    apply find_unsuppressed in Hf as (_ & Hsup & Hin).
    eexists _, _. split; [done|]. right. eexists _, _, _.
    repeat split; try done. by intros [].
  - unfold _checkDepartureDelayedTrigger.
    destruct (station_id args) as [station|]; [|eexists _, _; split; [done|by left]].
    destruct (negb (nonempty station)); [eexists _, _; split; [done|by left]|].
    cbn [default].
    destruct (getDepartures host (api app) (clock_fetch env) (response env) station None)
      as [[deps|msg] api'] eqn:Hg.
    2:{ destruct (getDepartures_never_throws host (api app) (clock_fetch env)
                    (response env) station None) as (? & ? & E). congruence. }
    rewrite delayed_loop_find.
    destruct (List.find _ deps) as [dep|] eqn:Hf; [|eexists _, _; split; [done|by left]].
    apply find_unsuppressed in Hf as (_ & Hsup & Hin).
    eexists _, _. split; [done|]. right. eexists _, _, _.
    repeat split; try done. by intros [].
Qed.

Lemma check_at_most_one k app env args events app' :
  check k host app env args = (Normal events, app') -> (length events <= 1)%nat.
Proof.
  intros Hc. destruct (check_inv k app env args) as (events0 & app0 & E & H).
  rewrite E in Hc. injection Hc as <- <-.
  destruct H as [[-> _]|(ev0 & ? & ? & -> & _)]; simpl; lia.
Qed.

Lemma for_each_at_most_one k app instances :
  (length (for_each (check k host) app instances).1.1 <= length instances)%nat.
Proof.
  revert app. induction instances as [|[args env] rest IH]; intros app; simpl; [lia|].
  destruct (check_inv k app env args) as (events & app' & E & _).
  pose proof (check_at_most_one k app env args events app' E) as Hone.
  rewrite E. specialize (IH app').
  destruct (for_each (check k host) app' rest) as [[events' thrown] app'']. simpl in *.
  rewrite length_app. lia.
Qed.

Lemma for_each_in_turn k app instances :
  exists per app',
    for_each (check k host) app instances = (concat per, None, app') /\
    checked_in_turn k host app instances per app' /\
    Forall (fun events => (length events <= 1)%nat) per /\
    length per = length instances.
Proof.
  revert app. induction instances as [|[args env] rest IH]; intros app.
  { exists [], app. split; [done|]. split; [constructor|]. split; [constructor|done]. }
  destruct (check_inv k app env args) as (events & app1 & E & _).
  pose proof (check_at_most_one k app env args events app1 E) as Hone.
  destruct (IH app1) as (later & app2 & E2 & Hturn & Hall & Hlen).
  exists (events :: later), app2. split; [|split; [|split]].
  - cbn [for_each concat]. by rewrite E, E2.
  - by econstructor.
  - by constructor.
  - simpl. by rewrite Hlen.
Qed.

(** A poll tick checks every configured instance once, the instances of the
    "departure soon" card in their order and then those of the "departure
    delayed" card, each from the state the check before left; every check
    makes at most one [trigger] call, and the calls of the tick are those of
    its instances in that order: at most one per instance. *)
Theorem tick_at_most_one_event_per_instance app soonArgs delayedArgs now :
  (forall k app0 env args,
     exists events app', check k host app0 env args = (Normal events, app') /\
                         (length events <= 1)%nat) /\
  exists per_soon app1 per_delayed app2,
    checked_in_turn Soon host app soonArgs per_soon app1 /\
    checked_in_turn Delayed host app1 delayedArgs per_delayed app2 /\
    (_checkTriggers host app soonArgs delayedArgs now).1
    = concat per_soon ++ concat per_delayed /\
    Forall (fun events => (length events <= 1)%nat) (per_soon ++ per_delayed) /\
    length per_soon = length soonArgs /\ length per_delayed = length delayedArgs /\
    (length (_checkTriggers host app soonArgs delayedArgs now).1
     <= length soonArgs + length delayedArgs)%nat.
Proof.
  split.
  { intros k app0 env args. destruct (check_inv k app0 env args) as (events & app' & E & _).
    exists events, app'. split; [done|]. by eapply check_at_most_one. }
  destruct (for_each_in_turn Soon app soonArgs) as (per1 & app1 & E1 & T1 & A1 & L1).
  destruct (for_each_in_turn Delayed app1 delayedArgs) as (per2 & app2 & E2 & T2 & A2 & L2).
  exists per1, app1, per2, app2.
  assert (Hev : (_checkTriggers host app soonArgs delayedArgs now).1 = concat per1 ++ concat per2).
  { unfold _checkTriggers. simpl in E1, E2. by rewrite E1, E2. }
  split; [done|]. split; [done|]. split; [done|]. split; [by apply Forall_app|].
  split; [done|]. split; [done|].
  rewrite Hev, length_app.
  assert (Hc : forall per : list (list Event),
            Forall (fun events => (length events <= 1)%nat) per ->
            (length (concat per) <= length per)%nat).
  { induction 1 as [|e per He _ IH]; simpl; [lia|]. rewrite length_app. lia. }
  pose proof (Hc per1 A1). pose proof (Hc per2 A2). lia.
Qed.

(** An instance that is not in once-mode fires on every poll in which some
    departure of the list qualifies. *)
Theorem always_mode_fires_when_some_departure_qualifies app env args station deps api' :
  trigger_mode args <> "once" ->
  station_id args = Some station -> nonempty station = true ->
  getDepartures host (api app) (clock_fetch env) (response env) station None
  = (Normal deps, api') ->
  ((exists dep, dep ∈ deps /\
       soon_qualifies (clock_eval env) (toLowerCase (str_or (destination_name args) ""))
                      (number_or_5 (minutes args)) dep = true) ->
   exists ev, (_checkDepartureSoonTrigger host app env args).1 = Normal [ev]) /\
  ((exists dep, dep ∈ deps /\
       delayed_qualifies (toLowerCase (str_or (destination_name args) ""))
                         (number_or_5 (min_delay args)) dep = true) ->
   exists ev, (_checkDepartureDelayedTrigger host app env args).1 = Normal [ev]).
Proof.
  intros Hmode Hst Hne Hg.
  split; intros (dep & Hin & Hq).
  - unfold _checkDepartureSoonTrigger. rewrite Hst, Hne, Hg, soon_loop_find. cbn [negb].
    destruct (List.find _ deps) as [d|] eqn:Hf; [by eexists|].
    apply list_elem_of_In in Hin. apply (List.find_none _ _ Hf) in Hin.
    rewrite Hq, not_once_not_suppressed in Hin by done. done.
  - unfold _checkDepartureDelayedTrigger. rewrite Hst, Hne, Hg, delayed_loop_find. cbn [negb].
    destruct (List.find _ deps) as [d|] eqn:Hf; [by eexists|].
    apply list_elem_of_In in Hin. apply (List.find_none _ _ Hf) in Hin.
    rewrite Hq, not_once_not_suppressed in Hin by done. done.
Qed.

(** C10.  A firing of either card records the key of its departure in the
    set of that card, whatever the instance's [trigger_mode]; while the key
    is in the set, no once-mode instance of that card fires for a departure
    with the same uid. *)
Theorem fired_key_recorded_in_every_mode k app env args events ev :
  (check k host app env args).1 = Normal events ->
  ev ∈ events ->
  triggered_set k (check k host app env args).2
  = {[event_key ev]} ∪ triggered_set k app /\
  (forall app2 env2 args2 events2 ev2,
      event_key ev ∈ triggered_set k app2 ->
      trigger_mode args2 = "once" ->
      (check k host app2 env2 args2).1 = Normal events2 ->
      ev2 ∈ events2 ->
      uid (cause ev2) <> uid (cause ev)).
Proof.
  intros Hc Hev.
  destruct (check_inv k app env args) as (events0 & app0 & E & H).
  rewrite E in Hc |- *. injection Hc as <-.
  destruct H as [[-> _]|(ev0 & deps & api' & -> & Hk & _ & _ & _ & Hset & _)].
  { by apply elem_of_nil in Hev. }
  apply list_elem_of_singleton in Hev as ->. split; [done|].
  intros app2 env2 args2 events2 ev2 Hin Honce Hc2 Hev2 Huid.
  destruct (check_inv k app2 env2 args2) as (events3 & app3 & E2 & H2).
  rewrite E2 in Hc2. injection Hc2 as <-.
  destruct H2 as [[-> _]|(ev3 & deps2 & api2 & -> & Hk2 & _ & _ & Hsup & _ & _)].
  { by apply elem_of_nil in Hev2. }
  apply list_elem_of_singleton in Hev2 as ->.
  unfold suppressed in Hsup. rewrite Honce in Hsup. simpl in Hsup.
  apply bool_decide_eq_false in Hsup. apply Hsup.
  unfold event_key in *. rewrite Hk in Hin. by rewrite Hk2, Huid.
Qed.

(** ** Cleanup of the triggered sets *)

Lemma expired_key pre z oneHourAgo :
  expired oneHourAgo (pre +:+ String "_" (Z_toString z))
  = negb (z =? 0) && (z <? oneHourAgo).
Proof.
  unfold expired. rewrite last_part_split_app by apply Z_toString_no_underscore.
  by rewrite parseInt_Z_toString.
Qed.

Lemma key_shape (prefix code : string) raw planned :
  prefix +:+ make_uid code raw planned =
  (prefix +:+ code +:+ "_" +:+ interpolate (LinePublicNumber raw) +:+ "_"
     +:+ interpolate (opt_or (DestinationName50 raw) (DestinationName raw)))
  +:+ String "_" (Z_toString (time_or planned 0)).
Proof. unfold make_uid. by rewrite !append_assoc. Qed.

(** The cleanup test reads the planned instant back out of a key. *)
Lemma expired_uid_key prefix code raw planned oneHourAgo :
  expired oneHourAgo (prefix +:+ make_uid code raw planned)
  = negb (time_or planned 0 =? 0) && (time_or planned 0 <? oneHourAgo).
Proof. by rewrite key_shape, expired_key. Qed.

Lemma not_expired_iff t h :
  negb (t =? 0) && (t <? h) = false <-> t = 0 \/ h <= t.
Proof. by rewrite andb_false_iff, negb_false_iff, Z.eqb_eq, Z.ltb_ge. Qed.

(** C3, amended.  For the key of every departure the client can produce, the
    cleanup pass removes the key when its embedded planned instant is not 0
    and more than one hour before the current time, and retains it
    otherwise: when the instant is not more than one hour in the past, and
    also when it is 0 (the planned time was absent or unparseable). *)
Theorem cleanup_purges_by_planned_instant code raw dep now triggered :
  map_departure host code raw = Some dep ->
  ("soon_" +:+ uid dep ∈ soon (_cleanupTriggeredDepartures now triggered) <->
     "soon_" +:+ uid dep ∈ soon triggered /\
     (planned_instant host raw = 0 \/ now - 3600000 <= planned_instant host raw)) /\
  ("delayed_" +:+ uid dep ∈ delayed (_cleanupTriggeredDepartures now triggered) <->
     "delayed_" +:+ uid dep ∈ delayed triggered /\
     (planned_instant host raw = 0 \/ now - 3600000 <= planned_instant host raw)).
Proof.
  intros Hdep. rewrite (map_departure_uid _ _ _ _ Hdep). unfold planned_instant.
  set (t := time_or _ 0). unfold _cleanupTriggeredDepartures. simpl.
  rewrite !elem_of_filter, !expired_uid_key. fold t.
  change (60 * 60 * 1000) with 3600000.
  rewrite not_expired_iff. tauto.
Qed.

End TriggerEngine.

(** The late bus fires the "departure soon" card of an always-mode instance
    at 11:01:00 UTC, and its key is recorded. *)
Lemma fired_key_recorded_witness :
  triggered_set Soon
    (check Soon no_host_parse onInit (env_at 1749898860000 late_pass) always_args).2
  = {[event_key late_soon_event]} ∪ triggered_set Soon onInit.
Proof.
  apply (fired_key_recorded_in_every_mode no_host_parse Soon onInit
           (env_at 1749898860000 late_pass) always_args [late_soon_event] late_soon_event).
  - vm_compute. reflexivity.
  - apply list_elem_of_here.
Defined.

Lemma always_mode_fires_witness :
  exists ev,
    (_checkDepartureSoonTrigger no_host_parse onInit (env_at 1749898860000 late_pass)
       always_args).1 = Normal [ev].
Proof.
  apply (always_mode_fires_when_some_departure_qualifies no_host_parse onInit
           (env_at 1749898860000 late_pass) always_args "8400" [late_departure]
           (getDepartures no_host_parse new_OVApi 1749898860000
              (Resolved (Some (payload_of late_pass))) "8400" None).2).
  - discriminate.
  - reflexivity.
  - reflexivity.
  - vm_compute. reflexivity.
  - exists late_departure. split; [apply list_elem_of_here|]. vm_compute. reflexivity.
Defined.

(** The key of the late bus, planned for 09:00 UTC, at a cleanup at 11:01:00
    UTC. *)
Lemma cleanup_purges_witness :
  ("soon_" +:+ uid late_departure
     ∈ soon (_cleanupTriggeredDepartures 1749898860000
               (mkTriggered {["soon_" +:+ uid late_departure]} ∅)) <->
   "soon_" +:+ uid late_departure ∈ ({["soon_" +:+ uid late_departure]} : gset string) /\
   (planned_instant no_host_parse late_pass = 0
    \/ 1749898860000 - 3600000 <= planned_instant no_host_parse late_pass)) /\
  ("delayed_" +:+ uid late_departure
     ∈ delayed (_cleanupTriggeredDepartures 1749898860000
                  (mkTriggered {["soon_" +:+ uid late_departure]} ∅)) <->
   "delayed_" +:+ uid late_departure ∈ (∅ : gset string) /\
   (planned_instant no_host_parse late_pass = 0
    \/ 1749898860000 - 3600000 <= planned_instant no_host_parse late_pass)).
Proof.
  apply (cleanup_purges_by_planned_instant no_host_parse "8400" late_pass late_departure).
  vm_compute. reflexivity.
Defined.

(** C3 as stated fails: the key of a departure whose planned time does not
    parse embeds the instant 0, which is more than an hour before any
    present clock reading, and the cleanup pass keeps it. *)
Lemma cleanup_keeps_key_without_planned_time :
  map_departure no_host_parse "8400" unplanned_pass = Some unplanned_departure /\
  planned_instant no_host_parse unplanned_pass = 0 /\
  0 < 1749900480000 - 60 * 60 * 1000 /\
  "soon_" +:+ uid unplanned_departure
    ∈ soon (_cleanupTriggeredDepartures 1749900480000
              (mkTriggered {["soon_" +:+ uid unplanned_departure]} ∅)).
Proof.
  split; [vm_compute; reflexivity|]. split; [vm_compute; reflexivity|]. split; [lia|].
  unfold _cleanupTriggeredDepartures. simpl. apply elem_of_filter.
  split; [vm_compute; reflexivity|]. by apply elem_of_singleton.
Qed.

Section Thresholds.

Variable host : string -> Date.

(** The threshold of both trigger cards is 5 when none is configured, and
    the configured value when that is not 0: with [T] that threshold, the
    check of the "departure soon" card fires exactly when some departure of
    the list passes the destination filter, is at most [T] minutes away and
    is not suppressed by once-mode, and the check of the "departure delayed"
    card exactly when some such departure has a delay above [T]. *)
Theorem configured_threshold app env args station deps api' :
  station_id args = Some station -> nonempty station = true ->
  getDepartures host (api app) (clock_fetch env) (response env) station None
  = (Normal deps, api') ->
  (forall T,
     minutes args = None /\ T = 5 \/ minutes args = Some T /\ T <> 0 ->
     ((exists ev, (_checkDepartureSoonTrigger host app env args).1 = Normal [ev]) <->
      exists dep, dep ∈ deps /\ passes_filter (destination_name args) dep = true /\
                  getMinutesUntil (clock_eval env) dep <= T /\
                  suppressed args (soon (triggeredDepartures app)) ("soon_" +:+ uid dep)
                  = false)) /\
  (forall T,
     min_delay args = None /\ T = 5 \/ min_delay args = Some T /\ T <> 0 ->
     ((exists ev, (_checkDepartureDelayedTrigger host app env args).1 = Normal [ev]) <->
      exists dep d, dep ∈ deps /\ passes_filter (destination_name args) dep = true /\
                    delay_minutes dep = Num d /\ T < d /\
                    suppressed args (delayed (triggeredDepartures app))
                      ("delayed_" +:+ uid dep) = false)).
Proof.
  intros Hst Hne Hg.
  assert (Hth : forall n T, n = None /\ T = 5 \/ n = Some T /\ T <> 0 -> number_or_5 n = T).
  { intros n T [[-> ->]|[-> HT]]; [done|]. unfold number_or_5, truthy.
    by rewrite (proj2 (Z.eqb_neq T 0) HT). }
  split; intros T HT.
  - unfold _checkDepartureSoonTrigger. rewrite Hst, Hne, Hg, soon_loop_find. cbn [negb].
    rewrite (Hth _ _ HT).
    destruct (List.find _ deps) as [d|] eqn:Hf.
    + split; [|by eexists]. intros _.
      apply find_unsuppressed in Hf as (Hq & Hsup & Hin).
      unfold soon_qualifies in Hq. apply andb_true_iff in Hq as [Hd Hm].
      exists d. split; [done|]. split; [done|]. split; [by apply Z.leb_le|done].
    + split; [by intros [? ?]|]. intros (dep & Hin & Hp & Hm & Hsup).
      apply list_elem_of_In in Hin. apply (List.find_none _ _ Hf) in Hin.
      unfold soon_qualifies in Hin. unfold passes_filter in Hp.
      rewrite Hp, (proj2 (Z.leb_le _ _) Hm), Hsup in Hin. done.
  - unfold _checkDepartureDelayedTrigger. rewrite Hst, Hne, Hg, delayed_loop_find. cbn [negb].
    rewrite (Hth _ _ HT).
    destruct (List.find _ deps) as [d|] eqn:Hf.
    + split; [|by eexists]. intros _.
      apply find_unsuppressed in Hf as (Hq & Hsup & Hin).
      unfold delayed_qualifies in Hq. apply andb_true_iff in Hq as [Hd Hm].
      unfold gt, lt in Hm. destruct (delay_minutes d) as [delay|] eqn:Ed; [|done].
      exists d, delay. split; [done|]. split; [done|]. split; [done|].
      split; [by apply Z.ltb_lt|done].
    + split; [by intros [? ?]|]. intros (dep & delay & Hin & Hp & Hd & Hm & Hsup).
      apply list_elem_of_In in Hin. apply (List.find_none _ _ Hf) in Hin.
      unfold delayed_qualifies, gt, lt in Hin. unfold passes_filter in Hp.
      rewrite Hp, Hd, (proj2 (Z.ltb_lt _ _) Hm), Hsup in Hin. done.
Qed.

End Thresholds.

(** On the busy board at 11:28:00 UTC, an instance configured with 2
    minutes fires for the line to Amersfoort, one minute away. *)
Lemma configured_threshold_witness :
  (exists ev, (_checkDepartureSoonTrigger no_host_parse onInit busy_env
                 (mkArgs (Some "8400") None (Some 2) None "always")).1 = Normal [ev]) <->
  exists dep, dep ∈ busy_board /\ passes_filter None dep = true /\
              getMinutesUntil (clock_eval busy_env) dep <= 2 /\
              suppressed (mkArgs (Some "8400") None (Some 2) None "always")
                (soon (triggeredDepartures onInit)) ("soon_" +:+ uid dep) = false.
Proof.
  refine (proj1 (configured_threshold no_host_parse onInit busy_env
                   (mkArgs (Some "8400") None (Some 2) None "always")
                   "8400" busy_board busy_api _ _ _) 2 _).
  - reflexivity.
  - reflexivity.
  - vm_compute. reflexivity.
  - right. split; [reflexivity|lia].
Defined.

(** Both loops consider exactly the departures that pass the destination
    filter and the threshold test: "departure soon" those with
    [minutesUntil <= threshold], "departure delayed" those with
    [delay_minutes > minDelay]; each fires for the first such departure that
    once-mode does not suppress. *)
Theorem loops_consider_exactly_qualifying args now destinationLower threshold triggered deps :
  soon_loop args now destinationLower threshold triggered deps
  = List.find (fun dep =>
       negb (destination_mismatch destinationLower dep)
       && (getMinutesUntil now dep <=? threshold)
       && negb (suppressed args triggered ("soon_" +:+ uid dep))) deps /\
  delayed_loop args destinationLower threshold triggered deps
  = List.find (fun dep =>
       negb (destination_mismatch destinationLower dep)
       && gt (delay_minutes dep) (Num threshold)
       && negb (suppressed args triggered ("delayed_" +:+ uid dep))) deps.
Proof. split; [apply soon_loop_find|apply delayed_loop_find]. Qed.

(** C4 fails on the code at a configured threshold of 0, which [||]
    replaces by the default 5.  With the bus three minutes away and three
    minutes late at 11:28:00 UTC: the "departure soon" card of an instance
    configured with 0 minutes fires although 3 > 0, and the "departure
    delayed" card of an instance configured with a minimal delay of 0 does
    not fire although the delay of 3 exceeds 0. *)
Theorem zero_threshold_replaced_by_default :
  minutes zero_args = Some 0 /\ min_delay zero_args = Some 0 /\
  number_or_5 (Some 0) = 5 /\
  (getDepartures no_host_parse new_OVApi 1749900480000
     (Resolved (Some (payload_of near_pass))) "8400" None).1
  = Normal [mkDeparture "12" "Utrecht CS" planned "11:28" "11:31" (Num 3) bus "QBUZZ"
              1749900660000 "8400_12_Utrecht CS_1749900480000"] /\
  match (_checkDepartureSoonTrigger no_host_parse onInit
           (env_at 1749900480000 near_pass) zero_args).1 with
  | Normal events => map (fun ev => tk_minutes_until (tokens ev)) events = [Some 3]
  | Throw _ => False
  end /\
  (_checkDepartureDelayedTrigger no_host_parse onInit
     (env_at 1749900480000 near_pass) zero_args).1 = Normal [].
Proof. vm_compute. repeat split; reflexivity. Qed.

(** C1 fails on the code for a departure that is more than an hour late.
    Two consecutive poll ticks with one once-mode instance of each card and
    the late bus on the board: both cards fire on both ticks for the same
    uid, because the cleanup at the end of each tick removes the keys just
    recorded (the planned instant they embed is over an hour old), so the
    sets are empty again when the next tick starts. *)
Theorem once_mode_refires_after_cleanup :
  trigger_mode once_args = "once" /\
  map (map event_key) (run no_host_parse onInit late_polls).1
  = [["soon_8400_12_Utrecht CS_1749891600000"; "delayed_8400_12_Utrecht CS_1749891600000"];
     ["soon_8400_12_Utrecht CS_1749891600000"; "delayed_8400_12_Utrecht CS_1749891600000"]] /\
  elements (soon (triggeredDepartures
                    (_checkTriggers no_host_parse onInit
                       [(once_args, env_at 1749898860000 late_pass)]
                       [(once_args, env_at 1749898860000 late_pass)] 1749898860000).2))
  = [].
Proof. vm_compute. repeat split; reflexivity. Qed.

(** ** Once-mode across polls *)

Section OnceMode.
Variable host : string -> Date.
Variable key : string.

Lemma Kind_eqb_eq a b : Kind_eqb a b = true <-> a = b.
Proof. destruct a, b; simpl; split; congruence. Qed.

Lemma firings_app k ev1 ev2 : firings k key (ev1 ++ ev2) = firings k key ev1 ++ firings k key ev2.
Proof. apply List.filter_app. Qed.

Lemma firings_singleton k ev :
  firings k key [ev] = if Kind_eqb (kind ev) k && String.eqb (event_key ev) key then [ev] else [].
Proof. unfold firings. simpl. by destruct (_ && _). Qed.

Lemma once_step_refl k app : once_step k key app [] app.
Proof. repeat split; simpl; (done || lia). Qed.

Lemma once_step_trans k app1 ev1 app2 ev2 app3 :
  once_step k key app1 ev1 app2 -> once_step k key app2 ev2 app3 ->
  once_step k key app1 (ev1 ++ ev2) app3.
Proof.
  intros (H1a & H1b & H1c) (H2a & H2b & H2c). unfold once_step. rewrite firings_app.
  split; [|split].
  - intros Hin. destruct (H1a Hin) as [-> Hin2]. destruct (H2a Hin2) as [-> Hin3]. done.
  - destruct (firings k key ev1) as [|e1 l1] eqn:E1.
    + simpl. lia.
    + destruct (H2a (H1c ltac:(done))) as [-> _]. rewrite app_nil_r. done.
  - intros Hne. destruct (firings k key ev1) as [|e1 l1] eqn:E1.
    + apply H2c. by rewrite app_nil_l in Hne.
    + by destruct (H2a (H1c ltac:(done))) as [_ ?].
Qed.

Lemma check_same_kind_once k app env args :
  trigger_mode args = "once" ->
  exists events app',
    check k host app env args = (Normal events, app') /\ once_step k key app events app'.
Proof.
  intros Honce. destruct (check_inv host k app env args) as (events & app' & E & H).
  exists events, app'. split; [done|].
  destruct H as [[-> Heq]|(ev & deps & api' & -> & Hk & _ & _ & Hsup & Hset & _)].
  { unfold once_step, triggered_set. rewrite Heq. repeat split; simpl; (done || lia). }
  unfold suppressed in Hsup. rewrite Honce in Hsup. simpl in Hsup.
  apply bool_decide_eq_false in Hsup.
  unfold once_step. rewrite firings_singleton, Hk.
  rewrite (proj2 (Kind_eqb_eq k k) eq_refl). simpl.
  destruct (String.eqb_spec (event_key ev) key) as [Hkey|Hkey].
  - subst key. split; [done|]. split; [simpl; lia|]. intros _.
    rewrite Hset. apply elem_of_union. left. by apply elem_of_singleton.
  - split; [|split; [simpl; lia|done]]. intros Hin. split; [done|].
    rewrite Hset. apply elem_of_union. by right.
Qed.

Lemma check_other_kind k k' app env args :
  k' <> k ->
  exists events app',
    check k' host app env args = (Normal events, app') /\
    firings k key events = [] /\ triggered_set k app' = triggered_set k app.
Proof.
  intros Hk. destruct (check_inv host k' app env args) as (events & app' & E & H).
  exists events, app'. split; [done|].
  destruct H as [[-> Heq]|(ev & deps & api' & -> & Hkind & _ & _ & _ & _ & Hother)].
  { split; [done|]. unfold triggered_set. by rewrite Heq. }
  split; [|by apply Hother].
  rewrite firings_singleton.
  destruct (Kind_eqb (kind ev) k) eqn:Ek; [|done].
  apply Kind_eqb_eq in Ek. congruence.
Qed.

Lemma for_each_same_kind_once k app instances :
  (forall args env, (args, env) ∈ instances -> trigger_mode args = "once") ->
  exists events app',
    for_each (check k host) app instances = (events, None, app') /\
    once_step k key app events app'.
Proof.
  revert app. induction instances as [|[args env] rest IH]; intros app Hall.
  { eexists _, _. split; [done|apply once_step_refl]. }
  destruct (check_same_kind_once k app env args) as (ev1 & app1 & E1 & H1).
  { apply (Hall args env). apply list_elem_of_here. }
  destruct (IH app1) as (ev2 & app2 & E2 & H2).
  { intros a e Hin. apply (Hall a e). by apply list_elem_of_further. }
  exists (ev1 ++ ev2), app2. split; [|by eapply once_step_trans].
  simpl. by rewrite E1, E2.
Qed.

Lemma for_each_other_kind k k' app instances :
  k' <> k ->
  exists events app',
    for_each (check k' host) app instances = (events, None, app') /\
    firings k key events = [] /\ triggered_set k app' = triggered_set k app.
Proof.
  intros Hk. revert app. induction instances as [|[args env] rest IH]; intros app.
  { by eexists _, _. }
  destruct (check_other_kind k k' app env args Hk) as (ev1 & app1 & E1 & F1 & S1).
  destruct (IH app1) as (ev2 & app2 & E2 & F2 & S2).
  exists (ev1 ++ ev2), app2. split; [simpl; by rewrite E1, E2|].
  split; [by rewrite firings_app, F1, F2|congruence].
Qed.

Lemma other_kind_step k app events app' :
  firings k key events = [] -> triggered_set k app' = triggered_set k app ->
  once_step k key app events app'.
Proof.
  intros F S. unfold once_step. rewrite F, S. repeat split; simpl; (done || lia).
Qed.

Lemma cleanup_keeps now triggered :
  expired (now - 60 * 60 * 1000) key = false ->
  (key ∈ soon triggered -> key ∈ soon (_cleanupTriggeredDepartures now triggered)) /\
  (key ∈ delayed triggered -> key ∈ delayed (_cleanupTriggeredDepartures now triggered)).
Proof.
  intros He. unfold _cleanupTriggeredDepartures. simpl.
  split; intros Hin; by apply elem_of_filter.
Qed.

Lemma tick_once_step k app tick :
  (forall args env, (args, env) ∈ instances_of k tick -> trigger_mode args = "once") ->
  expired (clock_cleanup tick - 60 * 60 * 1000) key = false ->
  once_step k key app
    (_checkTriggers host app (soonArgs tick) (delayedArgs tick) (clock_cleanup tick)).1
    (_checkTriggers host app (soonArgs tick) (delayedArgs tick) (clock_cleanup tick)).2.
Proof.
  intros Hall He. unfold _checkTriggers.
  assert (exists ev1 app1 ev2 app2,
            for_each (check Soon host) app (soonArgs tick) = (ev1, None, app1) /\
            for_each (check Delayed host) app1 (delayedArgs tick) = (ev2, None, app2) /\
            once_step k key app (ev1 ++ ev2) app2) as (ev1 & app1 & ev2 & app2 & E1 & E2 & Hstep).
  { destruct k.
    - destruct (for_each_same_kind_once Soon app (soonArgs tick) Hall) as (ev1 & app1 & E1 & H1).
      destruct (for_each_other_kind Soon Delayed app1 (delayedArgs tick) ltac:(done))
        as (ev2 & app2 & E2 & F2 & S2).
      exists ev1, app1, ev2, app2. split; [done|]. split; [done|].
      apply (once_step_trans Soon app ev1 app1 ev2 app2 H1). by apply other_kind_step.
    - destruct (for_each_other_kind Delayed Soon app (soonArgs tick) ltac:(done))
        as (ev1 & app1 & E1 & F1 & S1).
      destruct (for_each_same_kind_once Delayed app1 (delayedArgs tick) Hall) as (ev2 & app2 & E2 & H2).
      exists ev1, app1, ev2, app2. split; [done|]. split; [done|].
      refine (once_step_trans Delayed app ev1 app1 ev2 app2 _ H2). by apply other_kind_step. }
  simpl in E1, E2. rewrite E1, E2. simpl.
  destruct Hstep as (Ha & Hb & Hc).
  destruct (cleanup_keeps (clock_cleanup tick) (triggeredDepartures app2) He) as [Ks Kd].
  assert (Hkeep : key ∈ triggered_set k app2 ->
            key ∈ triggered_set k
                    (mkApp (api app2)
                       (_cleanupTriggeredDepartures (clock_cleanup tick) (triggeredDepartures app2)))).
  { destruct k; simpl; auto. }
  split; [|split; [done|auto]].
  intros Hin. destruct (Ha Hin). auto.
Qed.

Lemma run_once_step k app ticks :
  (forall tick args env,
     tick ∈ ticks -> (args, env) ∈ instances_of k tick -> trigger_mode args = "once") ->
  (forall tick, tick ∈ ticks -> expired (clock_cleanup tick - 60 * 60 * 1000) key = false) ->
  once_step k key app (concat (run host app ticks).1) (run host app ticks).2.
Proof.
  revert app. induction ticks as [|tick rest IH]; intros app Hall He.
  { apply once_step_refl. }
  pose proof (tick_once_step k app tick
                (fun a e => Hall tick a e (list_elem_of_here _ _))
                (He tick (list_elem_of_here _ _))) as H1.
  simpl.
  destruct (_checkTriggers host app (soonArgs tick) (delayedArgs tick) (clock_cleanup tick))
    as [events app1].
  specialize (IH app1 (fun t a e Ht => Hall t a e (list_elem_of_further _ _ _ Ht))
                (fun t Ht => He t (list_elem_of_further _ _ _ Ht))).
  destruct (run host app1 rest) as [later app2]. simpl in *.
  by eapply once_step_trans.
Qed.

(** In a run whose instances of one card are all in once-mode, a key of
    that card that no cleanup pass finds expired is fired for at most once
    across all polls. *)
Theorem once_mode_fires_once_while_key_is_kept k app ticks :
  (forall tick args env,
     tick ∈ ticks -> (args, env) ∈ instances_of k tick -> trigger_mode args = "once") ->
  (forall tick, tick ∈ ticks -> expired (clock_cleanup tick - 60 * 60 * 1000) key = false) ->
  (length (firings k key (concat (run host app ticks).1)) <= 1)%nat.
Proof. intros Hall He. by destruct (run_once_step k app ticks Hall He) as (_ & H & _). Qed.

End OnceMode.

(** The bus that is three minutes late fires the "departure soon" card of a
    once-mode instance at most once in three polls. *)
Lemma once_mode_fires_once_witness :
  (length (firings Soon "soon_8400_12_Utrecht CS_1749900480000"
             (concat (run no_host_parse onInit (near_polls once_args)).1)) <= 1)%nat.
Proof.
  apply (once_mode_fires_once_while_key_is_kept no_host_parse
           "soon_8400_12_Utrecht CS_1749900480000" Soon onInit (near_polls once_args)).
  - intros tick args env Ht Hi.
    repeat (apply elem_of_cons in Ht as [->|Ht]); [..|by apply elem_of_nil in Ht];
      simpl in Hi; apply list_elem_of_singleton in Hi; by injection Hi as -> _.
  - intros tick Ht.
    repeat (apply elem_of_cons in Ht as [->|Ht]); [..|by apply elem_of_nil in Ht];
      vm_compute; reflexivity.
Defined.

(** Three consecutive polls with a bus that stays within the threshold: in
    once-mode the "departure soon" card fires on the first poll only, in
    always-mode on every poll. *)
Example three_polls_once_and_always :
  map (map event_key) (run no_host_parse onInit (near_polls once_args)).1
  = [["soon_8400_12_Utrecht CS_1749900480000"]; []; []] /\
  map (map event_key) (run no_host_parse onInit (near_polls always_args)).1
  = [["soon_8400_12_Utrecht CS_1749900480000"];
     ["soon_8400_12_Utrecht CS_1749900480000"];
     ["soon_8400_12_Utrecht CS_1749900480000"]].
Proof. vm_compute. split; reflexivity. Qed.

(** * Further properties of the client and the flow cards *)

(** ** Letter case: [_mapStatus] and [_mapTransportType] *)

Section LetterCase.

Lemma upper_lower_char c : upper_char (lower_char c) = upper_char c.
Proof. destruct c as [[] [] [] [] [] [] [] []]; reflexivity. Qed.

Lemma lower_upper_char c : lower_char (upper_char c) = lower_char c.
Proof. destruct c as [[] [] [] [] [] [] [] []]; reflexivity. Qed.

Lemma lower_lower_char c : lower_char (lower_char c) = lower_char c.
Proof. destruct c as [[] [] [] [] [] [] [] []]; reflexivity. Qed.

Lemma upper_upper_char c : upper_char (upper_char c) = upper_char c.
Proof. destruct c as [[] [] [] [] [] [] [] []]; reflexivity. Qed.

Lemma toUpperCase_toLowerCase s : toUpperCase (toLowerCase s) = toUpperCase s.
Proof. induction s as [|c s IH]; [done|]. cbn [toLowerCase toUpperCase]. by rewrite upper_lower_char, IH. Qed.

Lemma toLowerCase_toUpperCase s : toLowerCase (toUpperCase s) = toLowerCase s.
Proof. induction s as [|c s IH]; [done|]. cbn [toLowerCase toUpperCase]. by rewrite lower_upper_char, IH. Qed.

Lemma toLowerCase_idem s : toLowerCase (toLowerCase s) = toLowerCase s.
Proof. induction s as [|c s IH]; [done|]. cbn [toLowerCase]. by rewrite lower_lower_char, IH. Qed.

Lemma toUpperCase_idem s : toUpperCase (toUpperCase s) = toUpperCase s.
Proof. induction s as [|c s IH]; [done|]. cbn [toUpperCase]. by rewrite upper_upper_char, IH. Qed.

Lemma toUpperCase_length s : String.length (toUpperCase s) = String.length s.
Proof. induction s; simpl; congruence. Qed.

Lemma toLowerCase_nonempty s : nonempty (toLowerCase s) = nonempty s.
Proof. by destruct s. Qed.

(** [_mapStatus] and [_mapTransportType] disregard the letter case of their
    argument.  A status is [passed] exactly when it spells PASSED,
    [cancelled] when it spells CANCEL, [planned] when it spells PLANNED,
    DRIVING or ARRIVED, and [unknown] otherwise; a transport type is [train]
    for "trein" and "train", [ferry] for "ferry" and "veer", [tram] and
    [metro] for their own names, and [bus] for everything else. *)
Theorem status_and_transport_ignore_letter_case s :
  _mapStatus (toLowerCase s) = _mapStatus s /\
  _mapStatus (toUpperCase s) = _mapStatus s /\
  _mapTransportType (toLowerCase s) = _mapTransportType s /\
  _mapTransportType (toUpperCase s) = _mapTransportType s /\
  (_mapStatus s = passed <-> toUpperCase s = "PASSED") /\
  (_mapStatus s = cancelled <-> toUpperCase s = "CANCEL") /\
  (_mapStatus s = planned <->
     toUpperCase s = "PLANNED" \/ toUpperCase s = "DRIVING" \/ toUpperCase s = "ARRIVED") /\
  (_mapTransportType s = train <-> toLowerCase s = "trein" \/ toLowerCase s = "train") /\
  (_mapTransportType s = ferry <-> toLowerCase s = "ferry" \/ toLowerCase s = "veer") /\
  (_mapTransportType s = tram <-> toLowerCase s = "tram") /\
  (_mapTransportType s = metro <-> toLowerCase s = "metro").
Proof.
  unfold _mapStatus, _mapTransportType.
  rewrite toUpperCase_toLowerCase, toUpperCase_idem, toLowerCase_idem, toLowerCase_toUpperCase.
  do 4 (split; [done|]).
  set (u := toUpperCase s). set (l := toLowerCase s).
  repeat split.
  all: repeat match goal with
       | |- context [String.eqb ?a ?b] => destruct (String.eqb_spec a b)
       end; simpl; intros; try discriminate; try congruence; try tauto; intuition congruence.
Qed.

End LetterCase.

(** ** Displayed times: [_formatTime] after [_parseDateTime] *)

Section Formatting.

Lemma digit_char_digit k :
  0 <= k <= 9 -> is_digit (digit_char k) = true /\ digit_value (digit_char k) = k.
Proof.
  intros Hk.
  assert (Hc : k = 0 \/ k = 1 \/ k = 2 \/ k = 3 \/ k = 4 \/ k = 5 \/ k = 6 \/ k = 7
               \/ k = 8 \/ k = 9) by lia.
  destruct Hc as [->|[->|[->|[->|[->|[->|[->|[->|[->| ->]]]]]]]]]; split; reflexivity.
Qed.

Lemma pad2_digits n :
  0 <= n <= 99 ->
  exists a b, pad2 n = String a (String b EmptyString) /\
              is_digit a = true /\ is_digit b = true /\ two_digits a b = n.
Proof.
  intros Hn. exists (digit_char (n / 10)), (digit_char (n mod 10)).
  destruct (digit_char_digit (n / 10)) as [Ha Va]; [Z.div_mod_to_equations; lia|].
  destruct (digit_char_digit (n mod 10)) as [Hb Vb]; [Z.div_mod_to_equations; lia|].
  split; [done|]. split; [done|]. split; [done|].
  unfold two_digits. rewrite Va, Vb. Z.div_mod_to_equations; lia.
Qed.

Lemma _formatTime_valid t :
  _formatTime (mkDate (Num t)) = clock_text ((t / 60000) mod 1440).
Proof.
  unfold _formatTime, toLocaleTimeString_HHMM, getHours, getMinutes, on_time, clock_text.
  cbn [getTime]. f_equal; [|f_equal]; f_equal; Z.div_mod_to_equations; lia.
Qed.

(** [_formatTime] of a valid date is five characters, two digits, a colon
    and two digits, which read back as the hour (0 to 23) and the minute of
    the date's instant on the UTC clock; of an invalid date it is the text
    "Invalid Date". *)
Theorem formatTime_reads_back :
  (forall t, exists h1 h2 m1 m2,
     _formatTime (mkDate (Num t))
     = String h1 (String h2 (String ":" (String m1 (String m2 EmptyString)))) /\
     forallb is_digit [h1; h2; m1; m2] = true /\
     two_digits h1 h2 = (t / 3600000) mod 24 /\
     two_digits m1 m2 = (t / 60000) mod 60) /\
  _formatTime (mkDate NaN) = "Invalid Date".
Proof.
  split; [|done]. intros t.
  unfold _formatTime, toLocaleTimeString_HHMM, getHours, getMinutes, on_time. cbn [getTime].
  destruct (pad2_digits ((t / 3600000) mod 24)) as (h1 & h2 & E1 & D1 & D2 & V1);
    [Z.div_mod_to_equations; lia|].
  destruct (pad2_digits ((t / 60000) mod 60)) as (m1 & m2 & E2 & D3 & D4 & V2);
    [Z.div_mod_to_equations; lia|].
  exists h1, h2, m1, m2. rewrite E1, E2. split; [done|].
  split; [|done]. cbn [forallb]. by rewrite D1, D2, D3, D4.
Qed.

End Formatting.

Section Display.

Variable host : string -> Date.

Lemma shown_minute_utc_ms f :
  valid_fields f = true ->
  ((utc_ms f - amsterdam_offset f * 60000) / 60000) mod 1440 = shown_minute f.
Proof.
  intros Hv. pose proof (valid_fields_inv f Hv) as (_ & _ & Hh & Hn & Hs).
  unfold shown_minute, utc_ms, MakeDate, MakeTime, msPerDay.
  set (day := MakeDay _ _ _). set (off := amsterdam_offset f).
  Z.div_mod_to_equations; lia.
Qed.

(** The [planned_time] and [expected_time] of a departure whose raw time is
    a date-time without offset show that time moved back by the Amsterdam
    offset (one hour in winter, two in summer): the instant is rendered on
    the clock of the host, which is UTC. *)
Theorem times_are_shown_in_utc code raw dep s f :
  map_departure host code raw = Some dep ->
  naive_iso_fields s = Some f -> valid_fields f = true -> 100 <= f_year f ->
  (TargetDepartureTime raw = Some s -> planned_time dep = clock_text (shown_minute f)) /\
  (ExpectedDepartureTime raw = Some s -> expected_time dep = clock_text (shown_minute f)).
Proof.
  intros Hdep Hs Hv Hy.
  pose proof (_parseDateTime_naive host s f Hs Hv Hy) as Hp.
  unfold map_departure in Hdep. destruct (_ || _); [done|]. injection Hdep as <-.
  cbn [planned_time expected_time].
  split; intros ->; rewrite Hp, _formatTime_valid; by rewrite shown_minute_utc_ms.
Qed.

(** [_parseDateTime] is [null] for an absent or empty string only.  A
    string that carries a zone marker (a "Z", a "+", or a minus sign behind
    hh:mm:ss) is the date the host parses, unadjusted.  A string the host
    cannot parse gives an invalid date, not [null]: it is displayed as
    "Invalid Date" and counts as 0 in a timestamp or uid. *)
Theorem parseDateTime_null_only_when_absent :
  _parseDateTime host None = None /\
  _parseDateTime host (Some "") = None /\
  (forall s, nonempty s = true -> exists d, _parseDateTime host (Some s) = Some d) /\
  (forall s, nonempty s = true ->
     includes s "Z" = true \/ includes s "+" = true \/ test_hms_minus s = true ->
     _parseDateTime host (Some s) = Some (Date_of_string host s)) /\
  (forall s, nonempty s = true ->
     getTime (Date_of_string host s) = NaN ->
     exists d, _parseDateTime host (Some s) = Some d /\ getTime d = NaN /\
               _formatTime d = "Invalid Date" /\ time_or (Some d) 0 = 0).
Proof.
  split; [done|]. split; [done|]. split; [|split].
  - intros s Hs. unfold _parseDateTime. rewrite Hs. cbn [negb].
    destruct (_ && _); by eexists.
  - intros s Hs H. unfold _parseDateTime. rewrite Hs. cbn [negb].
    destruct (includes s "Z"); [done|]. destruct (includes s "+"); [done|].
    destruct (test_hms_minus s); [done|]. by destruct H as [?|[?|?]].
  - intros s Hs Hnan. unfold _parseDateTime. rewrite Hs. cbn [negb].
    destruct (_ && _).
    + eexists. split; [done|]. rewrite Hnan. done.
    + exists (Date_of_string host s). split; [done|]. split; [done|].
      unfold _formatTime, toLocaleTimeString_HHMM, getHours, getMinutes, on_time, time_or.
      rewrite Hnan. done.
Qed.

End Display.

(** 11:00 on 14 June 2025 is displayed as 09:00. *)
Lemma times_are_shown_in_utc_witness :
  (TargetDepartureTime late_pass = Some "2025-06-14T11:00:00" ->
   planned_time late_departure = clock_text (shown_minute (mkFields 2025 6 14 11 0 0))) /\
  (ExpectedDepartureTime late_pass = Some "2025-06-14T11:00:00" ->
   expected_time late_departure = clock_text (shown_minute (mkFields 2025 6 14 11 0 0))).
Proof.
  apply (times_are_shown_in_utc no_host_parse "8400" late_pass late_departure
           "2025-06-14T11:00:00" (mkFields 2025 6 14 11 0 0)).
  - vm_compute. reflexivity.
  - reflexivity.
  - reflexivity.
  - simpl. lia.
Defined.

Section Delay.

Variable host : string -> Date.

(** The [delay_minutes] of a departure whose planned and expected times are
    date-times without offset is the rounded difference, in minutes, of the
    two normalized instants: the difference of the two wall clocks less the
    difference of their Amsterdam offsets.  When both times have the same
    offset it is the difference of the wall clocks, and exact when their
    seconds agree. *)
Theorem delay_is_wall_clock_difference code raw dep sp fp se fe :
  map_departure host code raw = Some dep ->
  TargetDepartureTime raw = Some sp -> ExpectedDepartureTime raw = Some se ->
  naive_iso_fields sp = Some fp -> valid_fields fp = true -> 100 <= f_year fp ->
  naive_iso_fields se = Some fe -> valid_fields fe = true -> 100 <= f_year fe ->
  delay_minutes dep
  = Num (round_div (utc_ms fe - utc_ms fp
                    - (amsterdam_offset fe - amsterdam_offset fp) * 60000) 60000) /\
  (amsterdam_offset fe = amsterdam_offset fp ->
   delay_minutes dep = Num (round_div (utc_ms fe - utc_ms fp) 60000)) /\
  (amsterdam_offset fe = amsterdam_offset fp -> f_second fe = f_second fp ->
   delay_minutes dep = Num ((utc_ms fe - utc_ms fp) / 60000) /\
   (utc_ms fe - utc_ms fp) mod 60000 = 0).
Proof.
  intros Hdep Hp He Hsp Hvp Hyp Hse Hve Hye.
  pose proof (_parseDateTime_naive host sp fp Hsp Hvp Hyp) as Ep.
  pose proof (_parseDateTime_naive host se fe Hse Hve Hye) as Ee.
  unfold map_departure in Hdep. rewrite Hp, He, Ep, Ee in Hdep.
  destruct (_ || _); [done|]. injection Hdep as <-.
  cbn [delay_minutes getTime sub Math_round_div].
  assert (E : utc_ms fe - amsterdam_offset fe * 60000 - (utc_ms fp - amsterdam_offset fp * 60000)
              = utc_ms fe - utc_ms fp - (amsterdam_offset fe - amsterdam_offset fp) * 60000)
    by lia.
  rewrite E. split; [done|]. split.
  - intros ->. do 2 f_equal. lia.
  - intros -> Hsec.
    replace (utc_ms fe - utc_ms fp - (amsterdam_offset fp - amsterdam_offset fp) * 60000)
      with (utc_ms fe - utc_ms fp) by lia.
    unfold utc_ms, MakeDate, MakeTime, msPerDay, round_div. rewrite Hsec.
    set (de := MakeDay _ _ _). set (dp := MakeDay _ _ _).
    split; [f_equal|]; Z.div_mod_to_equations; lia.
Qed.

End Delay.

(** The bus planned for 13:28 and expected at 13:31. *)
Lemma delay_is_wall_clock_difference_witness :
  delay_minutes to_utrecht
  = Num (round_div (utc_ms (mkFields 2025 6 14 13 31 0) - utc_ms (mkFields 2025 6 14 13 28 0)
                    - (amsterdam_offset (mkFields 2025 6 14 13 31 0)
                       - amsterdam_offset (mkFields 2025 6 14 13 28 0)) * 60000) 60000).
Proof.
  refine (proj1 (delay_is_wall_clock_difference no_host_parse "8400" near_pass to_utrecht
                   "2025-06-14T13:28:00" (mkFields 2025 6 14 13 28 0)
                   "2025-06-14T13:31:00" (mkFields 2025 6 14 13 31 0)
                   _ _ _ _ _ _ _ _ _)).
  - vm_compute. reflexivity.
  - reflexivity.
  - reflexivity.
  - reflexivity.
  - reflexivity.
  - simpl. lia.
  - reflexivity.
  - reflexivity.
  - simpl. lia.
Defined.

(** ** The departures cache of [getDepartures] *)

Section StableSort.

Context {A : Type} (key : A -> Z).

Lemma filter_insert_by t x l :
  List.filter (fun a => key a =? t) (insert_by key x l)
  = if key x =? t then x :: List.filter (fun a => key a =? t) l
    else List.filter (fun a => key a =? t) l.
Proof.
  induction l as [|y l IH]; [done|].
  cbn [insert_by]. destruct (key x <=? key y) eqn:E; [done|].
  apply Z.leb_gt in E. cbn [List.filter]. rewrite IH.
  destruct (key x =? t) eqn:Ex; [|done].
  apply Z.eqb_eq in Ex. by rewrite (proj2 (Z.eqb_neq (key y) t)) by lia.
Qed.

(** The sort keeps elements of equal key in their original order. *)
Lemma sort_by_stable t l :
  List.filter (fun a => key a =? t) (sort_by key l) = List.filter (fun a => key a =? t) l.
Proof.
  induction l as [|x l IH]; [done|].
  cbn [sort_by foldr List.filter]. rewrite filter_insert_by. fold (sort_by key l).
  by rewrite IH.
Qed.

Lemma sorted_head_least l first a :
  StronglySorted (key_le key) l -> head l = Some first -> a ∈ l -> key first <= key a.
Proof.
  intros Hs Hh Ha. destruct l as [|x l]; [done|]. injection Hh as ->.
  apply StronglySorted_inv in Hs as [_ Hall].
  apply elem_of_cons in Ha as [->|Ha]; [lia|].
  rewrite Forall_forall in Hall. by apply Hall.
Qed.

End StableSort.

Lemma slice0_all {A} (l : list A) e : Z.of_nat (length l) <= e -> slice0 l e = l.
Proof.
  intros H. unfold slice0. rewrite (proj2 (Z.ltb_ge e 0)) by lia.
  apply take_ge. lia.
Qed.

Section DeparturesCache.

Variable host : string -> Date.

Lemma getDepartures_fresh api now payload code limit :
  nonempty code = true -> fresh_entry api now code = None ->
  getDepartures host api now (Resolved (Some payload)) code limit
  = (Normal (slice0 (sort_by timestamp (kept host payload code)) (default 10 limit)),
     mkApi (stopAreasCache api) (stopAreasCacheTime api)
           (settings_stopAreasCache api) (settings_stopAreasCacheTime api)
           (<[code := mkCacheEntry now (sort_by timestamp (kept host payload code))]>
              (departuresCache api))).
Proof. intros Hne Hf. unfold getDepartures. by rewrite Hne, Hf. Qed.

Lemma fresh_entry_insert api now now' code all sa st ss sst :
  fresh_entry (mkApi sa st ss sst (<[code := mkCacheEntry now all]> (departuresCache api)))
              now' code
  = if now' - now <? DEPARTURES_CACHE_TTL then Some (mkCacheEntry now all) else None.
Proof. unfold fresh_entry. cbn [departuresCache]. by rewrite lookup_insert_eq. Qed.

(** After a request that completed at [now], every call for the same stop
    area less than 30 seconds later is answered from the cache: it returns
    the first [limit] of the same sorted list, whatever limit the first call
    had, makes no request and leaves the state alone.  From 30 seconds on a
    new request is made; if it fails the result is empty, the expired entry
    is not served. *)
Theorem getDepartures_served_from_cache api now payload code limit :
  nonempty code = true -> fresh_entry api now code = None ->
  let all := sort_by timestamp (kept host payload code) in
  let api1 := (getDepartures host api now (Resolved (Some payload)) code limit).2 in
  (getDepartures host api now (Resolved (Some payload)) code limit).1
  = Normal (slice0 all (default 10 limit)) /\
  (forall now' response' limit',
     now' - now < 30000 ->
     getDepartures host api1 now' response' code limit'
     = (Normal (slice0 all (default 10 limit')), api1)) /\
  (forall now' payload' limit',
     30000 <= now' - now ->
     (getDepartures host api1 now' (Resolved (Some payload')) code limit').1
     = Normal (slice0 (sort_by timestamp (kept host payload' code)) (default 10 limit'))) /\
  (forall now' message limit',
     30000 <= now' - now ->
     getDepartures host api1 now' (Rejected message) code limit' = (Normal [], api1)).
Proof.
  intros Hne Hf all api1. subst api1. rewrite (getDepartures_fresh api now payload code limit Hne Hf).
  cbn [fst snd]. fold all. split; [done|]. split; [|split].
  - intros now' response' limit' Hage. unfold getDepartures. rewrite Hne. cbn [negb].
    rewrite fresh_entry_insert. unfold DEPARTURES_CACHE_TTL.
    by rewrite (proj2 (Z.ltb_lt _ _)) by lia.
  - intros now' payload' limit' Hage. rewrite getDepartures_fresh; [done|done|].
    rewrite fresh_entry_insert. unfold DEPARTURES_CACHE_TTL.
    by rewrite (proj2 (Z.ltb_ge _ _)) by lia.
  - intros now' message limit' Hage. unfold getDepartures. rewrite Hne. cbn [negb].
    rewrite fresh_entry_insert. unfold DEPARTURES_CACHE_TTL.
    by rewrite (proj2 (Z.ltb_ge _ _)) by lia.
Qed.

(** A call of [getDepartures] changes at most the cache entry of its own
    stop area, which it leaves as it is or replaces by one stamped [now];
    no entry is ever removed, and the stop directory is not touched. *)
Theorem getDepartures_touches_one_entry api now response code limit :
  let api' := (getDepartures host api now response code limit).2 in
  (forall other, other <> code ->
     departuresCache api' !! other = departuresCache api !! other) /\
  (forall key, is_Some (departuresCache api !! key) -> is_Some (departuresCache api' !! key)) /\
  (departuresCache api' !! code = departuresCache api !! code \/
   exists all, departuresCache api' !! code = Some (mkCacheEntry now all)) /\
  stopAreasCache api' = stopAreasCache api /\
  stopAreasCacheTime api' = stopAreasCacheTime api /\
  settings_stopAreasCache api' = settings_stopAreasCache api /\
  settings_stopAreasCacheTime api' = settings_stopAreasCacheTime api.
Proof.
  intros api'. subst api'. unfold getDepartures.
  destruct (negb (nonempty code)); [by auto 10|].
  destruct (fresh_entry api now code); [by auto 10|].
  unfold getDepartures_try. destruct response as [msg|[payload|]]; [by auto 10| |by auto 10].
  cbn [snd departuresCache stopAreasCache stopAreasCacheTime settings_stopAreasCache
       settings_stopAreasCacheTime].
  split; [|split; [|split; [|done]]].
  - intros other Hne. by rewrite lookup_insert_ne.
  - intros key Hkey. destruct (decide (code = key)) as [->|Hne].
    + rewrite lookup_insert_eq. by eexists.
    + by rewrite lookup_insert_ne.
  - right. eexists. by rewrite lookup_insert_eq.
Qed.

(** The list of a completed request is a stable sort of the departures kept
    from the payload: a permutation of them in ascending order of
    timestamp, departures with equal timestamps in payload order, so its
    first element has the least timestamp of all; nothing is cut off when
    the limit is not below their number. *)
Theorem getDepartures_is_stable_sort_of_payload api now payload code limit :
  nonempty code = true -> fresh_entry api now code = None ->
  exists all,
    (getDepartures host api now (Resolved (Some payload)) code limit).1
    = Normal (slice0 all (default 10 limit)) /\
    all ≡ₚ kept host payload code /\
    ascending timestamp all /\
    (forall t, List.filter (fun d => timestamp d =? t) all
               = List.filter (fun d => timestamp d =? t) (kept host payload code)) /\
    (forall first d, head all = Some first -> d ∈ kept host payload code ->
                     timestamp first <= timestamp d) /\
    (Z.of_nat (length (kept host payload code)) <= default 10 limit ->
     slice0 all (default 10 limit) = all).
Proof.
  intros Hne Hf. exists (sort_by timestamp (kept host payload code)).
  rewrite (getDepartures_fresh api now payload code limit Hne Hf). cbn [fst].
  split; [done|]. split; [apply sort_by_perm|].
  split; [apply StronglySorted_ascending, sort_by_sorted|].
  split; [intros t; apply sort_by_stable|]. split.
  - intros first d Hh Hd. eapply (sorted_head_least timestamp); [apply sort_by_sorted|done|].
    by rewrite sort_by_perm.
  - intros Hlen. apply slice0_all. by rewrite sort_by_perm.
Qed.

End DeparturesCache.

(** The late bus, fetched at 11:01:00 UTC, is still served at 11:01:29.999
    although the request would time out. *)
Lemma getDepartures_served_from_cache_witness :
  getDepartures no_host_parse
    (getDepartures no_host_parse new_OVApi 1749898860000
       (Resolved (Some (payload_of late_pass))) "8400" None).2
    1749898889999 (Rejected "Request timeout") "8400" (Some 50)
  = (Normal [late_departure],
     (getDepartures no_host_parse new_OVApi 1749898860000
        (Resolved (Some (payload_of late_pass))) "8400" None).2).
Proof.
  apply (proj1 (proj2 (getDepartures_served_from_cache no_host_parse new_OVApi 1749898860000
                         (payload_of late_pass) "8400" None eq_refl eq_refl))).
  lia.
Defined.

(** The busy board with a limit of two. *)
Lemma getDepartures_stable_sort_witness :
  exists all,
    (getDepartures no_host_parse new_OVApi 1749900480000
       (Resolved (Some busy_payload)) "8400" (Some 2)).1
    = Normal (slice0 all (default 10 (Some 2))) /\
    all ≡ₚ kept no_host_parse busy_payload "8400" /\
    ascending timestamp all /\
    (forall t, List.filter (fun d => timestamp d =? t) all
               = List.filter (fun d => timestamp d =? t) (kept no_host_parse busy_payload "8400")) /\
    (forall first d, head all = Some first -> d ∈ kept no_host_parse busy_payload "8400" ->
                     timestamp first <= timestamp d) /\
    (Z.of_nat (length (kept no_host_parse busy_payload "8400")) <= default 10 (Some 2) ->
     slice0 all (default 10 (Some 2)) = all).
Proof.
  apply (getDepartures_is_stable_sort_of_payload no_host_parse new_OVApi 1749900480000
           busy_payload "8400" (Some 2)); reflexivity.
Defined.

(** ** The stop directory: [getAllStopAreas] and [searchLocations] *)

Section StopDirectory.

(** A directory request that resolves (with a body that is [null] as well:
    the directory is then empty) is cached for 24 hours: in memory, so that
    later calls and searches make no request, and in the settings store, so
    that a restarted client makes none either. *)
Theorem stop_directory_cached_for_a_day api now data :
  memory_hit api now = None -> settings_hit api now = None ->
  let stopAreas := Object_values (default [] data) in
  let api1 := (getAllStopAreas api now (Resolved data)).2 in
  (getAllStopAreas api now (Resolved data)).1 = stopAreas /\
  (forall now' response',
     now' - now < 86400000 ->
     getAllStopAreas api1 now' response' = (stopAreas, api1)) /\
  (forall now' response',
     now <> 0 -> now' - now < 86400000 ->
     (getAllStopAreas (restarted api1) now' response').1 = stopAreas) /\
  (forall now' response1 response2 query,
     now' - now < 86400000 ->
     searchLocations api1 now' response1 query = searchLocations api1 now' response2 query).
Proof.
  intros Hm Hs stopAreas api1.
  assert (E : getAllStopAreas api now (Resolved data)
              = (stopAreas, mkApi (Some stopAreas) now (Some stopAreas) (Some now)
                              (departuresCache api))).
  { unfold getAllStopAreas. by rewrite Hm, Hs. }
  subst api1. rewrite E. cbn [fst snd].
  assert (Hhit : forall now' response', now' - now < 86400000 ->
            getAllStopAreas (mkApi (Some stopAreas) now (Some stopAreas) (Some now)
                               (departuresCache api)) now' response'
            = (stopAreas, mkApi (Some stopAreas) now (Some stopAreas) (Some now)
                            (departuresCache api))).
  { intros now' response' Hage. unfold getAllStopAreas, memory_hit.
    cbn [stopAreasCache stopAreasCacheTime]. unfold STOP_AREAS_CACHE_TTL.
    by rewrite (proj2 (Z.ltb_lt _ _)) by lia. }
  split; [done|]. split; [exact Hhit|]. split.
  - intros now' response' Hnow Hage. unfold getAllStopAreas, restarted, memory_hit, settings_hit.
    cbn [stopAreasCache stopAreasCacheTime settings_stopAreasCache settings_stopAreasCacheTime].
    unfold STOP_AREAS_CACHE_TTL.
    rewrite (proj2 (Z.eqb_neq now 0) Hnow), (proj2 (Z.ltb_lt _ _)) by lia. done.
  - intros now' response1 response2 query Hage. unfold searchLocations.
    destruct query as [q|]; [|done]. destruct (_ || _); [done|].
    by rewrite !Hhit.
Qed.

(** When the directory request fails, [getAllStopAreas] returns the
    directory it has in memory, however old, or the empty list, and stores
    nothing; [searchLocations] then searches that directory. *)
Theorem stop_directory_failure_serves_memory api now message :
  memory_hit api now = None -> settings_hit api now = None ->
  getAllStopAreas api now (Rejected message) = (default [] (stopAreasCache api), api) /\
  (stopAreasCache api = None ->
   forall query, searchLocations api now (Rejected message) query = ([], api)) /\
  (forall stale query,
     stopAreasCache api = Some stale -> 2 <= Z.of_nat (String.length query) ->
     searchLocations api now (Rejected message) (Some query)
     = (map to_location (take 15 (List.filter (stop_matches (toLowerCase query)) stale)), api)).
Proof.
  intros Hm Hs.
  assert (E : getAllStopAreas api now (Rejected message) = (default [] (stopAreasCache api), api)).
  { unfold getAllStopAreas. by rewrite Hm, Hs. }
  split; [exact E|]. split.
  - intros Hnone [q|]; [|done]. unfold searchLocations.
    destruct (_ || _); [done|]. rewrite E, Hnone. done.
  - intros stale query Hstale Hlen. unfold searchLocations.
    assert (nonempty query = true) as -> by (destruct query; [simpl in Hlen; lia|done]).
    rewrite (proj2 (Z.ltb_ge _ _) Hlen). cbn [negb orb].
    rewrite E, Hstale. done.
Qed.

(** The results of a search of two characters or more are the matching
    stop areas in directory order: a matching stop area behind fewer than
    15 other matches is returned, at the position that counts them; when at
    most 15 stop areas match, all of them are returned.  The letter case of
    the query makes no difference. *)
Theorem searchLocations_in_directory_order api now response query :
  2 <= Z.of_nat (String.length query) ->
  let directory := (getAllStopAreas api now response).1 in
  let results := (searchLocations api now response (Some query)).1 in
  (exists stops, results = map to_location stops /\ stops `sublist_of` directory) /\
  (forall before stop after,
     directory = before ++ stop :: after -> stop_contains query stop ->
     (length (List.filter (stop_matches (toLowerCase query)) before) < 15)%nat ->
     results !! length (List.filter (stop_matches (toLowerCase query)) before)
     = Some (to_location stop)) /\
  ((length (List.filter (stop_matches (toLowerCase query)) directory) <= 15)%nat ->
   forall stop, stop ∈ directory -> stop_contains query stop -> to_location stop ∈ results) /\
  searchLocations api now response (Some (toUpperCase query))
  = searchLocations api now response (Some query) /\
  searchLocations api now response (Some (toLowerCase query))
  = searchLocations api now response (Some query).
Proof.
  intros Hlen directory results. subst directory results.
  rewrite (searchLocations_long api now response query Hlen).
  set (directory := (getAllStopAreas api now response).1).
  split; [|split; [|split; [|split]]].
  - eexists. split; [done|].
    etrans; [apply sublist_take|]. clear. induction directory as [|x l IH]; [done|].
    simpl. destruct (stop_matches _ x); by constructor.
  - intros before stop after Hdir Hstop Hcount. rewrite Hdir.
    rewrite list_lookup_fmap, lookup_take_lt by done.
    rewrite filter_app_cons_lookup; [done|]. by apply stop_matches_spec.
  - intros Hcount stop Hin Hstop. rewrite take_ge by lia.
    apply list_elem_of_fmap. exists stop. split; [done|].
    apply list_elem_of_In, List.filter_In. split; [by apply list_elem_of_In|].
    by apply stop_matches_spec.
  - unfold searchLocations. rewrite toUpperCase_length, toLowerCase_toUpperCase.
    by destruct query.
  - unfold searchLocations. rewrite toLowerCase_length, toLowerCase_idem.
    by destruct query.
Qed.

End StopDirectory.

(** The crowded directory, fetched at 11:01:00 UTC, is still served one
    millisecond before 24 hours have gone by. *)
Lemma stop_directory_cached_witness :
  getAllStopAreas
    (getAllStopAreas new_OVApi 1749898860000 (Resolved (Some crowded_directory))).2
    1749985259999 (Rejected "Request timeout")
  = (Object_values crowded_directory,
     (getAllStopAreas new_OVApi 1749898860000 (Resolved (Some crowded_directory))).2).
Proof.
  apply (proj1 (proj2 (stop_directory_cached_for_a_day new_OVApi 1749898860000
                         (Some crowded_directory) eq_refl eq_refl))).
  lia.
Defined.

Lemma stop_directory_failure_witness :
  getAllStopAreas new_OVApi 1749898860000 (Rejected "Request timeout") = ([], new_OVApi).
Proof.
  apply (proj1 (stop_directory_failure_serves_memory new_OVApi 1749898860000
                  "Request timeout" eq_refl eq_refl)).
Defined.

Lemma searchLocations_in_directory_order_witness :
  searchLocations new_OVApi 0 (Resolved (Some crowded_directory)) (Some (toUpperCase "amst"))
  = searchLocations new_OVApi 0 (Resolved (Some crowded_directory)) (Some "amst").
Proof.
  apply (proj1 (proj2 (proj2 (proj2
           (searchLocations_in_directory_order new_OVApi 0 (Resolved (Some crowded_directory))
              "amst" ltac:(simpl; lia)))))).
Defined.

(** ** What a firing carries *)

Section Lists.

Lemma find_split {A} (p : A -> bool) l x :
  List.find p l = Some x ->
  exists before after, l = before ++ x :: after /\
                       Forall (fun b => p b = false) before /\ p x = true.
Proof.
  induction l as [|y l IH]; [done|]. simpl. destruct (p y) eqn:E.
  - intros [= ->]. by exists [], l.
  - intros H. destruct (IH H) as (before & after & -> & Hb & Hx).
    exists (y :: before), after. split; [done|]. split; [by constructor|done].
Qed.

Lemma find_ext {A} (p q : A -> bool) l : (forall a, p a = q a) -> List.find p l = List.find q l.
Proof. intros H. induction l as [|y l IH]; [done|]. simpl. by rewrite H, IH. Qed.

Lemma find_true_head {A} (l : list A) : List.find (fun _ => true) l = head l.
Proof. by destruct l. Qed.

Lemma existsb_elem_of {A} (p : A -> bool) l :
  existsb p l = true <-> exists a, a ∈ l /\ p a = true.
Proof.
  rewrite existsb_exists. split; intros (a & Ha & Hp); exists a; split; try done;
    by apply list_elem_of_In.
Qed.

Lemma List_filter_sublist {A} (p : A -> bool) l : List.filter p l `sublist_of` l.
Proof. induction l as [|x l IH]; [done|]. simpl. destruct (p x); by constructor. Qed.

Lemma List_filter_elem_of {A} (p : A -> bool) l x : x ∈ List.filter p l <-> x ∈ l /\ p x = true.
Proof. by rewrite !list_elem_of_In, List.filter_In. Qed.

End Lists.

Section Firing.

Variable host : string -> Date.

(** What a firing is made of. *)
Lemma check_event k app env args events app' ev :
  check k host app env args = (Normal events, app') -> ev ∈ events ->
  exists station deps api',
    station_id args = Some station /\ nonempty station = true /\
    getDepartures host (api app) (clock_fetch env) (response env) station None
    = (Normal deps, api') /\
    api app' = api' /\
    List.find (candidate k (clock_eval env) args (triggered_set k app)) deps = Some (cause ev) /\
    events = [ev] /\ cause ev ∈ deps /\ kind ev = k /\
    state ev = mkTriggerState station (destination (cause ev)) /\
    tokens ev = tokens_of k (clock_eval env) (cause ev) /\
    destination_mismatch (toLowerCase (str_or (destination_name args) "")) (cause ev) = false /\
    within_threshold k (clock_eval env) args (cause ev) = true.
Proof.
  destruct k; simpl.
  - unfold _checkDepartureSoonTrigger.
    destruct (station_id args) as [station|]; [|intros [= <- _] H; by apply elem_of_nil in H].
    destruct (nonempty station) eqn:Hne; [|intros [= <- _] H; by apply elem_of_nil in H].
    cbn [negb].
    destruct (getDepartures host (api app) (clock_fetch env) (response env) station None)
      as [[deps|msg] api'] eqn:Hg; [|done].
    rewrite soon_loop_find.
    destruct (List.find _ deps) as [dep|] eqn:Hf; [|intros [= <- _] H; by apply elem_of_nil in H].
    intros [= <- <-] Hev. apply list_elem_of_singleton in Hev as ->.
    pose proof Hf as Hfind.
    apply find_unsuppressed in Hf as (Hq & _ & Hin).
    unfold soon_qualifies in Hq. apply andb_true_iff in Hq as [Hd Ht].
    apply negb_true_iff in Hd.
    exists station, deps, api'. by repeat split.
  - unfold _checkDepartureDelayedTrigger.
    destruct (station_id args) as [station|]; [|intros [= <- _] H; by apply elem_of_nil in H].
    destruct (nonempty station) eqn:Hne; [|intros [= <- _] H; by apply elem_of_nil in H].
    cbn [negb].
    destruct (getDepartures host (api app) (clock_fetch env) (response env) station None)
      as [[deps|msg] api'] eqn:Hg; [|done].
    rewrite delayed_loop_find.
    destruct (List.find _ deps) as [dep|] eqn:Hf; [|intros [= <- _] H; by apply elem_of_nil in H].
    intros [= <- <-] Hev. apply list_elem_of_singleton in Hev as ->.
    pose proof Hf as Hfind.
    apply find_unsuppressed in Hf as (Hq & _ & Hin).
    unfold delayed_qualifies in Hq. apply andb_true_iff in Hq as [Hd Ht].
    apply negb_true_iff in Hd.
    exists station, deps, api'. by repeat split.
Qed.

(** An event fired for an instance carries the instance's station in its
    state and the departure's line, destination and displayed times in its
    tokens; the departure passes the instance's destination filter; the
    "departure soon" card adds the minutes until departure, between 0 and
    the threshold, and the "departure delayed" card the delay, a number
    above the threshold. *)
Theorem fired_event_carries_its_departure k app env args events ev :
  (check k host app env args).1 = Normal events -> ev ∈ events ->
  station_id args = Some (stationId (state ev)) /\
  state_destination (state ev) = destination (cause ev) /\
  tk_line (tokens ev) = line (cause ev) /\
  tk_destination (tokens ev) = destination (cause ev) /\
  tk_planned_time (tokens ev) = planned_time (cause ev) /\
  tk_expected_time (tokens ev) = expected_time (cause ev) /\
  (str_or (destination_name args) "" <> "" ->
   contains_ci (destination (cause ev)) (str_or (destination_name args) "")) /\
  match k with
  | Soon =>
      exists m, tk_minutes_until (tokens ev) = Some m /\ tk_delay_minutes (tokens ev) = None /\
                m = getMinutesUntil (clock_eval env) (cause ev) /\
                0 <= m <= number_or_5 (minutes args)
  | Delayed =>
      exists d, tk_delay_minutes (tokens ev) = Some (Num d) /\ tk_minutes_until (tokens ev) = None /\
                delay_minutes (cause ev) = Num d /\
                number_or_5 (min_delay args) < d
  end.
Proof.
  intros Hc Hev. destruct (check k host app env args) as [c app'] eqn:E. simpl in Hc. subst c.
  destruct (check_event k app env args events app' ev E Hev)
    as (station & deps & api' & Hst & Hne & Hg & _ & _ & -> & Hin & Hk & Hstate & Htok & Hd & Ht).
  rewrite Hstate, Htok. cbn [stationId state_destination tokens_of tk_line tk_destination
    tk_planned_time tk_expected_time tk_minutes_until tk_delay_minutes].
  do 6 (split; [done|]). split.
  - intros Hfilter. unfold destination_mismatch in Hd.
    rewrite toLowerCase_nonempty in Hd.
    destruct (str_or (destination_name args) "") as [|c s] eqn:Ename; [done|].
    cbn [nonempty andb] in Hd. apply negb_false_iff in Hd.
    by apply includes_spec in Hd.
  - destruct k; cbn [within_threshold] in Ht.
    + eexists. repeat split; try done.
      * unfold getMinutesUntil, Math_max0. lia.
      * by apply Z.leb_le.
    + destruct (delay_minutes (cause ev)) as [d|] eqn:Ed; [|done].
      exists d. repeat split; try done. unfold gt, lt in Ht. by apply Z.ltb_lt.
Qed.

(** An event fired for an instance passes the run listener of that
    instance, and of every other instance at the same station that has the
    same or no destination filter, whatever its threshold and trigger mode;
    it passes the run listener of no instance at another station. *)
Theorem fired_event_passes_run_listener k app env args events ev :
  (check k host app env args).1 = Normal events -> ev ∈ events ->
  trigger_runListener args (state ev) = true /\
  (forall other,
     station_id other = station_id args ->
     destination_name other = None \/ destination_name other = destination_name args ->
     trigger_runListener other (state ev) = true) /\
  (forall other,
     station_id other <> station_id args -> trigger_runListener other (state ev) = false).
Proof.
  intros Hc Hev. destruct (check k host app env args) as [c app'] eqn:E. simpl in Hc. subst c.
  destruct (check_event k app env args events app' ev E Hev)
    as (station & deps & api' & Hst & Hne & Hg & _ & _ & -> & Hin & Hk & Hstate & Htok & Hd & Ht).
  assert (Hself : trigger_runListener args (state ev) = true).
  { unfold trigger_runListener. rewrite Hst, Hstate. cbn [stationId state_destination].
    rewrite String.eqb_refl. cbn [negb].
    destruct (destination_name args) as [name|]; [|done].
    destruct (nonempty name) eqn:Hn; [|done]. cbn [andb].
    destruct (nonempty (destination (cause ev))); [|done].
    unfold destination_mismatch in Hd. cbn [str_or] in Hd. rewrite Hn in Hd.
    rewrite toLowerCase_nonempty, Hn in Hd. cbn [andb] in Hd.
    apply negb_false_iff in Hd. by rewrite Hd. }
  split; [exact Hself|]. split.
  - intros other Hs [Hnone|Hsame].
    + unfold trigger_runListener. rewrite Hs, Hst, Hnone, Hstate. cbn [stationId].
      by rewrite String.eqb_refl.
    + unfold trigger_runListener in *. by rewrite Hs, Hsame.
  - intros other Hs. unfold trigger_runListener. rewrite Hstate. cbn [stationId].
    destruct (station_id other) as [id|]; [|done].
    destruct (String.eqb_spec id station) as [->|]; [|done]. by rewrite Hst in Hs.
Qed.

Lemma check_sets k app env args :
  exists events app',
    check k host app env args = (Normal events, app') /\
    Forall (fun ev => kind ev = k) events /\
    triggered_set k app' = triggered_set k app ∪ list_to_set (map event_key events) /\
    (forall k', k' <> k -> triggered_set k' app' = triggered_set k' app).
Proof.
  destruct (check_inv host k app env args) as (events & app' & E & H).
  exists events, app'. split; [done|].
  destruct H as [[-> Heq]|(ev & deps & api' & -> & Hk & _ & _ & _ & Hset & Hother)].
  - split; [constructor|]. unfold triggered_set. rewrite Heq. split; [|done].
    cbn [map list_to_set]. by rewrite (right_id_L ∅ (∪)).
  - split; [by repeat constructor|]. split; [|done]. rewrite Hset.
    cbn [map list_to_set]. by rewrite (right_id_L ∅ (∪)), (comm_L (∪)).
Qed.

Lemma for_each_sets k app instances :
  exists events app',
    for_each (check k host) app instances = (events, None, app') /\
    Forall (fun ev => kind ev = k) events /\
    triggered_set k app' = triggered_set k app ∪ list_to_set (map event_key events) /\
    (forall k', k' <> k -> triggered_set k' app' = triggered_set k' app).
Proof.
  revert app. induction instances as [|[args env] rest IH]; intros app.
  { exists [], app. split; [done|]. split; [constructor|]. split; [|done].
    cbn [map list_to_set]. by rewrite (right_id_L ∅ (∪)). }
  destruct (check_sets k app env args) as (ev1 & app1 & E1 & K1 & S1 & O1).
  destruct (IH app1) as (ev2 & app2 & E2 & K2 & S2 & O2).
  exists (ev1 ++ ev2), app2. split; [simpl; by rewrite E1, E2|].
  split; [by apply Forall_app|]. split.
  - by rewrite S2, S1, map_app, list_to_set_app_L, (assoc_L (∪)).
  - intros k' Hk. by rewrite O2, O1.
Qed.

Lemma fired_keys_app k ev1 ev2 : fired_keys k (ev1 ++ ev2) = fired_keys k ev1 ++ fired_keys k ev2.
Proof. unfold fired_keys. by rewrite List.filter_app, map_app. Qed.

Lemma fired_keys_same k events :
  Forall (fun ev => kind ev = k) events -> fired_keys k events = map event_key events.
Proof.
  unfold fired_keys. induction 1 as [|ev l Hk _ IH]; [done|].
  simpl. rewrite Hk, (proj2 (Kind_eqb_eq k k) eq_refl). simpl. by rewrite IH.
Qed.

Lemma fired_keys_other k k' events :
  k' <> k -> Forall (fun ev => kind ev = k') events -> fired_keys k events = [].
Proof.
  unfold fired_keys. intros Hne. induction 1 as [|ev l Hk _ IH]; [done|].
  simpl. destruct (Kind_eqb (kind ev) k) eqn:Ek; [|done].
  apply Kind_eqb_eq in Ek. congruence.
Qed.

(** The sets after a tick. *)
Lemma tick_sets k app soonArgs delayedArgs now key :
  key ∈ triggered_set k (_checkTriggers host app soonArgs delayedArgs now).2 <->
  (key ∈ triggered_set k app
   \/ key ∈ fired_keys k (_checkTriggers host app soonArgs delayedArgs now).1) /\
  expired (now - 3600000) key = false.
Proof.
  unfold _checkTriggers.
  destruct (for_each_sets Soon app soonArgs) as (ev1 & app1 & E1 & K1 & S1 & O1).
  destruct (for_each_sets Delayed app1 delayedArgs) as (ev2 & app2 & E2 & K2 & S2 & O2).
  simpl in E1, E2. rewrite E1, E2. cbn [fst snd].
  rewrite fired_keys_app.
  destruct k; cbn [triggered_set triggeredDepartures _cleanupTriggeredDepartures soon delayed].
  - change (60 * 60 * 1000) with 3600000.
    rewrite elem_of_filter.
    specialize (O2 Soon ltac:(done)). simpl in O2, S1. rewrite O2, S1.
    rewrite (fired_keys_same Soon ev1 K1), (fired_keys_other Soon Delayed ev2) by done.
    rewrite app_nil_r, elem_of_union, elem_of_list_to_set. tauto.
  - change (60 * 60 * 1000) with 3600000.
    rewrite elem_of_filter.
    specialize (O1 Delayed ltac:(done)). simpl in O1, S2. rewrite S2, O1.
    rewrite (fired_keys_other Delayed Soon ev1), (fired_keys_same Delayed ev2 K2) by done.
    rewrite app_nil_l, elem_of_union, elem_of_list_to_set. tauto.
Qed.

(** One poll tick leaves in the set of a card exactly the keys that were in
    it before or were fired for the card during the tick, less those the
    cleanup at the tick's end finds expired: every tick ends with the
    cleanup, and keys enter the sets by firings only. *)
Theorem tick_records_firings_then_cleans app soonArgs delayedArgs now k :
  let result := _checkTriggers host app soonArgs delayedArgs now in
  forall key,
    key ∈ triggered_set k result.2 <->
    (key ∈ triggered_set k app \/ key ∈ fired_keys k result.1) /\
    expired (now - 3600000) key = false.
Proof. intros result key. apply tick_sets. Qed.

(** A firing is always for one of the ten earliest departures of the list
    the cache then holds for the station: the checks call [getDepartures]
    with its default limit. *)
Theorem firing_is_among_ten_earliest k app env args events ev :
  (check k host app env args).1 = Normal events -> ev ∈ events ->
  exists entry i,
    departuresCache (api (check k host app env args).2) !! stationId (state ev) = Some entry /\
    (i < 10)%nat /\ data entry !! i = Some (cause ev).
Proof.
  intros Hc Hev. destruct (check k host app env args) as [c app'] eqn:E. simpl in Hc. subst c.
  destruct (check_event k app env args events app' ev E Hev)
    as (station & deps & api' & Hst & Hne & Hg & Hapi & _ & -> & Hin & Hk & Hstate & _).
  cbn [snd]. rewrite Hapi, Hstate. cbn [stationId].
  unfold getDepartures in Hg. rewrite Hne in Hg. cbn [negb default] in Hg.
  assert (Hslice : forall l : list Departure, slice0 l 10 = take 10 l) by done.
  destruct (fresh_entry (api app) (clock_fetch env) station) as [cached|] eqn:Hf.
  - injection Hg as <- <-. rewrite Hslice in Hin.
    apply elem_of_take in Hin as (i & Hi & Hlt).
    unfold fresh_entry in Hf. destruct (departuresCache (api app) !! station) as [e|] eqn:He; [|done].
    destruct (_ <? _); [|done]. injection Hf as ->. by exists cached, i.
  - unfold getDepartures_try in Hg. destruct (response env) as [msg|[payload|]].
    + injection Hg as <- _. by apply elem_of_nil in Hin.
    + injection Hg as <- <-. rewrite Hslice in Hin.
      apply elem_of_take in Hin as (i & Hi & Hlt).
      eexists _, i. cbn [departuresCache]. rewrite lookup_insert_eq. done.
    + injection Hg as <- _. by apply elem_of_nil in Hin.
Qed.

(** An instance fires for the earliest candidate: among the departures of
    the list that pass its destination filter and threshold test and are
    not suppressed by once-mode, the one it fires for has the least
    timestamp. *)
Theorem firing_is_for_earliest_candidate k app env args events ev deps api' :
  reachable host (api app) ->
  (check k host app env args).1 = Normal events -> ev ∈ events ->
  getDepartures host (api app) (clock_fetch env) (response env) (stationId (state ev)) None
  = (Normal deps, api') ->
  candidate k (clock_eval env) args (triggered_set k app) (cause ev) = true /\
  cause ev ∈ deps /\
  (forall d, d ∈ deps ->
     candidate k (clock_eval env) args (triggered_set k app) d = true ->
     timestamp (cause ev) <= timestamp d).
Proof.
  intros Hreach Hc Hev Hg.
  destruct (check k host app env args) as [c app'] eqn:E. simpl in Hc. subst c.
  destruct (check_event k app env args events app' ev E Hev)
    as (station & deps0 & api0 & Hst & Hne & Hg0 & _ & Hfind & -> & Hin & Hk & Hstate & _).
  rewrite Hstate in Hg. cbn [stationId] in Hg. rewrite Hg in Hg0. injection Hg0 as <- <-.
  destruct (getDepartures_ok host (api app) (clock_fetch env) (response env) station None
              (reachable_cache_ok host _ Hreach)) as (r & api1 & E1 & Hasc & _).
  rewrite Hg in E1. injection E1 as <- _.
  apply find_split in Hfind as (before & after & Hdeps & Hbefore & Hcand).
  split; [done|]. split; [done|].
  intros d Hd Hcd. apply list_elem_of_lookup_1 in Hd as [j Hj].
  destruct (decide (j < length before)%nat) as [Hlt|Hge].
  - rewrite Hdeps, lookup_app_l in Hj by done.
    rewrite Forall_forall in Hbefore.
    rewrite (Hbefore d) in Hcd; [done|]. by eapply list_elem_of_lookup_2.
  - apply (Hasc (length before) j (cause ev) d); [|done|lia].
    rewrite Hdeps. by rewrite list_lookup_middle.
Qed.

(** For a threshold [m] that is not negative, a departure is within [m]
    minutes exactly when its timestamp is less than [m] minutes and 30
    seconds ahead of the clock; the minutes until a departure never grow as
    the clock advances. *)
Theorem getMinutesUntil_window now dep m :
  0 <= m ->
  (getMinutesUntil now dep <= m <-> timestamp dep - now < 60000 * m + 30000) /\
  (forall later, now <= later -> getMinutesUntil later dep <= getMinutesUntil now dep).
Proof.
  intros Hm. unfold getMinutesUntil, Math_max0, round_div. split.
  - split; intros H; Z.div_mod_to_equations; lia.
  - intros later Hl. Z.div_mod_to_equations; lia.
Qed.

End Firing.

Lemma fired_event_carries_witness :
  station_id once_args = Some (stationId (state late_soon_event)) /\
  state_destination (state late_soon_event) = destination (cause late_soon_event) /\
  tk_line (tokens late_soon_event) = line (cause late_soon_event) /\
  tk_destination (tokens late_soon_event) = destination (cause late_soon_event) /\
  tk_planned_time (tokens late_soon_event) = planned_time (cause late_soon_event) /\
  tk_expected_time (tokens late_soon_event) = expected_time (cause late_soon_event) /\
  (str_or (destination_name once_args) "" <> "" ->
   contains_ci (destination (cause late_soon_event)) (str_or (destination_name once_args) "")) /\
  exists m, tk_minutes_until (tokens late_soon_event) = Some m /\
            tk_delay_minutes (tokens late_soon_event) = None /\
            m = getMinutesUntil (clock_eval (env_at 1749898860000 late_pass))
                  (cause late_soon_event) /\
            0 <= m <= number_or_5 (minutes once_args).
Proof.
  apply (fired_event_carries_its_departure no_host_parse Soon onInit
           (env_at 1749898860000 late_pass) once_args [late_soon_event] late_soon_event).
  - vm_compute. reflexivity.
  - apply list_elem_of_here.
Defined.

Lemma fired_event_passes_run_listener_witness :
  trigger_runListener once_args (state late_soon_event) = true.
Proof.
  refine (proj1 (fired_event_passes_run_listener no_host_parse Soon onInit
                   (env_at 1749898860000 late_pass) once_args [late_soon_event] late_soon_event
                   _ _)).
  - vm_compute. reflexivity.
  - apply list_elem_of_here.
Defined.

Lemma firing_is_among_ten_earliest_witness :
  exists entry i,
    departuresCache
      (api (check Soon no_host_parse onInit (env_at 1749898860000 late_pass) once_args).2)
      !! stationId (state late_soon_event) = Some entry /\
    (i < 10)%nat /\ data entry !! i = Some (cause late_soon_event).
Proof.
  apply (firing_is_among_ten_earliest no_host_parse Soon onInit
           (env_at 1749898860000 late_pass) once_args [late_soon_event] late_soon_event).
  - vm_compute. reflexivity.
  - apply list_elem_of_here.
Defined.

(** On the busy board at 11:28:00 UTC a once-mode instance fires for the
    line to Amersfoort, one minute away. *)
Lemma firing_is_for_earliest_candidate_witness :
  candidate Soon (clock_eval busy_env) once_args (triggered_set Soon onInit) to_amersfoort = true /\
  to_amersfoort ∈ busy_board /\
  (forall d, d ∈ busy_board ->
     candidate Soon (clock_eval busy_env) once_args (triggered_set Soon onInit) d = true ->
     timestamp to_amersfoort <= timestamp d).
Proof.
  apply (firing_is_for_earliest_candidate no_host_parse Soon onInit busy_env once_args
           [mkEvent Soon to_amersfoort (tokens_of Soon 1749900480000 to_amersfoort)
              (mkTriggerState "8400" "Amersfoort")]
           (mkEvent Soon to_amersfoort (tokens_of Soon 1749900480000 to_amersfoort)
              (mkTriggerState "8400" "Amersfoort"))
           busy_board busy_api).
  - apply reach_start. reflexivity.
  - vm_compute. reflexivity.
  - apply list_elem_of_here.
  - vm_compute. reflexivity.
Defined.

Lemma getMinutesUntil_window_witness :
  getMinutesUntil 1749900480000 to_utrecht <= 5
  <-> timestamp to_utrecht - 1749900480000 < 60000 * 5 + 30000.
Proof.
  refine (proj1 (getMinutesUntil_window 1749900480000 to_utrecht 5 _)). lia.
Defined.

(** ** Condition and action cards *)

Section Cards.

Variable host : string -> Date.

Lemma passes_filter_spec name dep :
  passes_filter name dep = true <->
  str_or name "" = "" \/ contains_ci (destination dep) (str_or name "").
Proof.
  unfold passes_filter, destination_mismatch, contains_ci.
  rewrite negb_true_iff, toLowerCase_nonempty.
  destruct (str_or name "") as [|c s] eqn:E.
  - simpl. split; [by left|done].
  - cbn [nonempty andb]. rewrite negb_false_iff, includes_spec.
    split; [by right|]. by intros [?|?].
Qed.

Lemma within_loop_existsb now dl m deps :
  within_loop now dl m deps
  = existsb (fun dep => negb (destination_mismatch dl dep)
                        && le (Num (getMinutesUntil now dep)) (ToNumber m)) deps.
Proof.
  induction deps as [|dep rest IH]; [done|]. cbn [within_loop existsb].
  destruct (destination_mismatch dl dep); [exact IH|]. cbn [negb andb].
  by destruct (le _ _).
Qed.

Lemma is_delayed_loop_existsb dl m deps :
  is_delayed_loop dl m deps
  = existsb (fun dep => negb (destination_mismatch dl dep)
                        && gt (delay_minutes dep) (ToNumber m)) deps.
Proof.
  induction deps as [|dep rest IH]; [done|]. cbn [is_delayed_loop existsb].
  destruct (destination_mismatch dl dep); [exact IH|]. cbn [negb andb].
  by destruct (gt _ _).
Qed.

Lemma with_departures_Normal {A} app env args id deps api' (body : list Departure -> A) :
  arg_station args = Some id ->
  getDepartures host (api app) (clock_fetch env) (response env) (default "" id) None
  = (Normal deps, api') ->
  with_departures host app env args body
  = (Normal (body deps), mkApp api' (triggeredDepartures app)).
Proof. intros Hs Hg. unfold with_departures, station_id_of. by rewrite Hs, Hg. Qed.

(** The check of a trigger instance that is not in once-mode fires exactly
    when some departure of the list qualifies. *)
Lemma soon_check_fires_iff app env targs id deps api' :
  station_id targs = id -> trigger_mode targs <> "once" ->
  getDepartures host (api app) (clock_fetch env) (response env) (default "" id) None
  = (Normal deps, api') ->
  (exists ev, (_checkDepartureSoonTrigger host app env targs).1 = Normal [ev]) <->
  exists dep, dep ∈ deps /\
    soon_qualifies (clock_eval env) (toLowerCase (str_or (destination_name targs) ""))
      (number_or_5 (minutes targs)) dep = true.
Proof.
  intros Hs Hmode Hg. unfold _checkDepartureSoonTrigger. rewrite Hs.
  destruct id as [station|]; simpl in Hg.
  2:{ injection Hg as <- _. split; [by intros [? ?]|]. intros (dep & Hin & _).
      by apply elem_of_nil in Hin. }
  destruct (nonempty station) eqn:Hne; cbn [negb].
  2:{ unfold getDepartures in Hg. rewrite Hne in Hg. injection Hg as <- _.
      split; [by intros [? ?]|]. intros (dep & Hin & _). by apply elem_of_nil in Hin. }
  rewrite Hg, soon_loop_find.
  destruct (List.find _ deps) as [d|] eqn:Hf.
  - split; [|by eexists]. intros _. apply find_unsuppressed in Hf as (Hq & _ & Hin). by exists d.
  - split; [by intros [? ?]|]. intros (dep & Hin & Hq).
    apply list_elem_of_In in Hin. apply (List.find_none _ _ Hf) in Hin.
    rewrite Hq, not_once_not_suppressed in Hin by done. done.
Qed.

Lemma delayed_check_fires_iff app env targs id deps api' :
  station_id targs = id -> trigger_mode targs <> "once" ->
  getDepartures host (api app) (clock_fetch env) (response env) (default "" id) None
  = (Normal deps, api') ->
  (exists ev, (_checkDepartureDelayedTrigger host app env targs).1 = Normal [ev]) <->
  exists dep, dep ∈ deps /\
    delayed_qualifies (toLowerCase (str_or (destination_name targs) ""))
      (number_or_5 (min_delay targs)) dep = true.
Proof.
  intros Hs Hmode Hg. unfold _checkDepartureDelayedTrigger. rewrite Hs.
  destruct id as [station|]; simpl in Hg.
  2:{ injection Hg as <- _. split; [by intros [? ?]|]. intros (dep & Hin & _).
      by apply elem_of_nil in Hin. }
  destruct (nonempty station) eqn:Hne; cbn [negb].
  2:{ unfold getDepartures in Hg. rewrite Hne in Hg. injection Hg as <- _.
      split; [by intros [? ?]|]. intros (dep & Hin & _). by apply elem_of_nil in Hin. }
  rewrite Hg, delayed_loop_find.
  destruct (List.find _ deps) as [d|] eqn:Hf.
  - split; [|by eexists]. intros _. apply find_unsuppressed in Hf as (Hq & _ & Hin). by exists d.
  - split; [by intros [? ?]|]. intros (dep & Hin & Hq).
    apply list_elem_of_In in Hin. apply (List.find_none _ _ Hf) in Hin.
    rewrite Hq, not_once_not_suppressed in Hin by done. done.
Qed.

(** The condition "departure within minutes" holds exactly when some
    departure of the list passes the destination filter and is at most the
    configured number of minutes away; a configured 0 is honoured, and
    without a configured number the condition is false.  For a number other
    than 0 it agrees with the "departure soon" trigger: it holds exactly
    when an always-mode instance with the same arguments fires. *)
Theorem departureWithinCondition_honours_threshold app env args id deps api' :
  arg_station args = Some id ->
  getDepartures host (api app) (clock_fetch env) (response env) (default "" id) None
  = (Normal deps, api') ->
  (arg_minutes args = None -> (departureWithinCondition host app env args).1 = Normal false) /\
  (forall t, arg_minutes args = Some t ->
     ((departureWithinCondition host app env args).1 = Normal true <->
      exists dep, dep ∈ deps /\ passes_filter (arg_destination_name args) dep = true /\
                  getMinutesUntil (clock_eval env) dep <= t)) /\
  (forall t targs,
     arg_minutes args = Some t -> t <> 0 ->
     station_id targs = id -> destination_name targs = arg_destination_name args ->
     minutes targs = Some t -> trigger_mode targs <> "once" ->
     ((departureWithinCondition host app env args).1 = Normal true <->
      exists ev, (_checkDepartureSoonTrigger host app env targs).1 = Normal [ev])).
Proof.
  intros Hs Hg. unfold departureWithinCondition.
  rewrite (with_departures_Normal app env args id deps api' _ Hs Hg). cbn [fst].
  rewrite within_loop_existsb.
  assert (Hiff : forall t, arg_minutes args = Some t ->
            (Normal (existsb (fun dep =>
                negb (destination_mismatch (toLowerCase (str_or (arg_destination_name args) "")) dep)
                && le (Num (getMinutesUntil (clock_eval env) dep)) (ToNumber (arg_minutes args)))
                deps) = Normal true <->
             exists dep, dep ∈ deps /\ passes_filter (arg_destination_name args) dep = true /\
                         getMinutesUntil (clock_eval env) dep <= t)).
  { intros t Ht. rewrite Ht. cbn [ToNumber le].
    split.
    - intros [= H]. apply existsb_elem_of in H as (dep & Hin & H).
      apply andb_true_iff in H as [H1 H2]. apply Z.leb_le in H2. by exists dep.
    - intros (dep & Hin & H1 & H2). f_equal. apply existsb_elem_of. exists dep.
      split; [done|]. apply andb_true_iff. split; [done|]. by apply Z.leb_le. }
  split; [|split].
  - intros ->. f_equal. apply not_true_is_false. intros H.
    apply existsb_elem_of in H as (dep & _ & H). apply andb_true_iff in H as [_ H]. done.
  - exact Hiff.
  - intros t targs Ht Hnz Hst Hdest Hmin Hmode.
    rewrite (Hiff t Ht), (soon_check_fires_iff app env targs id deps api' Hst Hmode Hg).
    rewrite Hdest, Hmin. unfold number_or_5, truthy.
    rewrite (proj2 (Z.eqb_neq t 0) Hnz). cbn [negb].
    unfold soon_qualifies, passes_filter.
    split; intros (dep & Hin & H); exists dep; (split; [done|]).
    + destruct H as [H1 H2]. apply andb_true_iff. split; [done|]. by apply Z.leb_le.
    + apply andb_true_iff in H as [H1 H2]. split; [done|]. by apply Z.leb_le.
Qed.

(** The condition "is delayed" holds exactly when some departure of the
    list passes the destination filter and has a delay that is a number
    above the configured one; without a configured number it is false.  For
    a number other than 0 it agrees with the "departure delayed" trigger. *)
Theorem isDelayedCondition_honours_threshold app env args id deps api' :
  arg_station args = Some id ->
  getDepartures host (api app) (clock_fetch env) (response env) (default "" id) None
  = (Normal deps, api') ->
  (arg_minutes args = None -> (isDelayedCondition host app env args).1 = Normal false) /\
  (forall t, arg_minutes args = Some t ->
     ((isDelayedCondition host app env args).1 = Normal true <->
      exists dep d, dep ∈ deps /\ passes_filter (arg_destination_name args) dep = true /\
                    delay_minutes dep = Num d /\ t < d)) /\
  (forall t targs,
     arg_minutes args = Some t -> t <> 0 ->
     station_id targs = id -> destination_name targs = arg_destination_name args ->
     min_delay targs = Some t -> trigger_mode targs <> "once" ->
     ((isDelayedCondition host app env args).1 = Normal true <->
      exists ev, (_checkDepartureDelayedTrigger host app env targs).1 = Normal [ev])).
Proof.
  intros Hs Hg. unfold isDelayedCondition.
  rewrite (with_departures_Normal app env args id deps api' _ Hs Hg). cbn [fst].
  rewrite is_delayed_loop_existsb.
  assert (Hgt : forall dep t, gt (delay_minutes dep) (Num t) = true <->
                              exists d, delay_minutes dep = Num d /\ t < d).
  { intros dep t. unfold gt, lt. destruct (delay_minutes dep) as [d|].
    - rewrite Z.ltb_lt. split; [by exists d|]. by intros (d' & [= <-] & H).
    - split; [done|]. by intros (d' & ? & _). }
  assert (Hiff : forall t, arg_minutes args = Some t ->
            (Normal (existsb (fun dep =>
                negb (destination_mismatch (toLowerCase (str_or (arg_destination_name args) "")) dep)
                && gt (delay_minutes dep) (ToNumber (arg_minutes args))) deps) = Normal true <->
             exists dep, dep ∈ deps /\ passes_filter (arg_destination_name args) dep = true /\
                         gt (delay_minutes dep) (Num t) = true)).
  { intros t Ht. rewrite Ht. cbn [ToNumber].
    split.
    - intros [= H]. apply existsb_elem_of in H as (dep & Hin & H).
      apply andb_true_iff in H as [H1 H2]. by exists dep.
    - intros (dep & Hin & H1 & H2). f_equal. apply existsb_elem_of. exists dep.
      split; [done|]. by apply andb_true_iff. }
  split; [|split].
  - intros ->. f_equal. apply not_true_is_false. intros H.
    apply existsb_elem_of in H as (dep & _ & H). apply andb_true_iff in H as [_ H].
    unfold gt, lt in H. cbn [ToNumber] in H. done.
  - intros t Ht. rewrite (Hiff t Ht). split.
    + intros (dep & Hin & H1 & H2). apply Hgt in H2 as (d & Hd & Hlt). by exists dep, d.
    + intros (dep & d & Hin & H1 & Hd & Hlt). exists dep. split; [done|]. split; [done|].
      apply Hgt. by exists d.
  - intros t targs Ht Hnz Hst Hdest Hmin Hmode.
    rewrite (Hiff t Ht), (delayed_check_fires_iff app env targs id deps api' Hst Hmode Hg).
    rewrite Hdest, Hmin. unfold number_or_5, truthy.
    rewrite (proj2 (Z.eqb_neq t 0) Hnz). cbn [negb].
    unfold delayed_qualifies, passes_filter.
    split; intros (dep & Hin & H); exists dep; (split; [done|]).
    + by apply andb_true_iff.
    + by apply andb_true_iff in H.
Qed.

(** The condition "next departure is" is false when there is no departure.
    Otherwise it tests the first departure of the list, whose timestamp is
    the least: its line for equality, or its destination for containment,
    letter case disregarded; any other match type gives false. *)
Theorem nextDepartureIsCondition_tests_earliest app env args id deps api' :
  reachable host (api app) ->
  arg_station args = Some id ->
  getDepartures host (api app) (clock_fetch env) (response env) (default "" id) None
  = (Normal deps, api') ->
  (deps = [] -> (nextDepartureIsCondition host app env args).1 = Normal false) /\
  (forall next rest, deps = next :: rest ->
     (forall d, d ∈ deps -> timestamp next <= timestamp d) /\
     (arg_match_type args = Some "line" ->
      ((nextDepartureIsCondition host app env args).1 = Normal true <->
       toLowerCase (line next) = toLowerCase (str_or (arg_match_value args) ""))) /\
     (arg_match_type args = Some "destination" ->
      ((nextDepartureIsCondition host app env args).1 = Normal true <->
       contains_ci (destination next) (str_or (arg_match_value args) ""))) /\
     (arg_match_type args <> Some "line" -> arg_match_type args <> Some "destination" ->
      (nextDepartureIsCondition host app env args).1 = Normal false)).
Proof.
  intros Hreach Hs Hg. unfold nextDepartureIsCondition.
  rewrite (with_departures_Normal app env args id deps api' _ Hs Hg). cbn [fst].
  split; [by intros ->|]. intros next rest ->. split; [|split; [|split]].
  - intros d Hd.
    destruct (getDepartures_ok host (api app) (clock_fetch env) (response env) (default "" id)
                None (reachable_cache_ok host _ Hreach)) as (r & api0 & E & Hasc & _).
    rewrite Hg in E. injection E as <- _.
    apply list_elem_of_lookup_1 in Hd as [j Hj].
    apply (Hasc 0%nat j next d); [done|done|lia].
  - intros ->. cbn [String.eqb Ascii.eqb Bool.eqb andb].
    change ("line" =? "line")%string with true. cbn match.
    split; [intros [= H]; by apply String.eqb_eq|]. intros H. f_equal. by apply String.eqb_eq.
  - intros ->. change ("destination" =? "line")%string with false.
    change ("destination" =? "destination")%string with true. cbn match.
    unfold contains_ci. rewrite <- includes_spec.
    split; [by intros [= H]|]. by intros ->.
  - intros H1 H2. destruct (arg_match_type args) as [type|]; [|done].
    destruct (String.eqb_spec type "line") as [->|]; [done|].
    destruct (String.eqb_spec type "destination") as [->|]; done.
Qed.

Lemma info_of_not_blank now dep : info_of now dep <> no_departure_info.
Proof. intros H. apply (f_equal info_transport_type) in H. simpl in H. by destruct (transport_type dep). Qed.

(** The action "get departure info" reports the first departure of the list
    that passes the destination filter, with minutes until departure that
    are not negative; when no departure passes it reports the blank record,
    which no departure produces. *)
Theorem getDepartureInfoAction_reports_first_match app env args id deps api' :
  arg_station args = Some id ->
  getDepartures host (api app) (clock_fetch env) (response env) (default "" id) None
  = (Normal deps, api') ->
  exists info,
    (getDepartureInfoAction host app env args).1 = Normal info /\
    0 <= info_minutes_until info /\
    ((info = no_departure_info /\
      forall dep, dep ∈ deps -> passes_filter (arg_destination_name args) dep = false) \/
     (exists before dep after,
        deps = before ++ dep :: after /\
        Forall (fun b => passes_filter (arg_destination_name args) b = false) before /\
        passes_filter (arg_destination_name args) dep = true /\
        info = info_of (clock_eval env) dep /\ info <> no_departure_info)).
Proof.
  intros Hs Hg. unfold getDepartureInfoAction.
  rewrite (with_departures_Normal app env args id deps api' _ Hs Hg). cbn [fst].
  set (dl := toLowerCase (str_or (arg_destination_name args) "")).
  assert (Hfind : (if nonempty dl
                   then List.find (fun dep => includes (toLowerCase (destination dep)) dl) deps
                   else head deps)
                  = List.find (passes_filter (arg_destination_name args)) deps).
  { unfold passes_filter, destination_mismatch. fold dl. destruct (nonempty dl).
    - apply find_ext. intros dep. cbn [andb]. by rewrite negb_involutive.
    - rewrite <- find_true_head. by apply find_ext. }
  rewrite Hfind.
  destruct (List.find (passes_filter (arg_destination_name args)) deps) as [dep|] eqn:Hf.
  - eexists. split; [done|]. split; [cbn [info_minutes_until]; unfold getMinutesUntil, Math_max0; lia|].
    right. apply find_split in Hf as (before & after & -> & Hb & Hd).
    exists before, dep, after. repeat split; try done. apply info_of_not_blank.
  - eexists. split; [done|]. split; [done|]. left. split; [done|].
    intros dep Hin. apply list_elem_of_In in Hin. by apply (List.find_none _ _ Hf).
Qed.

(** The four cards throw when [args.station] is undefined, before any
    request.  Otherwise they complete normally, and all they change is the
    client's cache, as their call of [getDepartures] does: the sets behind
    once-mode are left alone. *)
Theorem cards_fail_only_without_station app env args :
  (arg_station args = None ->
   exists message,
     nextDepartureIsCondition host app env args = (Throw message, app) /\
     departureWithinCondition host app env args = (Throw message, app) /\
     isDelayedCondition host app env args = (Throw message, app) /\
     getDepartureInfoAction host app env args = (Throw message, app)) /\
  (forall id, arg_station args = Some id ->
     let app' := mkApp (getDepartures host (api app) (clock_fetch env) (response env)
                          (default "" id) None).2 (triggeredDepartures app) in
     (exists b, nextDepartureIsCondition host app env args = (Normal b, app')) /\
     (exists b, departureWithinCondition host app env args = (Normal b, app')) /\
     (exists b, isDelayedCondition host app env args = (Normal b, app')) /\
     (exists info, getDepartureInfoAction host app env args = (Normal info, app'))).
Proof.
  split.
  - intros Hs. eexists.
    unfold nextDepartureIsCondition, departureWithinCondition, isDelayedCondition,
      getDepartureInfoAction, with_departures, station_id_of. rewrite Hs. done.
  - intros id Hs app'. subst app'.
    destruct (getDepartures_never_throws host (api app) (clock_fetch env) (response env)
                (default "" id) None) as (deps & api' & Hg).
    unfold nextDepartureIsCondition, departureWithinCondition, isDelayedCondition,
      getDepartureInfoAction.
    rewrite !(with_departures_Normal app env args id deps api' _ Hs Hg), Hg. cbn [snd].
    repeat split; by eexists.
Qed.

End Cards.

(** The busy board at 11:28:00 UTC, as [getDepartures] returns it. *)
Example busy_board_fetched :
  getDepartures no_host_parse new_OVApi 1749900480000 (Resolved (Some busy_payload)) "8400" None
  = (Normal busy_board, busy_api).
Proof. vm_compute. reflexivity. Qed.

Lemma departureWithinCondition_witness :
  (departureWithinCondition no_host_parse onInit busy_env
     (card_args (Some "utrecht") (Some 3) None None)).1 = Normal true <->
  exists dep, dep ∈ busy_board /\ passes_filter (Some "utrecht") dep = true /\
              getMinutesUntil 1749900480000 dep <= 3.
Proof.
  refine (proj1 (proj2 (departureWithinCondition_honours_threshold no_host_parse onInit busy_env
                          (card_args (Some "utrecht") (Some 3) None None)
                          (Some "8400") busy_board busy_api _ _)) 3 _).
  - reflexivity.
  - vm_compute. reflexivity.
  - reflexivity.
Defined.

Lemma isDelayedCondition_witness :
  (isDelayedCondition no_host_parse onInit busy_env
     (card_args None (Some 5) None None)).1 = Normal true <->
  exists dep d, dep ∈ busy_board /\ passes_filter None dep = true /\
                delay_minutes dep = Num d /\ 5 < d.
Proof.
  refine (proj1 (proj2 (isDelayedCondition_honours_threshold no_host_parse onInit busy_env
                          (card_args None (Some 5) None None)
                          (Some "8400") busy_board busy_api _ _)) 5 _).
  - reflexivity.
  - vm_compute. reflexivity.
  - reflexivity.
Defined.

Lemma nextDepartureIsCondition_witness :
  (nextDepartureIsCondition no_host_parse onInit busy_env
     (card_args None None (Some "line") (Some "3"))).1 = Normal true <->
  toLowerCase (line to_amersfoort) = toLowerCase (str_or (Some "3") "").
Proof.
  refine (proj1 (proj2 (proj2 (nextDepartureIsCondition_tests_earliest no_host_parse onInit
                                 busy_env (card_args None None (Some "line") (Some "3"))
                                 (Some "8400") busy_board busy_api _ _ _)
                               to_amersfoort [to_utrecht; to_utrecht_later] _)) _).
  - apply reach_start. reflexivity.
  - reflexivity.
  - vm_compute. reflexivity.
  - reflexivity.
  - reflexivity.
Defined.

Lemma getDepartureInfoAction_witness :
  exists info,
    (getDepartureInfoAction no_host_parse onInit busy_env
       (card_args (Some "Utrecht") None None None)).1 = Normal info /\
    0 <= info_minutes_until info /\
    ((info = no_departure_info /\
      forall dep, dep ∈ busy_board -> passes_filter (Some "Utrecht") dep = false) \/
     (exists before dep after,
        busy_board = before ++ dep :: after /\
        Forall (fun b => passes_filter (Some "Utrecht") b = false) before /\
        passes_filter (Some "Utrecht") dep = true /\
        info = info_of 1749900480000 dep /\ info <> no_departure_info)).
Proof.
  apply (getDepartureInfoAction_reports_first_match no_host_parse onInit busy_env
           (card_args (Some "Utrecht") None None None) (Some "8400") busy_board busy_api).
  - reflexivity.
  - vm_compute. reflexivity.
Defined.

(** ** Destinations: [getDestinations] and its autocomplete *)

Section Maps.

Context {V : Type}.



End Maps.

Section Destinations.

Variable host : string -> Date.






Lemma contains_ci_empty s : contains_ci s "".
Proof. by exists EmptyString, (toLowerCase s). Qed.

(** The destination autocomplete returns, in order, the destinations of the
    station whose name contains the query, letter case disregarded: all of
    them for an absent or empty query, and none when no station is chosen
    yet. *)
Theorem destination_autocomplete_filters_by_query app env query id dests api' :
  nonempty id = true ->
  getDestinations host (api app) (clock_fetch env) (response env) id = (Normal dests, api') ->
  exists results,
    _registerDestinationAutocomplete host app env query (Some id)
    = (Normal results, mkApp api' (triggeredDepartures app)) /\
    results `sublist_of` dests /\
    (forall d, d ∈ results <-> d ∈ dests /\ contains_ci (dest_name d) (default "" query)) /\
    (default "" query = "" -> results = dests) /\
    _registerDestinationAutocomplete host app env query None = (Normal [], app) /\
    _registerDestinationAutocomplete host app env query (Some "") = (Normal [], app).
Proof.
  intros Hne Hg. unfold _registerDestinationAutocomplete at 1. rewrite Hne, Hg. cbn [negb].
  assert (Hall : forall q, q = "" ->
            forall d, d ∈ dests <-> d ∈ dests /\ contains_ci (dest_name d) q).
  { intros q -> d. split; [|by intros [? _]]. intros H. split; [done|apply contains_ci_empty]. }
  destruct query as [[|c q]|]; cbn [default nonempty andb].
  - exists dests. split; [done|]. split; [done|]. split; [by apply Hall|]. done.
  - change (0 <? Z.of_nat (String.length (String c q))) with true. cbv iota.
    eexists. split; [done|]. split; [apply List_filter_sublist|]. split; [|done].
    intros d. rewrite List_filter_elem_of. unfold contains_ci. by rewrite includes_spec.
  - exists dests. split; [done|]. split; [done|]. split; [by apply Hall|]. done.
Qed.

End Destinations.


Lemma destination_autocomplete_witness :
  exists results,
    _registerDestinationAutocomplete no_host_parse onInit busy_env (Some "UTR") (Some "8400")
    = (Normal results, mkApp busy_api (triggeredDepartures onInit)) /\
    results `sublist_of`
      [mkDestination "Amersfoort" "Line 3"; mkDestination "Utrecht CS" "Line 12"] /\
    (forall d, d ∈ results <->
       d ∈ [mkDestination "Amersfoort" "Line 3"; mkDestination "Utrecht CS" "Line 12"] /\
       contains_ci (dest_name d) (default "" (Some "UTR"))) /\
    (default "" (Some "UTR") = "" ->
     results = [mkDestination "Amersfoort" "Line 3"; mkDestination "Utrecht CS" "Line 12"]) /\
    _registerDestinationAutocomplete no_host_parse onInit busy_env (Some "UTR") None
    = (Normal [], onInit) /\
    _registerDestinationAutocomplete no_host_parse onInit busy_env (Some "UTR") (Some "")
    = (Normal [], onInit).
Proof.
  apply (destination_autocomplete_filters_by_query no_host_parse onInit busy_env (Some "UTR")
           "8400" [mkDestination "Amersfoort" "Line 3"; mkDestination "Utrecht CS" "Line 12"]
           busy_api).
  - reflexivity.
  - vm_compute. reflexivity.
Defined.

(** On the busy board: the destinations, and what "get departure info"
    reports for the filter "Utrecht". *)
Example busy_board_destinations :
  (getDestinations no_host_parse new_OVApi 1749900480000 (Resolved (Some busy_payload)) "8400").1
  = Normal [mkDestination "Amersfoort" "Line 3"; mkDestination "Utrecht CS" "Line 12"] /\
  (getDepartureInfoAction no_host_parse onInit busy_env
     (card_args (Some "Utrecht") None None None)).1
  = Normal (mkDepartureInfo "12" "Utrecht CS" 3 (Num 3) "11:28" "11:31" "bus").
Proof. vm_compute. split; reflexivity. Qed.

(** ** The sets across polls *)

Section Runs.

Variable host : string -> Date.

(** Keys enter the sets by firings only: a key that is in the set of a card
    after a run of poll ticks was in it before the run or is the key of an
    event the card fired during the run; started from the state [onInit]
    sets up, the sets hold keys of fired events only. *)
Theorem sets_hold_fired_keys_only k ticks :
  (forall app key,
     key ∈ triggered_set k (run host app ticks).2 ->
     key ∈ triggered_set k app \/ key ∈ fired_keys k (concat (run host app ticks).1)) /\
  (forall key,
     key ∈ triggered_set k (run host onInit ticks).2 ->
     exists ev, ev ∈ concat (run host onInit ticks).1 /\ kind ev = k /\
                key = key_prefix k +:+ uid (cause ev)).
Proof.
  assert (H : forall app key,
     key ∈ triggered_set k (run host app ticks).2 ->
     key ∈ triggered_set k app \/ key ∈ fired_keys k (concat (run host app ticks).1)).
  { induction ticks as [|tick rest IH]; intros app key; [by left|].
    cbn [run].
    pose proof (proj1 (tick_sets host k app (soonArgs tick) (delayedArgs tick)
                         (clock_cleanup tick) key)) as Htick.
    destruct (_checkTriggers host app (soonArgs tick) (delayedArgs tick) (clock_cleanup tick))
      as [events app1].
    specialize (IH app1 key). destruct (run host app1 rest) as [later app2].
    cbn [fst snd concat] in *. rewrite fired_keys_app. intros Hin.
    destruct (IH Hin) as [Hin1|Hin1].
    - destruct (Htick Hin1) as [[?|?] _]; [by left|right]. apply elem_of_app. by left.
    - right. apply elem_of_app. by right. }
  split; [exact H|]. intros key Hin. destruct (H onInit key Hin) as [Hin0|Hfired].
  - destruct k; by apply elem_of_empty in Hin0.
  - unfold fired_keys in Hfired. apply list_elem_of_fmap in Hfired as (ev & -> & Hev).
    apply List_filter_elem_of in Hev as [Hev Hk]. apply Kind_eqb_eq in Hk.
    exists ev. split; [done|]. split; [done|]. unfold event_key. by rewrite Hk.
Qed.

End Runs.
